(** * Lathe monitoring backend: the metrics derivation engine

    A shallow embedding of [fastapi_backend.py]: the health scorer, the
    status classifier, the uptime estimator, the failure counter and the
    product/quality aggregator, together with the storage queries they
    issue.

    Conventions of the embedding.
    - A MongoDB document / Python dict is a finite map from field names to
      values ([gmap string pyval]).
    - Python floats are idealised as exact rationals ([Q]); equalities
      between computed numbers are stated up to [==].
    - Code under [try: ... except Exception:] runs in an error monad; the
      handler is the [match] on its result.
    - [random.uniform(0.05, 0.15)] and [datetime.now()] are explicit
      arguments: the values the calls returned.
    - The storage is a finite map from collection names to collections; a
      collection either holds a list of documents or raises on every read.
      Queries, projections and sorts follow MongoDB on the values modelled
      (null, booleans, integers, finite doubles, strings, datetimes and
      ObjectIds); the order of documents with equal sort keys, which
      MongoDB leaves open, is fixed by the sort functions below.
    - Parameter and response validation is done by FastAPI around the
      endpoint functions and is not part of them. *)

From Stdlib Require Import ZArith QArith Qround Qminmax Lia Lqa.
From stdpp Require Import gmap strings list pretty sorting.

Local Open Scope Q_scope.

(** ** Values and documents *)

(** The BSON values the code meets, as Python receives them. *)
Inductive pyval : Type :=
  | VNone
  | VBool (b : bool)
  | VInt (z : Z)
  | VFloat (q : Q)
  | VStr (s : string)
  | VDate (t : Z)        (* a naive datetime, in microseconds *)
  | VObjectId (oid : Z). (* an ObjectId, as the number its 12 bytes spell *)

Abbreviation doc := (gmap string pyval).

(** [isinstance(v, (int, float))]: [bool] is a subclass of [int]. *)
Definition isinstance_int_float (v : pyval) : bool :=
  match v with
  | VBool _ | VInt _ | VFloat _ => true
  | _ => false
  end.

(** The float64 a value becomes inside a numpy array; anything that is not
    a number makes numpy raise. *)
Definition to_float (v : pyval) : option Q :=
  match v with
  | VBool b => Some (if b then 1 else 0)
  | VInt z => Some (inject_Z z)
  | VFloat q => Some q
  | _ => None
  end.

Fixpoint Qsum (l : list Q) : Q :=
  match l with
  | [] => 0
  | x :: l' => x + Qsum l'
  end.

Definition mean (l : list Q) : Q := Qsum l / inject_Z (Z.of_nat (length l)).

(** [np.mean(values)] on a Python list. *)
Definition np_mean (values : list pyval) : option Q :=
  mean <$> mapM to_float values.

(** Python's [min(a, b)] and [max(a, b)]: the first argument is kept
    unless the second is strictly smaller (resp. larger). *)
Definition py_min (a b : Q) : Q := if Qle_bool a b then a else b.
Definition py_max (a b : Q) : Q := if Qle_bool b a then a else b.

(** ** Health scorer *)

Definition tracked : list string :=
  ["Temperature"; "Vibration"; "RPM"; "Power"; "ToolWear"]%string.

Definition metrics_init : gmap string (list pyval) :=
  list_to_map ((λ metric, (metric, [])) <$> tracked).

(** [if metric in d and isinstance(d[metric], (int, float)):
      metrics[metric].append(d[metric])] *)
Definition collect_field (d : doc) (metrics : gmap string (list pyval))
    (metric : string) : gmap string (list pyval) :=
  match d !! metric with
  | Some v =>
      if isinstance_int_float v
      then alter (λ l, l ++ [v]) metric metrics
      else metrics
  | None => metrics
  end.

(** The inner loop [for metric in metrics.keys()] for one reading [d]. *)
Definition collect_reading (metrics : gmap string (list pyval)) (d : doc)
  : gmap string (list pyval) :=
  foldl (collect_field d) metrics tracked.

(** The outer loop [for d in lathe_data]. *)
Definition extract_metrics (lathe_data : list doc) : gmap string (list pyval) :=
  foldl collect_reading metrics_init lathe_data.

(** [f(np.mean(metrics[key])) if metrics[key] else 0] *)
Definition score (metrics : gmap string (list pyval)) (key : string)
    (f : Q → Q) : option Q :=
  values ← metrics !! key;
  match values with
  | [] => Some 0
  | _ => f <$> np_mean values
  end.

(** The body of the [try] block. *)
Definition health_score_body (lathe_data : list doc) : option Q :=
  let metrics := extract_metrics lathe_data in
  temp ← score metrics "Temperature" (λ m, 1 - (m - 25) / 100);
  vib ← score metrics "Vibration" (λ m, 1 - m / 10);
  rpm ← score metrics "RPM" (λ m, m / 3000);
  power ← score metrics "Power" (λ m, 1 - m / 15);
  wear ← score metrics "ToolWear" (λ m, 1 - m / 100);
  let health_score :=
    0.2 * temp + 0.15 * vib + 0.25 * rpm + 0.2 * power + 0.2 * wear in
  Some (py_max 0 (py_min 100 (health_score * 100))).

Definition calculate_health_score (lathe_data : list doc) : Q :=
  match lathe_data with
  | [] => 0
  | _ =>
      match health_score_body lathe_data with
      | Some r => r
      | None => 0     (* except Exception: return 0.0 *)
      end
  end.

(** ** Status classifier *)

Definition get_lathe_status (health_score : Q) : string :=
  if Qle_bool 80 health_score then "Operational"
  else if Qle_bool 60 health_score then "Warning"
  else "Failure".

(** ** Exceptions *)

Inductive exn : Type :=
  | HTTPException (status_code : Z)
  | Error.     (* any other [Exception]: TypeError, KeyError,
                  UnboundLocalError, OverflowError, a pymongo error, ... *)

Inductive result (A : Type) : Type :=
  | Ok (a : A)
  | Raise (e : exn).
Arguments Ok {A} a.
Arguments Raise {A} e.

#[export] Instance result_ret : MRet result := λ A a, Ok a.
#[export] Instance result_bind : MBind result := λ A B f m,
  match m with
  | Ok a => f a
  | Raise e => Raise e
  end.
#[export] Instance result_fmap : FMap result := λ A B f m,
  match m with
  | Ok a => Ok (f a)
  | Raise e => Raise e
  end.

(** ** The storage collaborator (MongoDB through pymongo) *)

Inductive collection : Type :=
  | Unavailable               (* every operation on it raises *)
  | Docs (ds : list doc).

Record database : Type := mkDatabase {
  listing_ok : bool;          (* does [db.list_collection_names()] answer? *)
  collections : gmap string collection
}.

(** Numbers as MongoDB compares them: booleans are not numbers. *)
Definition bson_num (v : pyval) : option Q :=
  match v with
  | VInt z => Some (inject_Z z)
  | VFloat q => Some q
  | _ => None
  end.

Definition bson_eqb (a b : pyval) : bool :=
  match a, b with
  | VNone, VNone => true
  | VBool x, VBool y => Bool.eqb x y
  | VStr x, VStr y => String.eqb x y
  | VDate x, VDate y => Z.eqb x y
  | VObjectId x, VObjectId y => Z.eqb x y
  | _, _ =>
      match bson_num a, bson_num b with
      | Some x, Some y => Qeq_bool x y
      | _, _ => false
      end
  end.

(** The query operators the code uses. *)
Inductive condition : Type :=
  | OpEq (v : pyval)            (* {field: v} *)
  | OpIn (vs : list pyval)      (* {field: {"$in": vs}} *)
  | OpGt (bound : Q)            (* {field: {"$gt": bound}}, a number *)
  | OpGteDate (t : Z).          (* {field: {"$gte": t}}, a datetime *)

Abbreviation query := (list (string * condition)).

(** An equality against [null] also matches a missing field. *)
Definition field_eqb (field : option pyval) (v : pyval) : bool :=
  bson_eqb (default VNone field) v.

Definition cond_holds (c : condition) (field : option pyval) : bool :=
  match c with
  | OpEq v => field_eqb field v
  | OpIn vs => existsb (field_eqb field) vs
  | OpGt bound =>
      match field ≫= bson_num with
      | Some x => negb (Qle_bool x bound)
      | None => false
      end
  | OpGteDate t =>
      match field with
      | Some (VDate x) => Z.leb t x
      | _ => false
      end
  end.

Definition matches (q : query) (d : doc) : bool :=
  forallb (λ fc : string * condition, cond_holds fc.2 (d !! fc.1)) q.

(** An inclusion projection keeps [_id] and the listed fields. *)
Definition project (fields : list string) (d : doc) : doc :=
  filter (λ kv : string * pyval, kv.1 ∈ ("_id"%string :: fields)) d.

Definition collection_exists (db : database) (collection_name : string) : bool :=
  if listing_ok db
  then bool_decide (is_Some (collections db !! collection_name))
  else false.    (* except Exception: return False *)

(** [list(db[name].find(q))]; a collection that does not exist is empty. *)
Definition find (db : database) (name : string) (q : query) : result (list doc) :=
  match collections db !! name with
  | None => Ok []
  | Some Unavailable => Raise Error
  | Some (Docs ds) => Ok (List.filter (matches q) ds)
  end.

(** [list(db[name].find(q, fields))] *)
Definition find_project (db : database) (name : string) (q : query)
    (fields : list string) : result (list doc) :=
  (λ ds : list doc, project fields <$> ds) <$> find db name q.

(** [db[name].count_documents(q)] *)
Definition count_documents (db : database) (name : string) (q : query) : result Z :=
  (λ ds : list doc, Z.of_nat (length ds)) <$> find db name q.

(** MongoDB's sort order on a field, as far as the values go: a missing
    field sorts as null; null < numbers < strings < ObjectIds < booleans
    < dates. *)
Definition bson_rank (v : pyval) : Z :=
  match v with
  | VNone => 0
  | VInt _ | VFloat _ => 1
  | VStr _ => 2
  | VObjectId _ => 3
  | VBool _ => 4
  | VDate _ => 5
  end%Z.

Definition bson_leb (a b : pyval) : bool :=
  match a, b with
  | VBool x, VBool y => implb x y
  | VStr x, VStr y => String.leb x y
  | VDate x, VDate y => Z.leb x y
  | VObjectId x, VObjectId y => Z.leb x y
  | _, _ =>
      match bson_num a, bson_num b with
      | Some x, Some y => Qle_bool x y
      | _, _ => Z.leb (bson_rank a) (bson_rank b)
      end
  end.

(** [.sort(key, -1)]: descending. MongoDB leaves the order of documents
    with equal keys open; this sort puts the later-stored one first. *)
Fixpoint insert_desc (key : string) (d : doc) (sorted : list doc) : list doc :=
  match sorted with
  | [] => [d]
  | d' :: rest =>
      if bson_leb (default VNone (d !! key)) (default VNone (d' !! key))
      then d' :: insert_desc key d rest
      else d :: sorted
  end.

Definition sort_desc (key : string) (ds : list doc) : list doc :=
  foldr (insert_desc key) [] ds.

(** [list(db[name].find(q, fields).sort(key, -1).limit(n))] *)
Definition find_latest (db : database) (name : string) (q : query)
    (fields : list string) (key : string) (n : nat) : result (list doc) :=
  (λ ds : list doc, project fields <$> take n (sort_desc key ds)) <$> find db name q.

Definition sensory_col (lathe_id : Z) : string :=
  "Lathe" +:+ pretty lathe_id +:+ ".SensoryData".
Definition job_col (lathe_id : Z) : string :=
  "Lathe" +:+ pretty lathe_id +:+ ".JobDetails".

(** ** Uptime estimator *)

(** [(end - start).total_seconds()] *)
Definition total_seconds (end_ start : pyval) : result Q :=
  match end_, start with
  | VDate e, VDate s => Ok (inject_Z (e - s) / 1000000)
  | _, _ => Raise Error
  end.

(** [job['EndTime'] - job['StartTime']] for a job that has both keys. *)
Definition job_duration (job : doc) : result Q :=
  match job !! "EndTime", job !! "StartTime" with
  | Some e, Some s => total_seconds e s
  | _, _ => Raise Error
  end.

Definition has_both_times (job : doc) : bool :=
  bool_decide (is_Some (job !! "EndTime")) && bool_decide (is_Some (job !! "StartTime")).

Definition completed_query : query := [("Status"%string, OpEq (VStr "Completed"))].

(** The downtime model applied to the summed durations; [factor] is the
    value returned by [random.uniform(0.05, 0.15)]. *)
Definition uptime_of (total_duration factor : Q) : Q :=
  let operational_time := total_duration in
  let downtime := operational_time * factor in
  let uptime :=
    if negb (Qle_bool (operational_time + downtime) 0)
    then operational_time / (operational_time + downtime)
    else 1 in
  py_max 0 (py_min 100 (uptime * 100)).

(** The body of the [try] block. *)
Definition uptime_body (db : database) (lathe_id : Z) (factor : Q) : result Q :=
  if negb (collection_exists db (job_col lathe_id)) then Ok 100
  else
    jobs ← find db (job_col lathe_id) completed_query;
    match jobs with
    | [] => Ok 100
    | _ =>
        durations ← mapM job_duration (List.filter has_both_times jobs);
        Ok (uptime_of (Qsum durations) factor)
    end.

Definition calculate_uptime (db : database) (lathe_id : Z) (factor : Q) : Q :=
  match uptime_body db lathe_id factor with
  | Ok r => r
  | Raise _ => 100     (* except Exception: return 100.0 *)
  end.

(** ** Rounding *)

(** Round to the nearest integer, ties to the even one. *)
Definition round_half_even (x : Q) : Z :=
  let n := Qfloor x in
  match Qcompare (x - inject_Z n) (1 # 2) with
  | Lt => n
  | Gt => (n + 1)%Z
  | Eq => if Z.even n then n else (n + 1)%Z
  end.

(** [round(x, 1)] *)
Definition py_round1 (x : Q) : Q := inject_Z (round_half_even (x * 10)) / 10.

(** ** Fleet summary: [GET /lathes] *)

Record LatheSummary : Type := mkSummary {
  lathe_id : Z;
  name : string;
  health_score : Q;
  uptime : Q;
  status : string;
  failure_count : Z
}.

(** The entry appended on the three paths that have no metrics. *)
Definition placeholder (id : Z) (st : string) : LatheSummary :=
  {| lathe_id := id; name := "Lathe M" +:+ pretty id;
     health_score := 0; uptime := 0; status := st; failure_count := 0 |}.

Definition failure_query : query :=
  [("Status"%string, OpEq (VStr "Completed")); ("FinalToolWear"%string, OpGt 90)].

(** The body of the inner [try] for one lathe; [factor] is the damping
    factor drawn if [calculate_uptime] comes to draw one. *)
Definition lathe_entry (db : database) (factor : Q) (id : Z) : result LatheSummary :=
  if negb (collection_exists db (sensory_col id))
     || negb (collection_exists db (job_col id))
  then Ok (placeholder id "Offline")
  else
    sensor_data ← find_latest db (sensory_col id) [] tracked "timestamp" 1000;
    match sensor_data with
    | [] => Ok (placeholder id "No Data")
    | _ =>
        let health := calculate_health_score sensor_data in
        let up := calculate_uptime db id factor in
        let st := get_lathe_status health in
        count ← count_documents db (job_col id) failure_query;
        Ok {| lathe_id := id; name := "Lathe M" +:+ pretty id;
              health_score := py_round1 health; uptime := py_round1 up;
              status := st; failure_count := count |}
    end.

(** [rand id] is the damping factor drawn while lathe [id] is processed. *)
Definition get_all_lathes (db : database) (rand : Z → Q) (num_lathes : Z)
  : result (list LatheSummary) :=
  Ok ((λ id,
         match lathe_entry db (rand id) id with
         | Ok entry => entry
         | Raise _ => placeholder id "Error"
         end) <$> seqZ 1 num_lathes).

(** ** Python dictionaries with arbitrary keys *)

(** [a == b] *)
Definition py_eqb (a b : pyval) : bool :=
  match to_float a, to_float b with
  | Some x, Some y => Qeq_bool x y
  | Some _, None | None, Some _ => false
  | None, None =>
      match a, b with
      | VNone, VNone => true
      | VStr x, VStr y => String.eqb x y
      | VDate x, VDate y => Z.eqb x y
      | VObjectId x, VObjectId y => Z.eqb x y
      | _, _ => false
      end
  end.

(** A dict in insertion order. *)
Abbreviation dict V := (list (pyval * V)).

Fixpoint dict_get {V} (d : dict V) (k : pyval) : option V :=
  match d with
  | [] => None
  | (k', v) :: rest => if py_eqb k' k then Some v else dict_get rest k
  end.

(** [d[k] = v]: an existing key keeps its place (and its key object). *)
Fixpoint dict_set {V} (d : dict V) (k : pyval) (v : V) : dict V :=
  match d with
  | [] => [(k, v)]
  | (k', v') :: rest =>
      if py_eqb k' k then (k', v) :: rest else (k', v') :: dict_set rest k v
  end.

Definition dict_keys {V} (d : dict V) : list pyval := fst <$> d.

(** ** Product analysis: [GET /lathes/{lathe_id}/product-analysis] *)

Record quality : Type := mkQuality {
  failure_rate : Q;
  avg_health_score : Q
}.

Record ProductAnalysis : Type := mkAnalysis {
  product_types : dict Z;
  product_quality : dict quality;
  params_by_type : dict (list (string * Q))
}.

Fixpoint foldlM {A B} (f : B → A → result B) (b : B) (l : list A) : result B :=
  match l with
  | [] => Ok b
  | a :: l' => b' ← f b a; foldlM f b' l'
  end.

(** The loop that fills [product_types]. *)
Definition count_materials (jobs : list doc) : dict Z :=
  foldl (λ types job,
           let material := default (VStr "Unknown") (job !! "Material") in
           dict_set types material (default 0%Z (dict_get types material) + 1)%Z)
        [] jobs.

(** [[job["JobID"] for job in jobs if job.get("Material") == material]] *)
Definition material_jobs_of (jobs : list doc) (material : pyval) : result (list pyval) :=
  mapM (λ job : doc,
          match job !! "JobID" with
          | Some job_id => Ok job_id
          | None => Raise Error     (* KeyError *)
          end)
       (List.filter (λ job : doc, py_eqb (default VNone (job !! "Material")) material)
                    jobs).

(** One turn of [for job_id in material_jobs]. *)
Definition collect_job_score (db : database) (id : Z) (health_scores : list Q)
    (job_id : pyval) : result (list Q) :=
  job_sensor_data ←
    (if collection_exists db (sensory_col id)
     then find_project db (sensory_col id) [("JobID"%string, OpEq job_id)] tracked
     else Ok []);
  match job_sensor_data with
  | [] => Ok health_scores
  | _ => Ok (health_scores ++ [calculate_health_score job_sensor_data])
  end.

(** The loop that fills [health_scores]. *)
Definition job_health_scores (db : database) (id : Z) (material_jobs : list pyval)
  : result (list Q) :=
  foldlM (collect_job_score db id) [] material_jobs.

(** [np.mean(health_scores) if health_scores else 0] *)
Definition mean_or_zero (l : list Q) : Q :=
  match l with
  | [] => 0
  | _ => mean l
  end.

(** [safe_avg([d[key] for d in sensor_data if key in d])] *)
Definition safe_avg (sensor_data : list doc) (key : string) : result Q :=
  match omap (λ d : doc, d !! key) sensor_data with
  | [] => Ok 0
  | values =>
      match np_mean values with
      | Some m => Ok m
      | None => Raise Error
      end
  end.

(** [round((failed_jobs / total_jobs) * 100, 1) if total_jobs > 0 else 0] *)
Definition failure_rate_of (failed_jobs total_jobs : Z) : Q :=
  if (0 <? total_jobs)%Z
  then py_round1 ((inject_Z failed_jobs / inject_Z total_jobs) * 100)
  else 0.

(** One turn of [for material in product_types.keys()]. *)
Definition analyse_material (db : database) (id : Z) (jobs : list doc)
    (acc : dict quality * dict (list (string * Q))) (material : pyval)
  : result (dict quality * dict (list (string * Q))) :=
  material_jobs ← material_jobs_of jobs material;
  sensor_data ←
    (if collection_exists db (sensory_col id)
     then find_project db (sensory_col id)
            [("JobID"%string, OpIn material_jobs)] tracked
     else Ok []);
  match sensor_data with
  | [] => Ok acc      (* continue *)
  | _ =>
      let total_jobs := Z.of_nat (length material_jobs) in
      failed_jobs ← count_documents db (job_col id)
        [("JobID"%string, OpIn material_jobs); ("FinalToolWear"%string, OpGt 80)];
      health_scores ← job_health_scores db id material_jobs;
      let avg := mean_or_zero health_scores in
      let q := {| failure_rate := failure_rate_of failed_jobs total_jobs;
                  avg_health_score := py_round1 avg |} in
      temperature ← safe_avg sensor_data "Temperature";
      vibration ← safe_avg sensor_data "Vibration";
      rpm ← safe_avg sensor_data "RPM";
      power ← safe_avg sensor_data "Power";
      tool_wear ← safe_avg sensor_data "ToolWear";
      Ok (dict_set acc.1 material q,
          dict_set acc.2 material
            [("Temperature"%string, temperature); ("Vibration"%string, vibration);
             ("RPM"%string, rpm); ("Power"%string, power);
             ("ToolWear"%string, tool_wear)])
  end.

(** [{"Material": 1, "JobID": 1, "FinalToolWear": 1}] *)
Definition job_fields : list string := ["Material"; "JobID"; "FinalToolWear"]%string.

(** The body of the [try] block. *)
Definition product_analysis_body (db : database) (id : Z) : result ProductAnalysis :=
  if negb (collection_exists db (job_col id)) then Raise (HTTPException 404)
  else
    jobs ← find_project db (job_col id) completed_query job_fields;
    match jobs with
    | [] => Raise (HTTPException 404)
    | _ =>
        let types := count_materials jobs in
        acc ← foldlM (analyse_material db id jobs) ([], []) (dict_keys types);
        Ok {| product_types := types;
              product_quality := acc.1;
              params_by_type := acc.2 |}
    end.

Definition get_lathe_product_analysis (db : database) (id : Z) : result ProductAnalysis :=
  match product_analysis_body db id with
  | Raise Error => Raise (HTTPException 500)   (* except Exception *)
  | r => r                                     (* except HTTPException: raise *)
  end.

(** ** Machine details: [GET /lathes/{lathe_id}] *)

Definition details_fields : list string :=
  ["timestamp"; "Temperature"; "Vibration"; "RPM"; "Power"; "ToolWear"; "JobID"]%string.

(** [db[name].find_one({}, fields, sort=[(key, -1)])] *)
Definition find_one_latest (db : database) (name : string) (fields : list string)
    (key : string) : result (option doc) :=
  (λ ds : list doc, head ds) <$> find_latest db name [] fields key 1.

(** [now.replace(hour=0, minute=0, second=0, microsecond=0)] *)
Definition today_start (now : Z) : Z := (now - now `mod` 86400000000)%Z.

(** [current_job.get(key) if current_job else None] *)
Definition current (current_job : option doc) (key : string) : pyval :=
  match current_job with
  | Some d => default VNone (d !! key)
  | None => VNone
  end.

Record LatheDetails : Type := mkDetails {
  summary : LatheSummary;     (* the six keys shared with the fleet summary *)
  current_job : option doc;
  jobs_completed_today : Z;
  daily_job_target : pyval;
  current_temperature : pyval;
  current_vibration : pyval;
  current_rpm : pyval;
  current_power : pyval;
  current_tool_wear : pyval
}.

(** The body of the [try] block; [now] is what [datetime.now()] returned.
    The function assigns [status = get_lathe_status(health_score)], which
    makes [status] one of its local names: the two guards, which read
    [status.HTTP_404_NOT_FOUND] before that assignment, raise
    UnboundLocalError and never build their HTTPException. *)
Definition lathe_details_body (db : database) (factor : Q) (now : Z) (id : Z)
  : result LatheDetails :=
  if negb (collection_exists db (sensory_col id)) then Raise Error
  else
    sensor_data ← find_latest db (sensory_col id) [] details_fields "timestamp" 1000;
    match sensor_data with
    | [] => Raise Error
    | _ =>
        let health := calculate_health_score sensor_data in
        let up := calculate_uptime db id factor in
        let st := get_lathe_status health in
        cur ← find_one_latest db (sensory_col id) details_fields "timestamp";
        completed_today ←
          (if collection_exists db (job_col id)
           then count_documents db (job_col id)
                  [("Status"%string, OpEq (VStr "Completed"));
                   ("EndTime"%string, OpGteDate (today_start now))]
           else Ok 0%Z);
        daily_target ←
          (if collection_exists db (job_col id)
           then
             target_doc ← find_one_latest db (job_col id) ["DailyJobTarget"%string]
                            "StartTime";
             Ok (default (VInt 10) (target_doc ≫= (λ d : doc, d !! "DailyJobTarget")))
           else Ok (VInt 10));
        count ←
          (if collection_exists db (job_col id)
           then count_documents db (job_col id) failure_query
           else Ok 0%Z);
        Ok {| summary :=
                {| lathe_id := id; name := "Lathe M" +:+ pretty id;
                   health_score := py_round1 health; uptime := py_round1 up;
                   status := st; failure_count := count |};
              current_job := cur;
              jobs_completed_today := completed_today;
              daily_job_target := daily_target;
              current_temperature := current cur "Temperature";
              current_vibration := current cur "Vibration";
              current_rpm := current cur "RPM";
              current_power := current cur "Power";
              current_tool_wear := current cur "ToolWear" |}
    end.

(** The handler [except Exception] reads [status.HTTP_500_INTERNAL_SERVER_ERROR]
    on the same local name, which by then is unbound or a string: the
    handler fails itself (UnboundLocalError or AttributeError), and that
    exception leaves the function. *)
Definition get_lathe_details (db : database) (factor : Q) (now : Z) (id : Z)
  : result LatheDetails :=
  match lathe_details_body db factor now id with
  | Raise Error => Raise Error                 (* except Exception: fails *)
  | r => r                                     (* except HTTPException: raise *)
  end.

(** ** Sensor history: [GET /lathes/{lathe_id}/history] *)

(** [{"timestamp": {"$gte": start_time, "$lte": end_time}}]; the two
    bounds are compared as the code computes them, to the microsecond
    (the driver sends them cut to the millisecond). *)
Definition in_window (start_time end_time : Z) (d : doc) : bool :=
  match d !! "timestamp" with
  | Some (VDate t) => (start_time <=? t)%Z && (t <=? end_time)%Z
  | _ => false
  end.

(** [list(db[name].find(...))] for a filter given as a predicate. *)
Definition find_where (db : database) (name : string) (p : doc → bool)
  : result (list doc) :=
  match collections db !! name with
  | None => Ok []
  | Some Unavailable => Raise Error
  | Some (Docs ds) => Ok (List.filter p ds)
  end.

(** A projection with ["_id": 0] keeps the listed fields only. *)
Definition project_no_id (fields : list string) (d : doc) : doc :=
  filter (λ kv : string * pyval, kv.1 ∈ fields) d.

(** [.sort(key, 1)]: ascending; documents with equal keys keep their
    stored order. *)
Fixpoint insert_asc (key : string) (d : doc) (sorted : list doc) : list doc :=
  match sorted with
  | [] => [d]
  | d' :: rest =>
      if bson_leb (default VNone (d !! key)) (default VNone (d' !! key))
      then d :: sorted
      else d' :: insert_asc key d rest
  end.

Definition sort_asc (key : string) (ds : list doc) : list doc :=
  foldr (insert_asc key) [] ds.

(** [.limit(n)]: 0 means no limit, a negative number counts as its
    absolute value. *)
Definition mongo_limit (n : Z) (ds : list doc) : list doc :=
  if (n =? 0)%Z then ds else take (Z.to_nat (Z.abs n)) ds.

(** [end_time - timedelta(hours=hours)] *)
Definition hours_before (end_time hours : Z) : Z :=
  (end_time - hours * 3600000000)%Z.

(** The body of the [try] block; [now] is what [datetime.now()] returned. *)
Definition lathe_history_body (db : database) (now : Z) (id hours limit : Z)
  : result (list doc) :=
  if negb (collection_exists db (sensory_col id)) then Raise (HTTPException 404)
  else
    let end_time := now in
    let start_time := hours_before end_time hours in
    found ← find_where db (sensory_col id) (in_window start_time end_time);
    let sensor_data :=
      project_no_id details_fields
        <$> mongo_limit limit (sort_asc "timestamp" found) in
    match sensor_data with
    | [] => Raise (HTTPException 404)
    | _ => Ok sensor_data
    end.

Definition get_lathe_history (db : database) (now : Z) (id hours limit : Z)
  : result (list doc) :=
  match lathe_history_body db now id hours limit with
  | Raise Error => Raise (HTTPException 500)   (* except Exception *)
  | r => r                                     (* except HTTPException: raise *)
  end.

(** ** Sensor data and statistics: [GET /lathes/{lathe_id}/sensor-data] *)

(** [a < b]; across types, and for null, Python raises TypeError. *)
Definition py_ltb (a b : pyval) : result bool :=
  match to_float a, to_float b with
  | Some x, Some y => Ok (negb (Qle_bool y x))
  | Some _, None | None, Some _ => Raise Error
  | None, None =>
      match a, b with
      | VStr s, VStr t => Ok (String.ltb s t)
      | VDate s, VDate t => Ok (s <? t)%Z
      | VObjectId s, VObjectId t => Ok (s <? t)%Z
      | _, _ => Raise Error
      end
  end.

(** [min(values)], having seen [best] so far: an item replaces it when
    [item < best]. *)
Fixpoint py_min_from (best : pyval) (rest : list pyval) : result pyval :=
  match rest with
  | [] => Ok best
  | item :: rest' =>
      py_ltb item best ≫= λ smaller : bool,
      py_min_from (if smaller then item else best) rest'
  end.

(** [max(values)], having seen [best] so far: an item replaces it when
    [item > best]. *)
Fixpoint py_max_from (best : pyval) (rest : list pyval) : result pyval :=
  match rest with
  | [] => Ok best
  | item :: rest' =>
      py_ltb best item ≫= λ larger : bool,
      py_max_from (if larger then item else best) rest'
  end.

Record SensorStats : Type := mkStats {
  stats_min : pyval;
  stats_max : pyval;
  stats_avg : Q
}.

Definition safe_stats (values : list pyval) : result SensorStats :=
  match values with
  | [] => Ok {| stats_min := VInt 0; stats_max := VInt 0; stats_avg := 0 |}
  | first :: rest =>
      lo ← py_min_from first rest;
      hi ← py_max_from first rest;
      match np_mean values with
      | Some m => Ok {| stats_min := lo; stats_max := hi; stats_avg := m |}
      | None => Raise Error
      end
  end.

(** [[d[key] for d in sensor_data if key in d]] *)
Definition field_values (sensor_data : list doc) (key : string) : list pyval :=
  omap (λ d : doc, d !! key) sensor_data.

Record SensorReport : Type := mkReport {
  sensor_data : list doc;
  stats : list (string * SensorStats)
}.

Definition sensor_fields : list string :=
  ["timestamp"; "Temperature"; "Vibration"; "RPM"; "Power"; "ToolWear"]%string.

(** The body of the [try] block. *)
Definition lathe_sensor_data_body (db : database) (id limit : Z)
  : result SensorReport :=
  if negb (collection_exists db (sensory_col id)) then Raise (HTTPException 404)
  else
    found ← find db (sensory_col id) [];
    let data :=
      project_no_id sensor_fields
        <$> mongo_limit limit (sort_desc "timestamp" found) in
    match data with
    | [] => Raise (HTTPException 404)
    | _ =>
        temperature ← safe_stats (field_values data "Temperature");
        vibration ← safe_stats (field_values data "Vibration");
        rpm ← safe_stats (field_values data "RPM");
        power ← safe_stats (field_values data "Power");
        tool_wear ← safe_stats (field_values data "ToolWear");
        Ok {| sensor_data := data;
              stats := [("Temperature"%string, temperature);
                        ("Vibration"%string, vibration);
                        ("RPM"%string, rpm); ("Power"%string, power);
                        ("ToolWear"%string, tool_wear)] |}
    end.

Definition get_lathe_sensor_data (db : database) (id limit : Z)
  : result SensorReport :=
  match lathe_sensor_data_body db id limit with
  | Raise Error => Raise (HTTPException 500)   (* except Exception *)
  | r => r                                     (* except HTTPException: raise *)
  end.

(** ** Starting a job: [POST /lathes/{lathe_id}/start-job] *)

(** The document [start_new_job] builds. *)
Definition job_details (now : Z) (id : Z) (job_id material job_type : string)
    (tool_no : Z) : doc :=
  list_to_map
    [("JobID"%string, VStr job_id); ("LatheID"%string, VInt id);
     ("Material"%string, VStr material); ("JobType"%string, VStr job_type);
     ("ToolNo"%string, VInt tool_no); ("StartTime"%string, VDate now);
     ("Status"%string, VStr "Running"); ("FinalToolWear"%string, VInt 0);
     ("DailyJobTarget"%string, VInt 10)].

(** What the BSON encoder accepts: a Python int has to fit in 64 bits,
    otherwise the encoder raises OverflowError. *)
Definition int64 (z : Z) : bool := (- 2 ^ 63 <=? z)%Z && (z <? 2 ^ 63)%Z.

Definition encodable (v : pyval) : bool :=
  match v with
  | VInt z => int64 z
  | _ => true
  end.

(** A BSON datetime counts milliseconds: the encoder drops the
    microseconds below. *)
Definition milliseconds (t : Z) : Z := (t - t `mod` 1000)%Z.

(** A value as the storage keeps it. *)
Definition as_stored (v : pyval) : pyval :=
  match v with
  | VDate t => VDate (milliseconds t)
  | _ => v
  end.

(** [insert_one] gives a document without [_id] a new ObjectId. *)
Definition with_id (oid : Z) (d : doc) : doc :=
  match d !! "_id" with
  | Some _ => d
  | None => <["_id" := VObjectId oid]> d
  end.

(** The document as the collection holds it after the insertion. *)
Definition stored_form (oid : Z) (d : doc) : doc := as_stored <$> with_id oid d.

(** Does [d'] carry the [_id] of [d]?  The [_id] index is unique. *)
Definition same_id (d d' : doc) : bool :=
  match d !! "_id", d' !! "_id" with
  | Some v, Some v' => bson_eqb v' v
  | _, _ => false
  end.

(** [db[name].insert_one(d)], where [oid] is the ObjectId pymongo generates
    for a document without [_id].  The encoder raises OverflowError on an
    int beyond 64 bits; the server refuses an [_id] the collection already
    holds (DuplicateKeyError); the collection is created when it does not
    exist, and the result of a successful call always carries an
    [inserted_id]. *)
Definition insert_one (db : database) (name : string) (oid : Z) (d : doc)
  : result database :=
  if negb (bool_decide (map_Forall (λ _ v, encodable v = true) (with_id oid d)))
  then Raise Error
  else
    match collections db !! name with
    | Some Unavailable => Raise Error
    | Some (Docs ds) =>
        if existsb (same_id (stored_form oid d)) ds then Raise Error
        else
          Ok {| listing_ok := listing_ok db;
                collections :=
                  <[name := Docs (ds ++ [stored_form oid d])]> (collections db) |}
    | None =>
        Ok {| listing_ok := listing_ok db;
              collections := <[name := Docs [stored_form oid d]]> (collections db) |}
    end.

(** [not job_id or not material or not job_type or tool_no < 1] *)
Definition invalid_job (job_id material job_type : string) (tool_no : Z) : bool :=
  String.eqb job_id "" || String.eqb material "" || String.eqb job_type ""
  || (tool_no <? 1)%Z.

(** The body of the [try] block: the answer and the storage afterwards;
    [now] is what [datetime.now()] returned and [oid] the ObjectId
    generated for the new document. *)
Definition start_new_job_body (db : database) (now oid : Z) (id : Z)
    (job_id material job_type : string) (tool_no : Z)
  : result string * database :=
  if invalid_job job_id material job_type tool_no
  then (Raise (HTTPException 400), db)
  else
    match insert_one db (job_col id) oid
            (job_details now id job_id material job_type tool_no) with
    | Ok db' =>
        (Ok ("Job " +:+ job_id +:+ " started on Lathe " +:+ pretty id), db')
    | Raise e => (Raise e, db)
    end.

Definition start_new_job (db : database) (now oid : Z) (id : Z)
    (job_id material job_type : string) (tool_no : Z)
  : result string * database :=
  match start_new_job_body db now oid id job_id material job_type tool_no with
  | (Raise Error, db') => (Raise (HTTPException 500), db')   (* except Exception *)
  | r => r
  end.

(** * Specification-side definitions *)

(** The values of one tracked field that a batch observes, in order:
    readings where the field is missing or not a number are skipped. *)
Definition spec_observed (field : string) (batch : list doc) : list Q :=
  omap (λ d : doc, d !! field ≫= to_float) batch.

(** The sub-score of a field: the normalised mean of what was observed,
    and 0 when nothing was. *)
Definition spec_subscore (field : string) (norm : Q → Q) (batch : list doc) : Q :=
  match spec_observed field batch with
  | [] => 0
  | values => norm (mean values)
  end.

Definition clamp (x : Q) : Q := Qmax 0 (Qmin 100 x).

Definition spec_health_score (batch : list doc) : Q :=
  match batch with
  | [] => 0
  | _ =>
      clamp (100 * ((20 # 100) * spec_subscore "Temperature" (λ m, 1 - (m - 25) / 100) batch
                    + (15 # 100) * spec_subscore "Vibration" (λ m, 1 - m / 10) batch
                    + (25 # 100) * spec_subscore "RPM" (λ m, m / 3000) batch
                    + (20 # 100) * spec_subscore "Power" (λ m, 1 - m / 15) batch
                    + (20 # 100) * spec_subscore "ToolWear" (λ m, 1 - m / 100) batch))
  end.

(** What one reading adds to the list of a field. *)
Definition picked (field : string) (d : doc) : list pyval :=
  match d !! field with
  | Some v => if isinstance_int_float v then [v] else []
  | None => []
  end.

(** The documents a collection holds; nothing when it is missing or
    cannot be read. *)
Definition stored (db : database) (name : string) : list doc :=
  match collections db !! name with
  | Some (Docs ds) => ds
  | _ => []
  end.

(** The storage answers for this collection. *)
Definition available (db : database) (name : string) : Prop :=
  listing_ok db = true ∧ ∃ ds, collections db !! name = Some (Docs ds).

Definition spec_completed (job : doc) : bool :=
  match job !! "Status" with
  | Some (VStr s) => String.eqb s "Completed"
  | _ => false
  end.

Definition spec_has_times (job : doc) : bool :=
  match job !! "StartTime", job !! "EndTime" with
  | Some _, Some _ => true
  | _, _ => false
  end.

(** The Completed jobs of a machine with both StartTime and EndTime. *)
Definition spec_timed_jobs (db : database) (id : Z) : list doc :=
  List.filter (λ job, spec_completed job && spec_has_times job)
              (stored db (job_col id)).

(** Both timestamps are datetimes. *)
Definition dates_ok (job : doc) : Prop :=
  ∃ s e, job !! "StartTime" = Some (VDate s) ∧ job !! "EndTime" = Some (VDate e).

(** EndTime - StartTime, in seconds. *)
Definition spec_duration (job : doc) : Q :=
  match job !! "EndTime", job !! "StartTime" with
  | Some (VDate e), Some (VDate s) => inject_Z (e - s) / 1000000
  | _, _ => 0
  end.

Definition spec_total_duration (db : database) (id : Z) : Q :=
  Qsum (spec_duration <$> spec_timed_jobs db id).

(** total / (total + total * factor) * 100, clamped. *)
Definition spec_uptime (d factor : Q) : Q := clamp (d / (d + d * factor) * 100).

Definition damping_range (factor : Q) : Prop := (5 # 100) <= factor <= (15 # 100).

(** The final tool wear of a job is a number above the threshold. *)
Definition worn_above (threshold : Q) (job : doc) : Prop :=
  ∃ w, job !! "FinalToolWear" ≫= bson_num = Some w ∧ threshold < w.

(** A job that counts as a failure. *)
Definition failed_job (job : doc) : Prop :=
  job !! "Status" = Some (VStr "Completed") ∧ worn_above 90 job.

(** [counts P l n]: exactly [n] documents of [l] satisfy [P]. *)
Inductive counts (P : doc → Prop) : list doc → Z → Prop :=
  | counts_nil : counts P [] 0
  | counts_hit d l n : P d → counts P l n → counts P (d :: l) (n + 1)
  | counts_miss d l n : ¬ P d → counts P l n → counts P (d :: l) n.


(** The completed jobs of a machine. *)
Definition completed_jobs (db : database) (id : Z) : list doc :=
  List.filter spec_completed (stored db (job_col id)).

(** The group a job falls into: its Material, "Unknown" when it has none. *)
Definition group_key (j : doc) : pyval := default (VStr "Unknown") (j !! "Material").

(** How many of the keys equal [k]. *)
Definition occurrences (keys : list pyval) (k : pyval) : Z :=
  Z.of_nat (length (List.filter (λ k', py_eqb k' k) keys)).

(** How many of the jobs fall into group [k]. *)
Definition group_size (jobs : list doc) (k : pyval) : Z :=
  occurrences (group_key <$> jobs) k.

(** Counting a list of keys into a dict that already holds [types]. *)
Definition tally (types : dict Z) (keys : list pyval) : dict Z :=
  foldl (λ types k, dict_set types k (default 0%Z (dict_get types k) + 1)%Z)
        types keys.

(** No two positions hold equal keys. *)
Definition keys_wf (keys : list pyval) : Prop :=
  ∀ (i i' : nat) (a b : pyval),
    keys !! i = Some a → keys !! i' = Some b → py_eqb a b = true → i = i'.

Fixpoint Zsum (l : list Z) : Z :=
  match l with
  | [] => 0
  | x :: l' => x + Zsum l'
  end%Z.

(** The jobs of group [k]. *)
Definition spec_group (jobs : list doc) (k : pyval) : list doc :=
  List.filter (λ j, py_eqb (group_key j) k) jobs.

Definition spec_worn (threshold : Q) (j : doc) : bool :=
  match j !! "FinalToolWear" ≫= bson_num with
  | Some w => negb (Qle_bool w threshold)
  | None => false
  end.

(** (jobs of the group with FinalToolWear > 80) / (jobs of the group) * 100,
    rounded to one decimal; 0 for an empty group. *)
Definition spec_failure_rate (jobs : list doc) (k : pyval) : Q :=
  match spec_group jobs k with
  | [] => 0
  | group =>
      py_round1 (inject_Z (Z.of_nat (length (List.filter (spec_worn 80) group)))
                 / inject_Z (Z.of_nat (length group)) * 100)
  end.

(** The readings that carry the JobID of job [j]. *)
Definition spec_job_readings (readings : list doc) (j : doc) : list doc :=
  match j !! "JobID" with
  | Some job_id => List.filter (λ r : doc, field_eqb (r !! "JobID") job_id) readings
  | None => []
  end.

(** The health scorer applied to the readings of each job of the group
    that has readings, averaged over those jobs. *)
Definition spec_avg_health (jobs readings : list doc) (k : pyval) : Q :=
  mean_or_zero
    (omap (λ j, match spec_job_readings readings j with
                | [] => None
                | rs => Some (calculate_health_score rs)
                end)
          (spec_group jobs k)).

(** The JobID a job carries. *)
Definition job_id_of (j : doc) : pyval := default VNone (j !! "JobID").

(** Every job has a JobID and no two documents share one. *)
Definition unique_job_ids (jobs : list doc) : Prop :=
  (∀ j, j ∈ jobs → is_Some (j !! "JobID"))
  ∧ ∀ d j, d ∈ jobs → j ∈ jobs →
      field_eqb (d !! "JobID") (job_id_of j) = true → d = j.

(** Every job carries a Material. *)
Definition all_labelled (jobs : list doc) : Prop :=
  ∀ j, j ∈ jobs → is_Some (j !! "Material").

(** The timestamp of a reading that carries a datetime. *)
Definition stamp (d : doc) : Z :=
  match d !! "timestamp" with
  | Some (VDate t) => t
  | _ => 0%Z
  end.

Definition dated (d : doc) : Prop := ∃ t, d !! "timestamp" = Some (VDate t).

(** Not later than. *)
Definition not_after (a b : doc) : Prop := (stamp a <= stamp b)%Z.

(** The mean observed for a field, when there is one, lies in [lo, hi]. *)
Definition within_rating (field : string) (lo hi : Q) (batch : list doc) : Prop :=
  spec_observed field batch = [] ∨ lo <= mean (spec_observed field batch) <= hi.

(** Every observed mean lies in the range over which its sub-score runs
    from 0 to 1. *)
Definition rated (batch : list doc) : Prop :=
  within_rating "Temperature" 25 125 batch
  ∧ within_rating "Vibration" 0 10 batch
  ∧ within_rating "RPM" 0 3000 batch
  ∧ within_rating "Power" 0 15 batch
  ∧ within_rating "ToolWear" 0 100 batch.

(** Two readings carry the same numbers in the tracked fields. *)
Definition same_numbers (d d' : doc) : Prop :=
  ∀ field, field ∈ tracked → d !! field ≫= to_float = d' !! field ≫= to_float.

(** What the summary part of a details answer holds. *)
Definition computed_summary (db : database) (factor : Q) (id : Z)
    (readings : list doc) (count : Z) : LatheSummary :=
  {| lathe_id := id; name := "Lathe M" +:+ pretty id;
     health_score := py_round1 (calculate_health_score readings);
     uptime := py_round1 (calculate_uptime db id factor);
     status := get_lathe_status (calculate_health_score readings);
     failure_count := count |}.

(** * Example data *)

Definition reading (fields : list (string * pyval)) : doc := list_to_map fields.

(** A reading at the baseline of every tracked field. *)
Definition ideal_reading : doc :=
  reading [("Temperature"%string, VInt 25); ("Vibration"%string, VFloat 0);
           ("RPM"%string, VInt 3000); ("Power"%string, VFloat 0);
           ("ToolWear"%string, VInt 0)].

(** One completed job that ends ten seconds before it starts. *)
Definition reversed_job : doc :=
  reading [("JobID"%string, VStr "J1"); ("Status"%string, VStr "Completed");
           ("StartTime"%string, VDate 10000000); ("EndTime"%string, VDate 0);
           ("FinalToolWear"%string, VFloat 12)].

Definition reversed_db : database :=
  mkDatabase true {[ job_col 1 := Docs [reversed_job] ]}.

(** One completed job of ten seconds. *)
Definition ten_second_job : doc :=
  reading [("JobID"%string, VStr "J1"); ("Status"%string, VStr "Completed");
           ("StartTime"%string, VDate 0); ("EndTime"%string, VDate 10000000);
           ("FinalToolWear"%string, VFloat 12)].

Definition ten_second_db : database :=
  mkDatabase true {[ job_col 1 := Docs [ten_second_job] ]}.

Definition job_doc (job_id : string) (st : string) (wear : Q) : doc :=
  reading [("JobID"%string, VStr job_id); ("Status"%string, VStr st);
           ("FinalToolWear"%string, VFloat wear)].

(** Two completed jobs (wear 95 and 50), one running job (wear 99), and one
    reading. *)
Definition three_jobs : list doc :=
  [job_doc "J1" "Completed" 95; job_doc "J2" "Completed" 50; job_doc "J3" "Running" 99].

Definition three_jobs_db : database :=
  mkDatabase true
    (<[sensory_col 1 := Docs [ideal_reading]]> {[ job_col 1 := Docs three_jobs ]}).

(** The same jobs on a lathe whose sensor collection is still empty. *)
Definition unread_jobs_db : database :=
  mkDatabase true
    (<[sensory_col 1 := Docs []]> {[ job_col 1 := Docs three_jobs ]}).

(** Lathe 1 right after start-up: both collections exist and are empty. *)
Definition fresh_db : database :=
  mkDatabase true (<[sensory_col 1 := Docs []]> {[ job_col 1 := Docs [] ]}).

Definition labelled_job (job_id : string) (material : string) (wear : Q) : doc :=
  <["Material" := VStr material]> (job_doc job_id "Completed" wear).

(** Three completed jobs of materials A, A and B. *)
Definition aab_jobs : list doc :=
  [labelled_job "J1" "A" 10; labelled_job "J2" "A" 20; labelled_job "J3" "B" 30].

Definition aab_db : database :=
  mkDatabase true {[ job_col 1 := Docs aab_jobs ]}.

(** Two completed jobs with one reading each: J1 carries no Material and
    a final tool wear of 95, J2 is labelled "Unknown" with a wear of 10. *)
Definition unlabelled_jobs : list doc :=
  [job_doc "J1" "Completed" 95; labelled_job "J2" "Unknown" 10].

Definition unlabelled_readings : list doc :=
  [reading [("JobID"%string, VStr "J1"); ("Temperature"%string, VInt 30)];
   reading [("JobID"%string, VStr "J2"); ("Temperature"%string, VInt 40)]].

Definition unlabelled_db : database :=
  mkDatabase true
    (<[sensory_col 1 := Docs unlabelled_readings]>
       {[ job_col 1 := Docs unlabelled_jobs ]}).

(** The jobs A, A, B with one reading for each of the first two. *)
Definition aab_readings : list doc :=
  [reading [("JobID"%string, VStr "J1"); ("Temperature"%string, VInt 30)];
   reading [("JobID"%string, VStr "J2"); ("Temperature"%string, VInt 40)]].

Definition aab_db_with_readings : database :=
  mkDatabase true
    (<[sensory_col 1 := Docs aab_readings]> {[ job_col 1 := Docs aab_jobs ]}).

(** Readings with timestamps of 10, 20 and 30 seconds, stored out of
    order. *)
Definition timed_reading (t : Z) (temperature : pyval) : doc :=
  reading [("_id"%string, VInt t); ("timestamp"%string, VDate t);
           ("Temperature"%string, temperature)].

Definition history_db : database :=
  mkDatabase true
    {[ sensory_col 1 := Docs [timed_reading 30000000 (VInt 70);
                              timed_reading 10000000 (VFloat 50);
                              timed_reading 20000000 (VInt 60)] ]}.

(** Two readings; the later one carries a string as its Temperature. *)
Definition late_malformed_db : database :=
  mkDatabase true
    {[ sensory_col 1 := Docs [timed_reading 10000000 (VInt 70);
                              timed_reading 30000000 (VStr "hot")] ]}.

(** A reading whose health score, 79.96, rounds to 80.0. *)
Definition borderline_reading : doc :=
  reading [("Temperature"%string, VInt 25); ("Vibration"%string, VInt 0);
           ("RPM"%string, VFloat (5952 # 10)); ("Power"%string, VInt 0);
           ("ToolWear"%string, VInt 0)].

Definition borderline_db : database :=
  mkDatabase true
    (<[sensory_col 1 := Docs [borderline_reading]]> {[ job_col 1 := Docs [] ]}).

(** Job J1 stored three times: once as a completed job of material A with
    a final tool wear of 10 and twice as an abandoned attempt with a wear
    of 95; one reading of the job. *)
Definition repeated_job_db : database :=
  mkDatabase true
    (<[sensory_col 1 :=
         Docs [reading [("JobID"%string, VStr "J1"); ("Temperature"%string, VInt 30)]]]>
       {[ job_col 1 := Docs [labelled_job "J1" "A" 10; job_doc "J1" "Abandoned" 95;
                             job_doc "J1" "Abandoned" 95] ]}).

(** * Properties *)

(** ** Clamping *)

Lemma py_min_spec (a b : Q) : py_min a b == Qmin a b.
Proof.
  unfold py_min. destruct (Qle_bool a b) eqn:E.
  - apply Qle_bool_iff in E. symmetry. apply Q.min_l, E.
  - assert (b <= a) by (apply Qlt_le_weak, Qnot_le_lt; intros H;
      apply Qle_bool_iff in H; congruence).
    symmetry. apply Q.min_r. assumption.
Qed.

Lemma py_max_spec (a b : Q) : py_max a b == Qmax a b.
Proof.
  unfold py_max. destruct (Qle_bool b a) eqn:E.
  - apply Qle_bool_iff in E. symmetry. apply Q.max_l, E.
  - assert (a <= b) by (apply Qlt_le_weak, Qnot_le_lt; intros H;
      apply Qle_bool_iff in H; congruence).
    symmetry. apply Q.max_r. assumption.
Qed.

Lemma py_clamp_spec (x : Q) : py_max 0 (py_min 100 x) == clamp x.
Proof.
  unfold clamp. rewrite py_max_spec.
  apply Q.max_compat; [reflexivity | apply py_min_spec].
Qed.

Lemma py_clamp_bounds (x : Q) : 0 <= py_max 0 (py_min 100 x) <= 100.
Proof.
  unfold py_max, py_min.
  destruct (Qle_bool 100 x) eqn:E1; simpl.
  - split; discriminate.
  - destruct (Qle_bool x 0) eqn:E2.
    + split; discriminate.
    + split.
      * apply Qlt_le_weak, Qnot_le_lt. intros H.
        apply Qle_bool_iff in H. congruence.
      * apply Qlt_le_weak, Qnot_le_lt. intros H.
        apply Qle_bool_iff in H. congruence.
Qed.

Lemma clamp_bounds (x : Q) : 0 <= clamp x <= 100.
Proof. rewrite <- py_clamp_spec. apply py_clamp_bounds. Qed.

Lemma clamp_id (x : Q) : 0 <= x <= 100 → clamp x == x.
Proof.
  intros [H0 H100]. unfold clamp.
  rewrite (Q.min_r 100 x) by assumption. apply Q.max_r. assumption.
Qed.

#[export] Instance clamp_proper : Proper (Qeq ==> Qeq) clamp.
Proof.
  intros x y E. unfold clamp. apply Q.max_compat; [reflexivity|].
  apply Q.min_compat; [reflexivity | assumption].
Qed.

(** ** Rounding *)

Lemma round_half_even_close (x : Q) :
  x - (1 # 2) <= inject_Z (round_half_even x) <= x + (1 # 2).
Proof.
  unfold round_half_even.
  pose proof (Qfloor_le x) as Hlo. pose proof (Qlt_floor x) as Hhi.
  rewrite inject_Z_plus in Hhi. change (inject_Z 1) with 1 in Hhi.
  destruct (Qcompare (x - inject_Z (Qfloor x)) (1 # 2)) eqn:E.
  - apply Qeq_alt in E.
    destruct (Z.even (Qfloor x));
      [|rewrite inject_Z_plus; change (inject_Z 1) with 1]; lra.
  - apply Qlt_alt in E. lra.
  - apply Qgt_alt in E. rewrite inject_Z_plus. change (inject_Z 1) with 1. lra.
Qed.

(** [round(x, 1)] is a multiple of 0.1 at most 0.05 away from [x]. *)
Lemma py_round1_close (x : Q) :
  x - (1 # 20) <= py_round1 x <= x + (1 # 20)
  ∧ ∃ n : Z, py_round1 x == inject_Z n / 10.
Proof.
  unfold py_round1. split; [|eexists; reflexivity].
  pose proof (round_half_even_close (x * 10)) as [Hlo Hhi].
  set (r := inject_Z (round_half_even (x * 10))) in *.
  assert (r / 10 == r * (1 # 10)) as -> by (field; discriminate).
  lra.
Qed.

(** ** Status classifier *)

(** C4: the classifier is a total function of the score with three tiers:
    80 and above is Operational, from 60 up to (not including) 80 is
    Warning, below 60 is Failure; 80, 79.9, 60 and 59.9 fall where the
    thresholds put them. *)
Theorem status_tiers :
  (∀ score : Q,
     (80 <= score → get_lathe_status score = "Operational"%string)
     ∧ (60 <= score → score < 80 → get_lathe_status score = "Warning"%string)
     ∧ (score < 60 → get_lathe_status score = "Failure"%string)
     ∧ (get_lathe_status score = "Operational"%string
        ∨ get_lathe_status score = "Warning"%string
        ∨ get_lathe_status score = "Failure"%string))
  ∧ get_lathe_status 80 = "Operational"%string
  ∧ get_lathe_status 79.9 = "Warning"%string
  ∧ get_lathe_status 60 = "Warning"%string
  ∧ get_lathe_status 59.9 = "Failure"%string.
Proof.
  split; [| repeat split; reflexivity].
  intros score. unfold get_lathe_status.
  destruct (Qle_bool 80 score) eqn:E80; destruct (Qle_bool 60 score) eqn:E60;
    repeat split; intros;
    repeat match goal with
      | H : Qle_bool _ _ = true |- _ => apply Qle_bool_iff in H
      | H : Qle_bool ?a ?b = false |- _ =>
          assert (b < a) by (apply Qnot_le_lt; intros Hle;
            apply Qle_bool_iff in Hle; congruence); clear H
      end;
    try reflexivity; try (exfalso; lra); auto.
Qed.

Lemma status_tiers_witness :
  get_lathe_status 95 = "Operational"%string
  ∧ get_lathe_status 70 = "Warning"%string
  ∧ get_lathe_status 10 = "Failure"%string.
Proof.
  destruct status_tiers as [H _].
  split; [| split].
  - apply (H 95). discriminate.
  - apply (H 70); [discriminate | reflexivity].
  - apply (H 10). reflexivity.
Defined.

(** ** Metric extraction *)

Section Extraction.
Implicit Types (d : doc) (ms : gmap string (list pyval)) (f k : string).

Lemma fmap_app_nil (o : option (list pyval)) : (λ l, l ++ []) <$> o = o.
Proof. destruct o; simpl; [rewrite app_nil_r|]; reflexivity. Qed.

Lemma collect_field_lookup d ms k f :
  collect_field d ms k !! f
  = if decide (k = f) then (λ l, l ++ picked f d) <$> ms !! f else ms !! f.
Proof.
  unfold collect_field, picked. case_decide as Hk.
  - subst k. destruct (d !! f) as [v|]; [destruct (isinstance_int_float v)|].
    + rewrite lookup_alter. case_decide; congruence.
    + symmetry. apply fmap_app_nil.
    + symmetry. apply fmap_app_nil.
  - destruct (d !! k) as [v|]; [destruct (isinstance_int_float v)|];
      try reflexivity.
    apply lookup_alter_ne. assumption.
Qed.

Lemma collect_fields_lookup d ks :
  NoDup ks → ∀ ms f,
  foldl (collect_field d) ms ks !! f
  = if decide (f ∈ ks) then (λ l, l ++ picked f d) <$> ms !! f else ms !! f.
Proof.
  induction 1 as [| k ks Hk Hnd IH]; intros ms f; cbn [foldl].
  - rewrite decide_False by apply not_elem_of_nil. reflexivity.
  - rewrite IH, collect_field_lookup.
    destruct (decide (k = f)) as [->|Hne].
    + rewrite decide_False by assumption.
      rewrite decide_True by left. reflexivity.
    + destruct (decide (f ∈ ks)) as [Hin|Hin].
      * rewrite decide_True by (right; assumption). reflexivity.
      * rewrite decide_False; [reflexivity|].
        rewrite elem_of_cons. intros [Heq|Hin']; [congruence | contradiction].
Qed.

Lemma tracked_NoDup : NoDup tracked.
Proof. apply (bool_decide_unpack _). vm_compute. exact I. Qed.

Lemma collect_reading_lookup ms d f :
  f ∈ tracked →
  collect_reading ms d !! f = (λ l, l ++ picked f d) <$> ms !! f.
Proof.
  intros Hf. unfold collect_reading.
  rewrite collect_fields_lookup by apply tracked_NoDup.
  rewrite decide_True by assumption. reflexivity.
Qed.

Lemma foldl_collect_lookup batch : ∀ ms f,
  f ∈ tracked →
  foldl collect_reading ms batch !! f
  = (λ l, l ++ (batch ≫= picked f)) <$> ms !! f.
Proof.
  induction batch as [| d batch IH]; intros ms f Hf; simpl.
  - symmetry. apply fmap_app_nil.
  - rewrite IH, collect_reading_lookup by assumption.
    destruct (ms !! f); simpl; [rewrite <- app_assoc|]; reflexivity.
Qed.

Lemma metrics_init_lookup f : f ∈ tracked → metrics_init !! f = Some [].
Proof.
  unfold tracked. rewrite !elem_of_cons, elem_of_nil.
  intros [->|[->|[->|[->|[->|[]]]]]]; reflexivity.
Qed.

(** After the two loops, the list of a tracked field holds, in order, the
    values of that field that pass the type check. *)
Lemma extract_metrics_lookup batch f :
  f ∈ tracked → extract_metrics batch !! f = Some (batch ≫= picked f).
Proof.
  intros Hf. unfold extract_metrics.
  rewrite foldl_collect_lookup, metrics_init_lookup by assumption.
  reflexivity.
Qed.

Lemma isinstance_to_float (v : pyval) :
  isinstance_int_float v = true ↔ is_Some (to_float v).
Proof.
  destruct v; simpl; split; intros H; try reflexivity; try discriminate;
    try (eexists; reflexivity); destruct H; discriminate.
Qed.

(** numpy never sees anything but numbers. *)
Lemma picked_to_float batch f :
  mapM to_float (batch ≫= picked f) = Some (spec_observed f batch).
Proof.
  apply mapM_Some. unfold spec_observed.
  induction batch as [| d batch IH]; simpl; [constructor|].
  unfold picked at 1. destruct (d !! f) as [v|]; simpl; [|exact IH].
  destruct (isinstance_int_float v) eqn:E.
  - apply isinstance_to_float in E as [q Hq]. rewrite Hq. simpl.
    constructor; assumption.
  - destruct (to_float v) eqn:Hq; [|exact IH].
    assert (is_Some (to_float v)) as Hs by (rewrite Hq; eexists; reflexivity).
    apply isinstance_to_float in Hs. congruence.
Qed.

Lemma score_spec batch f (norm : Q → Q) :
  f ∈ tracked →
  score (extract_metrics batch) f norm = Some (spec_subscore f norm batch).
Proof.
  intros Hf. unfold score, spec_subscore, np_mean.
  rewrite extract_metrics_lookup by assumption. simpl.
  pose proof (picked_to_float batch f) as Hm.
  destruct (batch ≫= picked f) as [| v vs] eqn:Hv.
  - simpl in Hm. injection Hm as <-. reflexivity.
  - rewrite Hm. simpl.
    apply mapM_Some in Hm. inversion Hm; subst. reflexivity.
Qed.
End Extraction.

(** The [try] block of the scorer never raises. *)
Lemma health_score_body_spec (batch : list doc) :
  health_score_body batch
  = Some (py_max 0 (py_min 100
      ((0.2 * spec_subscore "Temperature" (λ m, 1 - (m - 25) / 100) batch
        + 0.15 * spec_subscore "Vibration" (λ m, 1 - m / 10) batch
        + 0.25 * spec_subscore "RPM" (λ m, m / 3000) batch
        + 0.2 * spec_subscore "Power" (λ m, 1 - m / 15) batch
        + 0.2 * spec_subscore "ToolWear" (λ m, 1 - m / 100) batch) * 100))).
Proof.
  unfold health_score_body.
  rewrite !score_spec by (unfold tracked; set_solver).
  reflexivity.
Qed.

Lemma calculate_health_score_spec (batch : list doc) :
  calculate_health_score batch == spec_health_score batch.
Proof.
  destruct batch as [| d batch]; [reflexivity|].
  unfold calculate_health_score, spec_health_score.
  rewrite health_score_body_spec, py_clamp_spec.
  apply clamp_proper. ring.
Qed.

(** ** Health scorer *)

(** C2: the scorer returns 0 on an empty batch; on any other batch it
    returns the weighted sum of the five sub-scores (each the normalised
    mean of the observed values of its field, or 0 when the field has no
    observed value), times 100, clamped to [0,100]; a batch whose field
    means are 25, 0, 3000, 0 and 0 scores exactly 100. *)
Theorem health_score_postcondition :
  calculate_health_score [] = 0
  ∧ (∀ batch : list doc, calculate_health_score batch == spec_health_score batch)
  ∧ (∀ batch : list doc,
       spec_observed "Temperature" batch ≠ [] →
       spec_observed "Vibration" batch ≠ [] →
       spec_observed "RPM" batch ≠ [] →
       spec_observed "Power" batch ≠ [] →
       spec_observed "ToolWear" batch ≠ [] →
       mean (spec_observed "Temperature" batch) == 25 →
       mean (spec_observed "Vibration" batch) == 0 →
       mean (spec_observed "RPM" batch) == 3000 →
       mean (spec_observed "Power" batch) == 0 →
       mean (spec_observed "ToolWear" batch) == 0 →
       calculate_health_score batch == 100).
Proof.
  split; [reflexivity|]. split; [apply calculate_health_score_spec|].
  intros batch NT NV NR NP NW MT MV MR MP MW.
  rewrite calculate_health_score_spec.
  destruct batch as [| d batch]; [contradiction NT; reflexivity|].
  unfold spec_health_score, spec_subscore.
  destruct (spec_observed "Temperature" (d :: batch)); [contradiction|].
  destruct (spec_observed "Vibration" (d :: batch)); [contradiction|].
  destruct (spec_observed "RPM" (d :: batch)); [contradiction|].
  destruct (spec_observed "Power" (d :: batch)); [contradiction|].
  destruct (spec_observed "ToolWear" (d :: batch)); [contradiction|].
  rewrite MT, MV, MR, MP, MW.
  rewrite clamp_id; [reflexivity | split; discriminate].
Qed.

Lemma health_score_postcondition_witness :
  calculate_health_score [ideal_reading] == 100.
Proof.
  destruct health_score_postcondition as (_ & _ & H).
  apply (H [ideal_reading]); try (vm_compute; discriminate);
    vm_compute; reflexivity.
Defined.

(** C10: a boolean stored in a tracked field passes the type check, is
    appended to the list of that field and enters its mean as 1 (True) or
    0 (False); a string in the same place is left out. *)
Theorem boolean_counts_as_number :
  (∀ (batch : list doc) (d : doc) (f : string) (b : bool) (norm : Q → Q),
     f ∈ tracked → d !! f = Some (VBool b) →
     (∃ vs, extract_metrics batch !! f = Some vs
            ∧ extract_metrics (batch ++ [d]) !! f = Some (vs ++ [VBool b]))
     ∧ score (extract_metrics (batch ++ [d])) f norm
       = Some (norm (mean (spec_observed f batch ++ [if b then 1 else 0]))))
  ∧ (∀ (batch : list doc) (d : doc) (f s : string),
       f ∈ tracked → d !! f = Some (VStr s) →
       extract_metrics (batch ++ [d]) !! f = extract_metrics batch !! f)
  ∧ calculate_health_score [reading [("Temperature"%string, VBool true)]] == 24.8
  ∧ calculate_health_score [reading [("Temperature"%string, VStr "hot")]] == 0.
Proof.
  split; [| split; [| split; vm_compute; reflexivity]].
  - intros batch d f b norm Hf Hd. split.
    + exists (batch ≫= picked f).
      rewrite !extract_metrics_lookup by assumption. split; [reflexivity|].
      rewrite bind_app. simpl. unfold picked at 2. rewrite Hd. reflexivity.
    + rewrite score_spec by assumption. unfold spec_subscore, spec_observed.
      rewrite omap_app. simpl. rewrite Hd. simpl.
      destruct (omap _ batch ++ [if b then 1 else 0]) eqn:E; [|reflexivity].
      apply app_eq_nil in E as [_ E]. discriminate.
  - intros batch d f s Hf Hd.
    rewrite !extract_metrics_lookup by assumption.
    rewrite bind_app. simpl. unfold picked at 2. rewrite Hd. simpl.
    rewrite !app_nil_r. reflexivity.
Qed.

Lemma boolean_counts_as_number_witness :
  score (extract_metrics ([ideal_reading] ++ [reading [("RPM"%string, VBool true)]]))
        "RPM" (λ m, m / 3000)
  = Some (mean (spec_observed "RPM" [ideal_reading] ++ [1]) / 3000)
  ∧ extract_metrics ([ideal_reading] ++ [reading [("RPM"%string, VStr "fast")]]) !! "RPM"
    = extract_metrics [ideal_reading] !! "RPM".
Proof.
  destruct boolean_counts_as_number as (Hb & Hs & _).
  split.
  - apply (Hb [ideal_reading] (reading [("RPM"%string, VBool true)]) "RPM"%string
              true (λ m, m / 3000)).
    + vm_compute. repeat constructor.
    + reflexivity.
  - apply (Hs [ideal_reading] (reading [("RPM"%string, VStr "fast")]) "RPM"%string
              "fast"%string).
    + vm_compute. repeat constructor.
    + reflexivity.
Defined.

(** ** Queries *)

Lemma Qle_bool_false (a b : Q) : Qle_bool a b = false ↔ b < a.
Proof.
  split.
  - intros E. apply Qnot_le_lt. intros H. apply Qle_bool_iff in H. congruence.
  - intros H. destruct (Qle_bool a b) eqn:E; [|reflexivity].
    apply Qle_bool_iff in E. lra.
Qed.

Lemma matches_completed (job : doc) :
  matches completed_query job = spec_completed job.
Proof.
  unfold matches, completed_query, spec_completed. simpl.
  rewrite andb_true_r. unfold field_eqb.
  destruct (job !! "Status") as [[]|]; reflexivity.
Qed.

Lemma has_both_times_spec (job : doc) : has_both_times job = spec_has_times job.
Proof.
  unfold has_both_times, spec_has_times.
  destruct (job !! "EndTime"), (job !! "StartTime"); reflexivity.
Qed.

Lemma filter_filter_andb {A} (p q : A → bool) (l : list A) :
  List.filter q (List.filter p l) = List.filter (λ x, p x && q x) l.
Proof.
  induction l as [| x l IH]; [reflexivity|]. simpl.
  destruct (p x); simpl; [destruct (q x)|]; rewrite IH; reflexivity.
Qed.

Lemma filter_ext_eq {A} (p q : A → bool) (l : list A) :
  (∀ x, p x = q x) → List.filter p l = List.filter q l.
Proof. intros H. induction l as [| x l IH]; simpl; [|rewrite H, IH]; reflexivity. Qed.

Lemma mapM_result_ok {A B} (f : A → result B) (g : A → B) (l : list A) :
  Forall (λ x, f x = Ok (g x)) l → mapM f l = Ok (g <$> l).
Proof.
  induction 1 as [| x l Hx _ IH]; [reflexivity|].
  cbn. rewrite Hx. cbn. rewrite IH. reflexivity.
Qed.

Lemma collection_exists_available db name :
  available db name → collection_exists db name = true.
Proof.
  intros [Hl [ds Hds]]. unfold collection_exists. rewrite Hl, Hds. reflexivity.
Qed.

Lemma find_available db name q ds :
  collections db !! name = Some (Docs ds) →
  find db name q = Ok (List.filter (matches q) ds).
Proof. intros H. unfold find. rewrite H. reflexivity. Qed.

(** ** Uptime estimator *)

Lemma job_duration_spec (job : doc) :
  dates_ok job → job_duration job = Ok (spec_duration job).
Proof.
  intros (s & e & Hs & He). unfold job_duration, spec_duration.
  rewrite Hs, He. reflexivity.
Qed.

Lemma uptime_of_positive (d factor : Q) :
  0 < d → 0 <= factor → uptime_of d factor == spec_uptime d factor.
Proof.
  intros Hd Hf. unfold uptime_of, spec_uptime.
  assert (0 <= d * factor) by (apply Qmult_le_0_compat; lra).
  assert (Qle_bool (d + d * factor) 0 = false) as -> by (apply Qle_bool_false; lra).
  simpl. apply py_clamp_spec.
Qed.

Lemma uptime_of_nonpositive (d factor : Q) :
  d <= 0 → 0 <= factor → uptime_of d factor = 100.
Proof.
  intros Hd Hf. unfold uptime_of.
  assert (0 <= (- d) * factor) by (apply Qmult_le_0_compat; lra).
  assert (Qle_bool (d + d * factor) 0 = true) as ->.
  { apply Qle_bool_iff.
    assert (d * factor == - ((- d) * factor)) as -> by ring. lra. }
  reflexivity.
Qed.

Lemma uptime_body_available db id factor :
  available db (job_col id) →
  Forall dates_ok (spec_timed_jobs db id) →
  uptime_body db id factor
  = Ok (match List.filter spec_completed (stored db (job_col id)) with
        | [] => 100
        | _ => uptime_of (spec_total_duration db id) factor
        end).
Proof.
  intros Hav Hdates. unfold uptime_body.
  rewrite collection_exists_available by assumption. simpl.
  destruct Hav as [_ [ds Hds]].
  unfold spec_total_duration, spec_timed_jobs in *. unfold stored in *.
  rewrite (find_available _ _ _ ds) by assumption. rewrite Hds in *. cbn.
  rewrite (filter_ext_eq _ _ ds matches_completed).
  destruct (List.filter spec_completed ds) as [| j js] eqn:E; [reflexivity|].
  rewrite <- E.
  rewrite (filter_ext_eq _ _ _ has_both_times_spec), filter_filter_andb.
  rewrite (mapM_result_ok _ spec_duration).
  - reflexivity.
  - eapply Forall_impl; [exact Hdates|]. intros job. apply job_duration_spec.
Qed.

Lemma timed_jobs_subset db id :
  List.filter spec_completed (stored db (job_col id)) = [] →
  spec_timed_jobs db id = [].
Proof.
  unfold spec_timed_jobs. rewrite <- filter_filter_andb. intros ->. reflexivity.
Qed.

(** Without a timed completed job the estimator answers 100, whatever the
    state of the storage. *)
Lemma uptime_no_timed_jobs db id factor :
  spec_timed_jobs db id = [] → calculate_uptime db id factor = 100.
Proof.
  intros Hnone. unfold calculate_uptime, uptime_body.
  destruct (collection_exists db (job_col id)); [|reflexivity]. simpl.
  unfold spec_timed_jobs, stored in Hnone. unfold find.
  destruct (collections db !! job_col id) as [[| ds]|]; try reflexivity. cbn.
  rewrite (filter_ext_eq _ _ ds matches_completed).
  destruct (List.filter spec_completed ds) as [| j js] eqn:E; [reflexivity|].
  rewrite <- E.
  rewrite (filter_ext_eq _ _ _ has_both_times_spec), filter_filter_andb, Hnone.
  reflexivity.
Qed.

Lemma calculate_uptime_available db id factor :
  available db (job_col id) →
  Forall dates_ok (spec_timed_jobs db id) →
  spec_timed_jobs db id ≠ [] →
  calculate_uptime db id factor = uptime_of (spec_total_duration db id) factor.
Proof.
  intros Hav Hdates Hne. unfold calculate_uptime.
  rewrite uptime_body_available by assumption.
  destruct (List.filter spec_completed (stored db (job_col id))) eqn:E;
    [|reflexivity].
  apply timed_jobs_subset in E. contradiction.
Qed.

Lemma calculate_uptime_bounds db id factor :
  0 <= calculate_uptime db id factor <= 100.
Proof.
  unfold calculate_uptime, uptime_body.
  destruct (collection_exists db (job_col id)); simpl; [|split; discriminate].
  destruct (find db (job_col id) completed_query) as [[| j js]|];
    cbn; try (split; discriminate).
  destruct (mapM job_duration _); cbn; [|split; discriminate].
  apply py_clamp_bounds.
Qed.

Lemma calculate_health_score_bounds (batch : list doc) :
  0 <= calculate_health_score batch <= 100.
Proof.
  destruct batch as [| d batch]; [split; discriminate|].
  unfold calculate_health_score. rewrite health_score_body_spec.
  apply py_clamp_bounds.
Qed.

(** C5: whatever the readings and the job records, the health score and
    the uptime returned lie between 0 and 100. *)
Theorem metrics_within_percent_range :
  (∀ batch : list doc, 0 <= calculate_health_score batch <= 100)
  ∧ (∀ (db : database) (lathe : Z) (factor : Q),
       0 <= calculate_uptime db lathe factor <= 100).
Proof.
  split.
  - apply calculate_health_score_bounds.
  - apply calculate_uptime_bounds.
Qed.

Lemma clamp_100_inv (x : Q) : clamp x == 100 → 100 <= x.
Proof.
  unfold clamp. intros H.
  destruct (Q.min_spec 100 x) as [[Hlt Hm]|[Hle Hm]]; [lra|].
  rewrite Hm in H.
  destruct (Q.max_spec 0 x) as [[_ Hx]|[_ Hx]]; rewrite Hx in H; lra.
Qed.

(** With a negative total the formula stays below 100. *)
Lemma spec_uptime_negative (d factor : Q) :
  d < 0 → 0 < factor → ¬ spec_uptime d factor == 100.
Proof.
  intros Hd Hf H. apply clamp_100_inv in H.
  assert (d / (d + d * factor) * 100 == 100 / (1 + factor)) as E.
  { field. split; [lra|]. intros E0.
    assert (d * (1 + factor) == 0) as E1 by (rewrite <- E0; ring).
    apply Qmult_integral in E1 as [E1|E1]; lra. }
  rewrite E in H.
  assert (100 * (1 + factor) <= 100 / (1 + factor) * (1 + factor)) as H'
    by (apply Qmult_le_compat_r; lra).
  assert (100 / (1 + factor) * (1 + factor) == 100) as E' by (field; lra).
  rewrite E' in H'. lra.
Qed.

(** C3 as stated does not hold: for the completed job that ends ten seconds
    before it starts the total is -10 and the estimator answers 100, which
    d / (d + d * f) * 100 does not reach for any f between 0.05 and 0.15. *)
Lemma uptime_formula_fails_on_reversed_job :
  spec_total_duration reversed_db 1 == -10
  ∧ ¬ ∃ factor : Q,
        damping_range factor
        ∧ calculate_uptime reversed_db 1 factor
          == spec_uptime (spec_total_duration reversed_db 1) factor.
Proof.
  split; [vm_compute; reflexivity|].
  intros (factor & [Hlo Hhi] & H).
  assert (spec_total_duration reversed_db 1 = (-10000000 # 1) / 1000000) as Ed
    by (vm_compute; reflexivity).
  rewrite calculate_uptime_available in H.
  - rewrite Ed in H.
    rewrite uptime_of_nonpositive in H by (try discriminate; lra).
    symmetry in H. revert H. apply spec_uptime_negative; [reflexivity | lra].
  - split; [reflexivity|]. eexists. reflexivity.
  - repeat constructor. exists 10000000%Z, 0%Z. split; reflexivity.
  - vm_compute. discriminate.
Qed.

(** C3 (amended): the estimator returns exactly 100 when the machine has
    no Completed job with both StartTime and EndTime; otherwise, with d the
    sum of EndTime - StartTime over those jobs and f the damping factor
    drawn in [0.05, 0.15], it returns d / (d + d * f) * 100 clamped to
    [0,100] when d is positive, and exactly 100 when d is zero or
    negative. *)
Theorem uptime_postcondition :
  ∀ (db : database) (lathe : Z) (factor : Q),
    (spec_timed_jobs db lathe = [] → calculate_uptime db lathe factor = 100)
    ∧ (available db (job_col lathe) →
       Forall dates_ok (spec_timed_jobs db lathe) →
       spec_timed_jobs db lathe ≠ [] →
       damping_range factor →
       (0 < spec_total_duration db lathe →
        calculate_uptime db lathe factor
        == spec_uptime (spec_total_duration db lathe) factor)
       ∧ (spec_total_duration db lathe <= 0 →
          calculate_uptime db lathe factor = 100)).
Proof.
  intros db lathe factor. split; [apply uptime_no_timed_jobs|].
  intros Hav Hdates Hne [Hlo Hhi].
  rewrite calculate_uptime_available by assumption. split; intros Hd.
  - apply uptime_of_positive; lra.
  - apply uptime_of_nonpositive; lra.
Qed.

Lemma uptime_postcondition_witness :
  calculate_uptime (mkDatabase true ∅) 1 (1 # 10) = 100
  ∧ calculate_uptime ten_second_db 1 (1 # 10)
    == spec_uptime (spec_total_duration ten_second_db 1) (1 # 10)
  ∧ calculate_uptime reversed_db 1 (1 # 10) = 100.
Proof.
  split; [| split].
  - destruct (uptime_postcondition (mkDatabase true ∅) 1 (1 # 10)) as [H _].
    apply H. reflexivity.
  - destruct (uptime_postcondition ten_second_db 1 (1 # 10)) as [_ H].
    apply H.
    + split; [reflexivity|]. eexists. reflexivity.
    + repeat constructor. exists 0%Z, 10000000%Z. split; reflexivity.
    + vm_compute. discriminate.
    + split; discriminate.
    + reflexivity.
  - destruct (uptime_postcondition reversed_db 1 (1 # 10)) as [_ H].
    apply H.
    + split; [reflexivity|]. eexists. reflexivity.
    + repeat constructor. exists 10000000%Z, 0%Z. split; reflexivity.
    + vm_compute. discriminate.
    + split; discriminate.
    + discriminate.
Defined.

(** ** Failure count *)

Lemma spec_completed_iff (j : doc) :
  spec_completed j = true ↔ j !! "Status" = Some (VStr "Completed").
Proof.
  unfold spec_completed. destruct (j !! "Status") as [[]|]; try (split; discriminate).
  rewrite String.eqb_eq. split; congruence.
Qed.

Lemma cond_gt_iff (threshold : Q) (field : option pyval) :
  cond_holds (OpGt threshold) field = true
  ↔ ∃ w, field ≫= bson_num = Some w ∧ threshold < w.
Proof.
  simpl. destruct (field ≫= bson_num) as [x|].
  - rewrite negb_true_iff, Qle_bool_false. split.
    + intros H. exists x. split; [reflexivity | assumption].
    + intros (w & [= ->] & H). assumption.
  - split; [discriminate|]. intros (w & [=] & _).
Qed.

Lemma matches_failure_iff (j : doc) :
  matches failure_query j = true ↔ failed_job j.
Proof.
  unfold failed_job, worn_above. rewrite <- spec_completed_iff, <- matches_completed.
  rewrite <- cond_gt_iff. unfold matches, failure_query, completed_query.
  cbn [forallb fst snd]. rewrite !andb_true_iff. tauto.
Qed.

Lemma counts_filter (P : doc → Prop) (p : doc → bool) (l : list doc) :
  (∀ d, p d = true ↔ P d) →
  counts P l (Z.of_nat (length (List.filter p l))).
Proof.
  intros H. induction l as [| d l IH]; [constructor|]. simpl.
  destruct (p d) eqn:E.
  - simpl length. rewrite Nat2Z.inj_succ, <- Z.add_1_r.
    constructor; [apply H, E | exact IH].
  - apply counts_miss; [|exact IH]. rewrite <- H. congruence.
Qed.

Lemma counts_functional (P : doc → Prop) (l : list doc) (n m : Z) :
  counts P l n → counts P l m → n = m.
Proof.
  intros Hn. revert m. induction Hn; intros m Hm; inversion Hm; subst;
    try reflexivity; try contradiction; auto.
  f_equal. auto.
Qed.

Lemma filter_matches_all (ds : list doc) : List.filter (matches []) ds = ds.
Proof. induction ds as [| d ds IH]; simpl; [|rewrite IH]; reflexivity. Qed.

Lemma insert_desc_cons key (d : doc) (sorted : list doc) :
  ∃ x l, insert_desc key d sorted = x :: l.
Proof.
  destruct sorted as [| d' rest]; simpl; [eauto|].
  destruct (bson_leb _ _); eauto.
Qed.

(** A read of the latest readings of a collection that has some returns
    some. *)
Lemma find_latest_nonempty db name fields key (n : nat) (ds : list doc) :
  collections db !! name = Some (Docs ds) → ds ≠ [] →
  ∃ d rest, find_latest db name [] fields key (S n) = Ok (d :: rest).
Proof.
  intros Hds Hne. unfold find_latest.
  rewrite (find_available _ _ _ ds), filter_matches_all by assumption. cbn.
  destruct ds as [| d ds]; [contradiction|]. simpl.
  destruct (insert_desc_cons key d (sort_desc key ds)) as (x & l & ->).
  simpl. eauto.
Qed.

Lemma find_latest_empty db name fields key (n : nat) :
  stored db name = [] →
  find_latest db name [] fields key n = Ok []
  ∨ find_latest db name [] fields key n = Raise Error.
Proof.
  unfold stored, find_latest, find.
  destruct (collections db !! name) as [[| ds]|]; cbn; auto;
    intros Hds; try subst ds; left; simpl; rewrite take_nil; reflexivity.
Qed.

Lemma count_documents_available db name q ds :
  collections db !! name = Some (Docs ds) →
  count_documents db name q = Ok (Z.of_nat (length (List.filter (matches q) ds))).
Proof. intros H. unfold count_documents. rewrite (find_available _ _ _ ds H). reflexivity. Qed.

Lemma lathe_entry_with_data db factor id (rs js : list doc) :
  listing_ok db = true →
  collections db !! sensory_col id = Some (Docs rs) → rs ≠ [] →
  collections db !! job_col id = Some (Docs js) →
  ∃ entry, lathe_entry db factor id = Ok entry
           ∧ lathe_id entry = id
           ∧ failure_count entry
             = Z.of_nat (length (List.filter (matches failure_query) js)).
Proof.
  intros Hl Hrs Hne Hjs. unfold lathe_entry.
  rewrite !collection_exists_available by (split; eauto). simpl.
  destruct (find_latest_nonempty db (sensory_col id) tracked "timestamp" 999 rs
              Hrs Hne) as (d & rest & ->).
  cbn. rewrite (count_documents_available _ _ _ js Hjs). cbn.
  eexists. split; [reflexivity|]. split; reflexivity.
Qed.

Lemma lathe_details_with_data db factor now id (rs js : list doc) :
  listing_ok db = true →
  collections db !! sensory_col id = Some (Docs rs) → rs ≠ [] →
  collections db !! job_col id = Some (Docs js) →
  ∃ details, get_lathe_details db factor now id = Ok details
             ∧ failure_count (summary details)
               = Z.of_nat (length (List.filter (matches failure_query) js)).
Proof.
  intros Hl Hrs Hne Hjs. unfold get_lathe_details, lathe_details_body.
  rewrite !collection_exists_available by (split; eauto). simpl.
  destruct (find_latest_nonempty db (sensory_col id) details_fields "timestamp"
              999 rs Hrs Hne) as (d & rest & ->).
  cbn. unfold find_one_latest.
  destruct (find_latest_nonempty db (sensory_col id) details_fields "timestamp"
              0 rs Hrs Hne) as (d1 & rest1 & ->).
  cbn. rewrite !(count_documents_available _ _ _ js Hjs). cbn.
  unfold find_latest. rewrite (find_available _ _ _ js Hjs). cbn.
  eexists. split; reflexivity.
Qed.

Lemma lathe_entry_id db factor id entry :
  lathe_entry db factor id = Ok entry → lathe_id entry = id.
Proof.
  unfold lathe_entry.
  destruct (negb _ || negb _); [intros [= <-]; reflexivity|].
  destruct (find_latest _ _ _ _ _ _) as [[| d rest]|]; cbn;
    [intros [= <-]; reflexivity | | discriminate].
  destruct (count_documents _ _ _); cbn; [|discriminate].
  intros [= <-]. reflexivity.
Qed.

Lemma lathe_entry_no_readings db factor id :
  stored db (sensory_col id) = [] →
  lathe_entry db factor id = Ok (placeholder id "Offline")
  ∨ lathe_entry db factor id = Ok (placeholder id "No Data")
  ∨ lathe_entry db factor id = Raise Error.
Proof.
  intros Hnone. unfold lathe_entry.
  destruct (negb _ || negb _); [left; reflexivity|].
  destruct (find_latest_empty db (sensory_col id) tracked "timestamp" 1000 Hnone)
    as [-> | ->]; cbn; auto.
Qed.

(** C6 as stated does not hold: a lathe whose sensor collection holds no
    reading is listed with failure_count 0, whatever its jobs; here one
    completed job has a final tool wear of 95. *)
Lemma failure_count_is_zero_without_readings :
  (∃ entry, get_all_lathes unread_jobs_db (λ _, 1 # 10) 1 = Ok [entry]
            ∧ failure_count entry = 0%Z)
  ∧ counts failed_job (stored unread_jobs_db (job_col 1)) 1
  ∧ ¬ counts failed_job (stored unread_jobs_db (job_col 1)) 0.
Proof.
  assert (counts failed_job (stored unread_jobs_db (job_col 1)) 1) as H1.
  { exact (counts_filter failed_job (matches failure_query)
             (stored unread_jobs_db (job_col 1)) matches_failure_iff). }
  split; [eexists; split; [vm_compute; reflexivity | reflexivity]|].
  split; [exact H1|].
  intros H0. pose proof (counts_functional _ _ _ _ H0 H1). discriminate.
Qed.

(** C6 (amended): for a lathe whose sensor collection is listed and holds
    at least one reading and whose job collection can be read,
    failure_count is the number of jobs whose Status is Completed and
    whose FinalToolWear is a number strictly above 90, in the fleet summary
    and in the machine details; a job with another status does not count
    whatever its wear; for the jobs (Completed, 95), (Completed, 50) and
    (Running, 99), with a reading stored, the count is 1.  For a lathe
    without stored readings the fleet summary reports failure_count 0
    whatever the jobs. *)
Theorem failure_count_counts_worn_completed_jobs :
  (∀ (db : database) (factor : Q) (now lathe : Z) (readings jobs : list doc),
     listing_ok db = true →
     collections db !! sensory_col lathe = Some (Docs readings) →
     readings ≠ [] →
     collections db !! job_col lathe = Some (Docs jobs) →
     (∃ entry, lathe_entry db factor lathe = Ok entry
               ∧ counts failed_job jobs (failure_count entry))
     ∧ (∃ details, get_lathe_details db factor now lathe = Ok details
                   ∧ counts failed_job jobs (failure_count (summary details))))
  ∧ (∀ (j : doc) (jobs : list doc) (n : Z),
       j !! "Status" ≠ Some (VStr "Completed") →
       counts failed_job (j :: jobs) n ↔ counts failed_job jobs n)
  ∧ (∃ entry, get_all_lathes three_jobs_db (λ _, 1 # 10) 1 = Ok [entry]
              ∧ failure_count entry = 1%Z)
  ∧ (∀ (db : database) (rand : Z → Q) (num_lathes : Z)
       (entries : list LatheSummary) (entry : LatheSummary),
       get_all_lathes db rand num_lathes = Ok entries → entry ∈ entries →
       stored db (sensory_col (lathe_id entry)) = [] →
       failure_count entry = 0%Z).
Proof.
  split; [| split; [| split]].
  - intros db factor now lathe readings jobs Hl Hrs Hne Hjs. split.
    + destruct (lathe_entry_with_data db factor lathe readings jobs)
        as (entry & He & _ & Hc); try assumption.
      exists entry. split; [assumption|]. rewrite Hc.
      apply counts_filter, matches_failure_iff.
    + destruct (lathe_details_with_data db factor now lathe readings jobs)
        as (details & Hd & Hc); try assumption.
      exists details. split; [assumption|]. rewrite Hc.
      apply counts_filter, matches_failure_iff.
  - intros j jobs n Hst. split.
    + intros H. inversion H; subst; [|assumption].
      match goal with Hf : failed_job j |- _ => destruct Hf as [Hc _] end.
      contradiction.
    + intros H. apply counts_miss; [|assumption]. intros [Hc _]. contradiction.
  - eexists. split; [vm_compute; reflexivity | reflexivity].
  - intros db rand num_lathes entries entry [= <-].
    intros (id & -> & _)%list_elem_of_fmap.
    destruct (lathe_entry db (rand id) id) as [e|] eqn:E; [|reflexivity].
    rewrite (lathe_entry_id _ _ _ _ E). intros Hnone.
    destruct (lathe_entry_no_readings db (rand id) id Hnone) as [H|[H|H]];
      rewrite H in E; try discriminate; injection E as <-; reflexivity.
Qed.

Lemma failure_count_counts_worn_completed_jobs_witness :
  (∃ entry, lathe_entry three_jobs_db (1 # 10) 1 = Ok entry
            ∧ counts failed_job three_jobs (failure_count entry))
  ∧ (counts failed_job (job_doc "J3" "Running" 99 :: []) 0 ↔ counts failed_job [] 0).
Proof.
  destruct failure_count_counts_worn_completed_jobs as (Hc & Hs & _ & _).
  split.
  - apply (Hc three_jobs_db (1 # 10) 0%Z 1%Z [ideal_reading] three_jobs).
    + reflexivity.
    + reflexivity.
    + discriminate.
    + reflexivity.
  - apply (Hs (job_doc "J3" "Running" 99) [] 0%Z). vm_compute. discriminate.
Defined.

(** ** Absent data *)






(** ** Python equality and dictionaries *)

Lemma py_eqb_refl (a : pyval) : py_eqb a a = true.
Proof.
  destruct a as [| [] | | | | |]; simpl; try reflexivity.
  - apply Qeq_bool_iff. reflexivity.
  - apply Qeq_bool_iff. reflexivity.
  - apply String.eqb_refl.
  - apply Z.eqb_refl.
  - apply Z.eqb_refl.
Qed.

Lemma py_eqb_sym (a b : pyval) : py_eqb a b = py_eqb b a.
Proof.
  assert (∀ x y, Qeq_bool x y = Qeq_bool y x) as HQ.
  { intros x y. destruct (Qeq_bool x y) eqn:E1, (Qeq_bool y x) eqn:E2;
      try reflexivity.
    - apply Qeq_bool_iff in E1. symmetry in E1. apply Qeq_bool_iff in E1. congruence.
    - apply Qeq_bool_iff in E2. symmetry in E2. apply Qeq_bool_iff in E2. congruence. }
  unfold py_eqb.
  destruct (to_float a) eqn:Ea, (to_float b) eqn:Eb; try reflexivity; [apply HQ|].
  destruct a, b; try reflexivity; try discriminate.
  - apply String.eqb_sym.
  - apply Z.eqb_sym.
  - apply Z.eqb_sym.
Qed.

Lemma py_eqb_trans (a b c : pyval) :
  py_eqb a b = true → py_eqb b c = true → py_eqb a c = true.
Proof.
  unfold py_eqb.
  destruct (to_float a) eqn:Ea, (to_float b) eqn:Eb, (to_float c) eqn:Ec;
    try discriminate.
  - rewrite !Qeq_bool_iff. intros -> ->. reflexivity.
  - destruct a, b, c; try discriminate; try (intros; reflexivity).
    + rewrite !String.eqb_eq. congruence.
    + rewrite !Z.eqb_eq. congruence.
    + rewrite !Z.eqb_eq. congruence.
Qed.

Lemma py_eqb_proper_r (a b c : pyval) :
  py_eqb a b = true → py_eqb a c = py_eqb b c.
Proof.
  intros Hab. destruct (py_eqb a c) eqn:Eac, (py_eqb b c) eqn:Ebc; try reflexivity.
  - rewrite py_eqb_sym in Hab. rewrite (py_eqb_trans b a c) in Ebc; congruence.
  - rewrite (py_eqb_trans a b c) in Eac; congruence.
Qed.

Lemma py_eqb_str (a : pyval) (s : string) : py_eqb a (VStr s) = true → a = VStr s.
Proof.
  destruct a as [| [] | | | | |]; unfold py_eqb; simpl; try discriminate.
  rewrite String.eqb_eq. congruence.
Qed.

Section Dict.
Context {V : Type}.
Implicit Types (d : dict V) (k : pyval) (v : V).

Lemma dict_get_proper d k k' :
  py_eqb k k' = true → dict_get d k = dict_get d k'.
Proof.
  intros Hk. induction d as [| [k0 v0] d IH]; [reflexivity|]. simpl.
  rewrite IH. replace (py_eqb k0 k') with (py_eqb k0 k); [reflexivity|].
  rewrite !(py_eqb_sym k0). apply py_eqb_proper_r, Hk.
Qed.

Lemma dict_get_set d k v k' :
  dict_get (dict_set d k v) k' = if py_eqb k k' then Some v else dict_get d k'.
Proof.
  induction d as [| [k0 v0] d IH]; simpl.
  - destruct (py_eqb k k'); reflexivity.
  - destruct (py_eqb k0 k) eqn:E0; simpl.
    + rewrite (py_eqb_proper_r k0 k k' E0).
      destruct (py_eqb k k'); reflexivity.
    + rewrite IH. destruct (py_eqb k0 k') eqn:E1; [|reflexivity].
      destruct (py_eqb k k') eqn:E2; [|reflexivity].
      rewrite (py_eqb_sym k k') in E2.
      rewrite (py_eqb_trans k0 k' k E1 E2) in E0. discriminate.
Qed.

Lemma dict_get_None d k :
  dict_get d k = None ↔ Forall (λ k', py_eqb k' k = false) (dict_keys d).
Proof.
  induction d as [| [k0 v0] d IH]; simpl.
  - split; [constructor | reflexivity].
  - destruct (py_eqb k0 k) eqn:E.
    + split; [discriminate|]. intros H. inversion H; congruence.
    + rewrite IH. split; [constructor; assumption|].
      intros H. inversion H; assumption.
Qed.

Lemma dict_set_keys d k v :
  dict_keys (dict_set d k v)
  = match dict_get d k with
    | Some _ => dict_keys d
    | None => dict_keys d ++ [k]
    end.
Proof.
  induction d as [| [k0 v0] d IH]; [reflexivity|]. simpl.
  destruct (py_eqb k0 k); [reflexivity|]. simpl. rewrite IH.
  destruct (dict_get d k); reflexivity.
Qed.

Lemma keys_wf_snoc (keys : list pyval) k :
  keys_wf keys → Forall (λ k', py_eqb k' k = false) keys → keys_wf (keys ++ [k]).
Proof.
  intros Hwf Hfresh i i' a b Ha Hb Hab.
  rewrite Forall_forall in Hfresh.
  apply lookup_app_Some in Ha as [Ha|[Hi Ha]];
    apply lookup_app_Some in Hb as [Hb|[Hi' Hb]].
  - eapply Hwf; eassumption.
  - apply list_lookup_singleton_Some in Hb as [_ <-].
    apply list_elem_of_lookup_2, Hfresh in Ha. congruence.
  - apply list_lookup_singleton_Some in Ha as [_ <-].
    apply list_elem_of_lookup_2, Hfresh in Hb.
    rewrite py_eqb_sym in Hab. congruence.
  - apply list_lookup_singleton_Some in Ha as [Ha _].
    apply list_lookup_singleton_Some in Hb as [Hb _]. lia.
Qed.

Lemma dict_set_keys_wf d k v :
  keys_wf (dict_keys d) → keys_wf (dict_keys (dict_set d k v)).
Proof.
  intros Hwf. rewrite dict_set_keys.
  destruct (dict_get d k) eqn:E; [assumption|].
  apply keys_wf_snoc; [assumption|]. apply dict_get_None, E.
Qed.

Lemma dict_get_Some d k v :
  dict_get d k = Some v →
  ∃ (i : nat) k0, d !! i = Some (k0, v) ∧ py_eqb k0 k = true.
Proof.
  induction d as [| [k0 v0] d IH]; [discriminate|]. simpl.
  destruct (py_eqb k0 k) eqn:E.
  - intros [= ->]. exists 0%nat, k0. split; [reflexivity | assumption].
  - intros H. destruct (IH H) as (i & k1 & Hi & Hk).
    exists (S i), k1. split; assumption.
Qed.
End Dict.

(** ** Product type distribution *)

Lemma occurrences_cons (k0 : pyval) (keys : list pyval) (k : pyval) :
  occurrences (k0 :: keys) k
  = ((if py_eqb k0 k then 1 else 0) + occurrences keys k)%Z.
Proof.
  unfold occurrences. simpl. destruct (py_eqb k0 k); [|reflexivity].
  simpl length. lia.
Qed.

Lemma occurrences_nonneg (keys : list pyval) (k : pyval) : (0 <= occurrences keys k)%Z.
Proof. unfold occurrences. lia. Qed.

Lemma occurrences_proper (keys : list pyval) (k k' : pyval) :
  py_eqb k k' = true → occurrences keys k = occurrences keys k'.
Proof.
  intros Hk. unfold occurrences. f_equal. f_equal.
  apply filter_ext_eq. intros x. rewrite !(py_eqb_sym x).
  apply py_eqb_proper_r, Hk.
Qed.

Lemma occurrences_member (keys : list pyval) (k : pyval) :
  k ∈ keys → (0 < occurrences keys k)%Z.
Proof.
  induction 1 as [k keys | k k0 keys _ IH]; rewrite occurrences_cons.
  - rewrite py_eqb_refl. pose proof (occurrences_nonneg keys k). lia.
  - destruct (py_eqb k0 k); lia.
Qed.

Lemma count_materials_tally (jobs : list doc) :
  count_materials jobs = tally [] (group_key <$> jobs).
Proof.
  unfold count_materials, tally. generalize (@nil (pyval * Z)) as acc.
  induction jobs as [| j jobs IH]; intros acc; [reflexivity|].
  simpl. apply IH.
Qed.

Lemma tally_keys_wf (keys : list pyval) : ∀ acc : dict Z,
  keys_wf (dict_keys acc) → keys_wf (dict_keys (tally acc keys)).
Proof.
  induction keys as [| k keys IH]; intros acc Hwf; [assumption|].
  simpl. apply IH, dict_set_keys_wf, Hwf.
Qed.

Lemma dict_increment_sum (d : dict Z) (k : pyval) :
  Zsum (snd <$> dict_set d k (default 0 (dict_get d k) + 1)%Z)
  = (Zsum (snd <$> d) + 1)%Z.
Proof.
  induction d as [| [k0 v0] d IH]; [reflexivity|]. simpl.
  destruct (py_eqb k0 k); simpl; [lia|].
  change (list_fmap (pyval * Z)%type Z snd) with (fmap (M:=list) (@snd pyval Z)).
  rewrite IH. lia.
Qed.

Lemma tally_sum (keys : list pyval) : ∀ acc : dict Z,
  Zsum (snd <$> tally acc keys)
  = (Zsum (snd <$> acc) + Z.of_nat (length keys))%Z.
Proof.
  induction keys as [| k keys IH]; intros acc; simpl; [lia|].
  unfold tally in IH. rewrite IH, dict_increment_sum. lia.
Qed.

Lemma tally_get (keys : list pyval) : ∀ (acc : dict Z) (k : pyval),
  dict_get (tally acc keys) k
  = if (occurrences keys k =? 0)%Z then dict_get acc k
    else Some (default 0 (dict_get acc k) + occurrences keys k)%Z.
Proof.
  induction keys as [| k0 keys IH]; intros acc k; [reflexivity|].
  simpl. unfold tally in IH. rewrite IH, dict_get_set, occurrences_cons.
  pose proof (occurrences_nonneg keys k) as Hnn.
  destruct (py_eqb k0 k) eqn:E.
  - rewrite (dict_get_proper acc k0 k E).
    destruct (Z.eqb_spec (occurrences keys k) 0) as [->|Hne];
      destruct (Z.eqb_spec (1 + occurrences keys k) 0); try lia;
      simpl; f_equal; lia.
  - simpl. reflexivity.
Qed.

Lemma project_lookup (fields : list string) (d : doc) (k : string) :
  k ∈ fields → project fields d !! k = d !! k.
Proof.
  intros Hk. unfold project. rewrite map_lookup_filter.
  destruct (d !! k) as [v|]; [|reflexivity]. simpl.
  rewrite option_guard_True; [reflexivity|]. simpl. right. assumption.
Qed.

Lemma group_key_project (fields : list string) (j : doc) :
  "Material"%string ∈ fields → group_key (project fields j) = group_key j.
Proof. intros H. unfold group_key. rewrite project_lookup by assumption. reflexivity. Qed.

(** The jobs the endpoint works on, when it answers. *)
Lemma product_analysis_jobs db id analysis :
  get_lathe_product_analysis db id = Ok analysis →
  product_types analysis = count_materials (project job_fields <$> completed_jobs db id).
Proof.
  unfold get_lathe_product_analysis, product_analysis_body, find_project, find,
    completed_jobs, stored.
  destruct (collection_exists db (job_col id)); [|discriminate]. simpl.
  destruct (collections db !! job_col id) as [[| ds]|]; cbn; try discriminate.
  rewrite (filter_ext_eq _ _ ds matches_completed).
  destruct (project job_fields <$> List.filter spec_completed ds) as [| j js];
    [discriminate|].
  destruct (foldlM _ _ _) as [acc|[]]; cbn; try discriminate.
  intros [= <-]. reflexivity.
Qed.

Lemma product_types_tally db id analysis :
  get_lathe_product_analysis db id = Ok analysis →
  product_types analysis = tally [] (group_key <$> completed_jobs db id).
Proof.
  intros H. rewrite (product_analysis_jobs _ _ _ H), count_materials_tally.
  f_equal. rewrite <- list_fmap_compose. apply list_fmap_ext.
  intros _ j _. simpl. apply group_key_project. unfold job_fields. set_solver.
Qed.

Lemma keys_wf_nil : keys_wf [].
Proof. intros i i' a b Ha. discriminate. Qed.

(** C7: the type distribution partitions the completed jobs: every
    completed job falls into exactly one group, the group of its Material
    (the group "Unknown" for a job without one), whose count is the number
    of completed jobs of that group, and the counts add up to the number
    of completed jobs; materials A, A, B give A: 2, B: 1. *)
Theorem material_groups_partition_completed_jobs :
  (∀ (db : database) (lathe : Z) (analysis : ProductAnalysis),
     get_lathe_product_analysis db lathe = Ok analysis →
     Zsum (snd <$> product_types analysis)
     = Z.of_nat (length (completed_jobs db lathe))
     ∧ ∀ j : doc, j ∈ completed_jobs db lathe →
         ∃ (i : nat) (k : pyval) (n : Z),
           product_types analysis !! i = Some (k, n)
           ∧ py_eqb k (group_key j) = true
           ∧ (j !! "Material" = None → k = VStr "Unknown")
           ∧ n = group_size (completed_jobs db lathe) k
           ∧ ∀ (i' : nat) (k' : pyval) (n' : Z),
               product_types analysis !! i' = Some (k', n') →
               py_eqb k' (group_key j) = true → i' = i)
  ∧ (∃ analysis, get_lathe_product_analysis aab_db 1 = Ok analysis
                 ∧ product_types analysis = [(VStr "A", 2%Z); (VStr "B", 1%Z)]).
Proof.
  split.
  - intros db lathe analysis Hok.
    rewrite (product_types_tally _ _ _ Hok).
    set (jobs := completed_jobs db lathe).
    assert (keys_wf (dict_keys (tally [] (group_key <$> jobs)))) as Hwf
      by apply tally_keys_wf, keys_wf_nil.
    split.
    + rewrite tally_sum, length_fmap. simpl. lia.
    + intros j Hj.
      assert (0 < occurrences (group_key <$> jobs) (group_key j))%Z as Hpos
        by (apply occurrences_member, list_elem_of_fmap; eauto).
      pose proof (tally_get (group_key <$> jobs) [] (group_key j)) as Hget.
      destruct (Z.eqb_spec (occurrences (group_key <$> jobs) (group_key j)) 0)
        as [E|_]; [lia|].
      destruct (dict_get_Some _ _ _ Hget) as (i & k & Hi & Hk).
      exists i, k, (default 0 None + occurrences (group_key <$> jobs) (group_key j))%Z.
      split; [assumption|]. split; [assumption|]. split; [|split].
      * intros Hm. unfold group_key in Hk. rewrite Hm in Hk. simpl in Hk.
        apply py_eqb_str, Hk.
      * simpl. unfold group_size. symmetry. apply occurrences_proper, Hk.
      * intros i' k' n' Hi' Hk'. symmetry.
        apply (Hwf i i' k k').
        -- unfold dict_keys. rewrite list_lookup_fmap, Hi. reflexivity.
        -- unfold dict_keys. rewrite list_lookup_fmap, Hi'. reflexivity.
        -- apply (py_eqb_trans k (group_key j) k'); [assumption|].
           rewrite py_eqb_sym. assumption.
  - eexists. split; [vm_compute; reflexivity | reflexivity].
Qed.

Lemma material_groups_partition_completed_jobs_witness :
  Zsum (snd <$> [(VStr "A", 2%Z); (VStr "B", 1%Z)]) = Z.of_nat (length (completed_jobs aab_db 1)).
Proof.
  destruct material_groups_partition_completed_jobs as [H _].
  destruct (H aab_db 1%Z
              {| product_types := [(VStr "A", 2%Z); (VStr "B", 1%Z)];
                 product_quality := []; params_by_type := [] |}) as [Hsum _].
  - vm_compute. reflexivity.
  - exact Hsum.
Defined.

(** ** Product quality *)

(** C9 at a failing input: with an unlabelled job (wear 95) and a job
    labelled "Unknown" (wear 10) the group "Unknown" counts two jobs, one
    of them worn above 80, so its failure rate is 50; the endpoint reports
    0, because the unlabelled job is left out of the jobs of the group. *)
Theorem failure_rate_leaves_out_unlabelled_jobs :
  ∃ analysis q,
    get_lathe_product_analysis unlabelled_db 1 = Ok analysis
    ∧ product_types analysis = [(VStr "Unknown", 2%Z)]
    ∧ product_quality analysis = [(VStr "Unknown", q)]
    ∧ failure_rate q == 0
    ∧ spec_failure_rate (completed_jobs unlabelled_db 1) (VStr "Unknown") == 50.
Proof.
  eexists. eexists. split; [vm_compute; reflexivity|].
  repeat split; vm_compute; reflexivity.
Qed.

(** C8 at a failing input: for the same jobs the per-job scores are 19
    (J1) and 17 (J2), whose average is 18; the endpoint reports 17, the
    score of the labelled job alone. *)
Theorem avg_health_leaves_out_unlabelled_jobs :
  ∃ analysis q,
    get_lathe_product_analysis unlabelled_db 1 = Ok analysis
    ∧ product_types analysis = [(VStr "Unknown", 2%Z)]
    ∧ product_quality analysis = [(VStr "Unknown", q)]
    ∧ avg_health_score q == 17
    ∧ spec_avg_health (completed_jobs unlabelled_db 1)
        (stored unlabelled_db (sensory_col 1)) (VStr "Unknown") == 18.
Proof.
  eexists. eexists. split; [vm_compute; reflexivity|].
  repeat split; vm_compute; reflexivity.
Qed.

(** ** Product quality of labelled jobs

    Where every completed job carries a Material and JobIDs are unique, the
    quality figures of a group are the ones of the specification. *)

Lemma bind_Ok_inv {A B} (m : result A) (f : A → result B) (r : B) :
  m ≫= f = Ok r → ∃ a, m = Ok a ∧ f a = Ok r.
Proof. destruct m as [a|e]; [eauto | discriminate]. Qed.

Lemma filter_fmap {A B} (f : A → B) (p : B → bool) (l : list A) :
  List.filter p (f <$> l) = f <$> List.filter (λ x, p (f x)) l.
Proof.
  induction l as [| x l IH]; [reflexivity|]. simpl.
  destruct (p (f x)); simpl; [f_equal|]; exact IH.
Qed.

Lemma filter_ext_in {A} (p q : A → bool) (l : list A) :
  (∀ x, x ∈ l → p x = q x) → List.filter p l = List.filter q l.
Proof.
  induction l as [| x l IH]; intros H; [reflexivity|]. simpl.
  rewrite (H x) by left. rewrite IH; [reflexivity|].
  intros y Hy. apply H. right. assumption.
Qed.

Lemma elem_of_List_filter {A} (p : A → bool) (l : list A) (x : A) :
  x ∈ List.filter p l ↔ x ∈ l ∧ p x = true.
Proof. rewrite !list_elem_of_In. apply filter_In. Qed.

Lemma bson_eqb_refl (v : pyval) : bson_eqb v v = true.
Proof.
  destruct v as [| [] | | | | |]; simpl; try reflexivity.
  - apply Qeq_bool_iff. reflexivity.
  - apply Qeq_bool_iff. reflexivity.
  - apply String.eqb_refl.
  - apply Z.eqb_refl.
  - apply Z.eqb_refl.
Qed.

Lemma spec_observed_project (fields : list string) (l : list doc) (f : string) :
  f ∈ fields → spec_observed f (project fields <$> l) = spec_observed f l.
Proof.
  intros Hf. unfold spec_observed.
  induction l as [| d l IH]; [reflexivity|]. simpl.
  rewrite project_lookup by assumption.
  destruct (d !! f ≫= to_float); [f_equal|]; exact IH.
Qed.

(** The scorer reads nothing but the tracked fields. *)
Lemma calculate_health_score_project (l : list doc) :
  calculate_health_score (project tracked <$> l) = calculate_health_score l.
Proof.
  destruct l as [| d l]; [reflexivity|].
  unfold calculate_health_score. simpl fmap.
  rewrite !health_score_body_spec.
  change (project tracked d :: list_fmap doc doc (project tracked) l)
    with (project tracked <$> (d :: l)).
  unfold spec_subscore.
  rewrite !spec_observed_project by (unfold tracked; set_solver).
  reflexivity.
Qed.

Section LabelledGroups.
Variables (db : database) (id : Z) (js rs : list doc).
Hypothesis Hlisting : listing_ok db = true.
Hypothesis Hjobs : collections db !! job_col id = Some (Docs js).
Hypothesis Hreadings : collections db !! sensory_col id = Some (Docs rs).
Hypothesis Hlabelled : all_labelled (List.filter spec_completed js).
Hypothesis Hunique : unique_job_ids js.

Let J : list doc := List.filter spec_completed js.
Let J' : list doc := project job_fields <$> J.

Lemma material_jobs_of_labelled (m : pyval) :
  material_jobs_of J' m = Ok (job_id_of <$> spec_group J m).
Proof.
  unfold material_jobs_of, J'. rewrite filter_fmap.
  rewrite (filter_ext_in _ (λ j, py_eqb (group_key j) m)).
  - fold (spec_group J m). rewrite (mapM_result_ok _ job_id_of).
    + rewrite <- list_fmap_compose. apply f_equal, list_fmap_ext.
      intros _ j _. unfold job_id_of. simpl.
      rewrite project_lookup by (unfold job_fields; set_solver). reflexivity.
    + apply Forall_fmap, Forall_forall. intros j Hj. simpl. unfold job_id_of.
      rewrite !project_lookup by (unfold job_fields; set_solver).
      apply elem_of_List_filter in Hj as [Hj _].
      apply elem_of_List_filter in Hj as [Hj _].
      destruct Hunique as [Hid _]. destruct (Hid j Hj) as [jid Hjid].
      rewrite Hjid. reflexivity.
  - intros j Hj. rewrite project_lookup by (unfold job_fields; set_solver).
    destruct (Hlabelled j Hj) as [v Hv]. unfold group_key. rewrite Hv. reflexivity.
Qed.

(** A stored document carries the JobID of a job of the group exactly when
    it is a completed job of the group. *)
Lemma in_group_ids (m : pyval) (d : doc) :
  d ∈ js →
  existsb (field_eqb (d !! "JobID")) (job_id_of <$> spec_group J m)
  = spec_completed d && py_eqb (group_key d) m.
Proof.
  intros Hd. apply eq_true_iff_eq. rewrite existsb_exists, andb_true_iff. split.
  - intros (jid & Hin & Heq).
    apply list_elem_of_In, list_elem_of_fmap in Hin as (j & -> & Hj).
    apply elem_of_List_filter in Hj as [Hj Hm].
    apply elem_of_List_filter in Hj as [Hj Hc].
    destruct Hunique as [_ Huniq]. rewrite (Huniq d j Hd Hj Heq). auto.
  - intros [Hc Hm]. exists (job_id_of d). split.
    + apply list_elem_of_In, list_elem_of_fmap. exists d. split; [reflexivity|].
      apply elem_of_List_filter. split; [|assumption].
      apply elem_of_List_filter. auto.
    + destruct Hunique as [Hid _]. destruct (Hid d Hd) as [jid Hjid].
      unfold field_eqb, job_id_of. rewrite Hjid. apply bson_eqb_refl.
Qed.

Lemma failed_jobs_of_group (m : pyval) :
  count_documents db (job_col id)
    [("JobID"%string, OpIn (job_id_of <$> spec_group J m));
     ("FinalToolWear"%string, OpGt 80)]
  = Ok (Z.of_nat (length (List.filter (spec_worn 80) (spec_group J m)))).
Proof.
  rewrite (count_documents_available _ _ _ js Hjobs). do 3 f_equal.
  transitivity
    (List.filter (λ d, spec_completed d && py_eqb (group_key d) m && spec_worn 80 d) js).
  - apply filter_ext_in. intros d Hd. unfold matches. cbn [forallb fst snd].
    rewrite andb_true_r. cbn [cond_holds]. rewrite (in_group_ids m d Hd).
    reflexivity.
  - unfold spec_group, J. rewrite !filter_filter_andb.
    apply filter_ext_eq. intros d. symmetry. apply andb_assoc.
Qed.

Lemma failure_rate_of_group (m : pyval) :
  failure_rate_of
    (Z.of_nat (length (List.filter (spec_worn 80) (spec_group J m))))
    (Z.of_nat (length (job_id_of <$> spec_group J m)))
  = spec_failure_rate J m.
Proof.
  unfold failure_rate_of, spec_failure_rate. rewrite length_fmap.
  destruct (spec_group J m) as [| j g]; reflexivity.
Qed.

Lemma job_readings_found (j : doc) :
  j ∈ js →
  find_project db (sensory_col id) [("JobID"%string, OpEq (job_id_of j))] tracked
  = Ok (project tracked <$> spec_job_readings rs j).
Proof.
  intros Hj. unfold find_project. rewrite (find_available _ _ _ rs Hreadings).
  cbn. do 2 f_equal. unfold spec_job_readings, job_id_of.
  destruct Hunique as [Hid _]. destruct (Hid j Hj) as [jid ->]. simpl.
  apply filter_ext_eq. intros r. unfold matches. cbn [forallb fst snd cond_holds].
  apply andb_true_r.
Qed.

Lemma collect_job_score_spec (acc : list Q) (j : doc) :
  j ∈ js →
  collect_job_score db id acc (job_id_of j)
  = Ok (acc ++ match spec_job_readings rs j with
               | [] => []
               | l => [calculate_health_score l]
               end).
Proof.
  intros Hj. unfold collect_job_score.
  rewrite collection_exists_available by (split; eauto).
  rewrite (job_readings_found j Hj).
  destruct (spec_job_readings rs j) as [| r l].
  - simpl. rewrite app_nil_r. reflexivity.
  - rewrite <- (calculate_health_score_project (r :: l)). reflexivity.
Qed.

Lemma job_health_scores_of_group (g : list doc) : ∀ acc : list Q,
  Forall (λ j, j ∈ js) g →
  foldlM (collect_job_score db id) acc (job_id_of <$> g)
  = Ok (acc ++ omap (λ j, match spec_job_readings rs j with
                          | [] => None
                          | l => Some (calculate_health_score l)
                          end) g).
Proof.
  induction g as [| j g IH]; intros acc Hg.
  - simpl. rewrite app_nil_r. reflexivity.
  - inversion Hg as [| ? ? Hj Hg']; subst.
    cbn [fmap list_fmap foldlM omap list_omap].
    rewrite (collect_job_score_spec acc j Hj). cbn [mbind result_bind].
    rewrite (IH _ Hg').
    destruct (spec_job_readings rs j); simpl.
    + rewrite app_nil_r. reflexivity.
    + rewrite <- app_assoc. reflexivity.
Qed.

(** One turn of the loop either leaves the dictionaries alone or stores the
    figures of the specification under the material. *)
Lemma analyse_material_labelled acc (m : pyval) acc' :
  analyse_material db id J' acc m = Ok acc' →
  acc' = acc
  ∨ ∃ params,
      acc' = (dict_set acc.1 m
                {| failure_rate := spec_failure_rate J m;
                   avg_health_score := py_round1 (spec_avg_health J rs m) |},
              dict_set acc.2 m params).
Proof.
  unfold analyse_material. rewrite material_jobs_of_labelled. cbn.
  rewrite collection_exists_available by (split; eauto).
  intros H. apply bind_Ok_inv in H as (sensor_data & _ & H).
  destruct sensor_data as [| r sensor_data]; [left; congruence|]. right.
  rewrite failed_jobs_of_group in H. cbn in H.
  unfold job_health_scores in H. rewrite job_health_scores_of_group in H.
  - cbn in H. rewrite failure_rate_of_group in H.
    repeat (apply bind_Ok_inv in H as (? & _ & H)).
    injection H as <-. eexists. reflexivity.
  - apply Forall_forall. intros j Hj.
    apply elem_of_List_filter in Hj as [Hj _].
    apply elem_of_List_filter in Hj as [Hj _]. assumption.
Qed.
End LabelledGroups.

Lemma foldlM_invariant {A B} (I : B → Prop) (f : B → A → result B) (l : list A) :
  (∀ acc a acc', I acc → f acc a = Ok acc' → I acc') →
  ∀ b r, I b → foldlM f b l = Ok r → I r.
Proof.
  intros Hstep. induction l as [| a l IH]; intros b r Hb; simpl.
  - intros [= <-]. assumption.
  - intros H. apply bind_Ok_inv in H as (b' & Hb' & H).
    eapply IH; [|exact H]. eapply Hstep; eassumption.
Qed.

Lemma dict_set_Forall {V} (P : pyval → V → Prop) (d : dict V) (k : pyval) (v : V) :
  (∀ k0, py_eqb k0 k = true → P k0 v) →
  Forall (λ kv, P kv.1 kv.2) d → Forall (λ kv, P kv.1 kv.2) (dict_set d k v).
Proof.
  intros Hk. induction 1 as [| [k0 v0] d H0 Hd IH]; simpl.
  - constructor; [|constructor]. apply Hk, py_eqb_refl.
  - destruct (py_eqb k0 k) eqn:E; constructor; auto.
Qed.

Lemma spec_group_proper (jobs : list doc) (k k' : pyval) :
  py_eqb k k' = true → spec_group jobs k = spec_group jobs k'.
Proof.
  intros Hk. apply filter_ext_eq. intros j.
  rewrite !(py_eqb_sym (group_key j)). apply py_eqb_proper_r, Hk.
Qed.

Lemma product_analysis_Ok_inv db id analysis :
  get_lathe_product_analysis db id = Ok analysis →
  ∃ acc,
    foldlM (analyse_material db id (project job_fields <$> completed_jobs db id))
           ([], [])
           (dict_keys (count_materials (project job_fields <$> completed_jobs db id)))
    = Ok acc
    ∧ product_quality analysis = acc.1.
Proof.
  unfold get_lathe_product_analysis, product_analysis_body, find_project, find,
    completed_jobs, stored.
  destruct (collection_exists db (job_col id)); [|discriminate]. simpl.
  destruct (collections db !! job_col id) as [[| ds]|]; cbn; try discriminate.
  rewrite (filter_ext_eq _ _ ds matches_completed).
  destruct (project job_fields <$> List.filter spec_completed ds) as [| j js];
    [discriminate|].
  destruct (foldlM _ _ _) as [acc|[]]; cbn; try discriminate.
  intros [= <-]. exists acc. split; reflexivity.
Qed.

(** Where every completed job carries a Material and no two stored jobs
    share a JobID, each quality entry reports the failure rate and the
    average health score of the specification for its group. *)
Theorem product_quality_of_labelled_jobs
    (db : database) (lathe : Z) (jobs readings : list doc)
    (analysis : ProductAnalysis) :
  listing_ok db = true →
  collections db !! job_col lathe = Some (Docs jobs) →
  collections db !! sensory_col lathe = Some (Docs readings) →
  all_labelled (completed_jobs db lathe) →
  unique_job_ids jobs →
  get_lathe_product_analysis db lathe = Ok analysis →
  ∀ (k : pyval) (q : quality),
    (k, q) ∈ product_quality analysis →
    failure_rate q = spec_failure_rate (completed_jobs db lathe) k
    ∧ avg_health_score q
      = py_round1 (spec_avg_health (completed_jobs db lathe) readings k).
Proof.
  intros Hl Hjobs Hreadings Hlab Huniq Hok k q Hin.
  destruct (product_analysis_Ok_inv _ _ _ Hok) as (acc & Hfold & Hq).
  rewrite Hq in Hin. clear Hq Hok.
  assert (completed_jobs db lathe = List.filter spec_completed jobs) as EJ
    by (unfold completed_jobs, stored; rewrite Hjobs; reflexivity).
  rewrite EJ in *.
  set (J := List.filter spec_completed jobs) in *.
  set (I := λ acc : dict quality * dict (list (string * Q)),
         Forall (λ kv, failure_rate kv.2 = spec_failure_rate J kv.1
                       ∧ avg_health_score kv.2
                         = py_round1 (spec_avg_health J readings kv.1)) acc.1).
  assert (I acc) as Hacc.
  { eapply (foldlM_invariant I); [| |exact Hfold]; [|constructor].
    intros a m a' Ha Hstep.
    destruct (analyse_material_labelled db lathe jobs readings Hl Hjobs Hreadings
                Hlab Huniq a m a' Hstep) as [-> | [params ->]]; [assumption|].
    unfold I. simpl.
    apply (dict_set_Forall
             (λ k q, failure_rate q = spec_failure_rate J k
                     ∧ avg_health_score q
                       = py_round1 (spec_avg_health J readings k)));
      [|exact Ha].
    intros k0 Hk0. simpl. unfold spec_failure_rate, spec_avg_health.
    rewrite (spec_group_proper J k0 m Hk0). split; reflexivity. }
  unfold I in Hacc. rewrite Forall_forall in Hacc.
  apply (Hacc (k, q) Hin).
Qed.

(** The hypotheses hold for the jobs A, A, B. *)
Example product_quality_of_aab_jobs :
  ∃ analysis,
    get_lathe_product_analysis aab_db_with_readings 1 = Ok analysis
    ∧ ∀ k q, (k, q) ∈ product_quality analysis →
        failure_rate q = spec_failure_rate (completed_jobs aab_db_with_readings 1) k.
Proof.
  eexists. split; [vm_compute; reflexivity|].
  intros k q Hin.
  eapply (product_quality_of_labelled_jobs aab_db_with_readings 1 aab_jobs
            aab_readings); try reflexivity; try exact Hin.
  - intros j Hj. apply elem_of_List_filter in Hj as [Hj _].
    unfold stored in Hj. simpl in Hj.
    repeat (apply elem_of_cons in Hj as [->|Hj]; [eexists; reflexivity|]).
    apply elem_of_nil in Hj. contradiction.
  - split.
    + intros j Hj.
      repeat (apply elem_of_cons in Hj as [->|Hj]; [eexists; reflexivity|]).
      apply elem_of_nil in Hj. contradiction.
    + intros d j Hd Hj.
      repeat (apply elem_of_cons in Hd as [->|Hd]);
        try (apply elem_of_nil in Hd; contradiction);
        repeat (apply elem_of_cons in Hj as [->|Hj]);
        try (apply elem_of_nil in Hj; contradiction);
        vm_compute; intros E; try reflexivity; discriminate.
Qed.

(** * Further properties *)

(** Membership of a literal in a literal list, by evaluation. *)
Ltac decide_in := apply (bool_decide_unpack _); vm_compute; exact I.

(** ** Collection names *)

Lemma string_app_assoc (a b c : string) : (a +:+ b) +:+ c = a +:+ (b +:+ c).
Proof.
  induction a as [| x a IH]; [reflexivity|].
  change (String x ((a +:+ b) +:+ c) = String x (a +:+ (b +:+ c))).
  f_equal. exact IH.
Qed.

Lemma app_last_differs (c1 c2 : Ascii.ascii) (x : string) :
  c1 ≠ c2 → ∀ y : string, x +:+ String c1 "" ≠ y +:+ String c2 "".
Proof.
  intros Hc. induction x as [| a x IH]; intros [| b y] E.
  - injection E. congruence.
  - change (String c1 "" = String b (y +:+ String c2 "")) in E.
    injection E as _ E. destruct y; discriminate.
  - change (String a (x +:+ String c1 "") = String c2 "") in E.
    injection E as _ E. destruct x; discriminate.
  - change (String a (x +:+ String c1 "") = String b (y +:+ String c2 "")) in E.
    injection E as _ E. exact (IH y E).
Qed.

(** No sensor collection shares its name with a job collection. *)
Lemma sensory_col_not_job_col (a b : Z) : sensory_col a ≠ job_col b.
Proof.
  unfold sensory_col, job_col.
  assert ("Lathe" +:+ pretty a +:+ ".SensoryData"
          = ("Lathe" +:+ pretty a +:+ ".SensoryDat") +:+ "a") as ->.
  { rewrite (string_app_assoc "Lathe"), (string_app_assoc (pretty a)). reflexivity. }
  assert ("Lathe" +:+ pretty b +:+ ".JobDetails"
          = ("Lathe" +:+ pretty b +:+ ".JobDetail") +:+ "s") as ->.
  { rewrite (string_app_assoc "Lathe"), (string_app_assoc (pretty b)). reflexivity. }
  apply app_last_differs. discriminate.
Qed.

(** ** Inserting a document *)

Lemma bson_eqb_object_id (v : pyval) (oid : Z) :
  bson_eqb v (VObjectId oid) = true → v = VObjectId oid.
Proof.
  destruct v as [| [] | | | | |]; simpl; try discriminate.
  rewrite Z.eqb_eq. congruence.
Qed.

Lemma insert_one_spec db name (oid : Z) (d : doc) :
  map_Forall (λ _ v, encodable v = true) (with_id oid d) →
  collections db !! name ≠ Some Unavailable →
  Forall (λ d', same_id (stored_form oid d) d' = false) (stored db name) →
  ∃ db', insert_one db name oid d = Ok db'
         ∧ listing_ok db' = listing_ok db
         ∧ collections db'
           = <[name := Docs (stored db name ++ [stored_form oid d])]> (collections db).
Proof.
  intros Henc Hav Hfresh. unfold insert_one, stored in *.
  rewrite bool_decide_eq_true_2 by exact Henc. cbn [negb].
  destruct (collections db !! name) as [[| ds]|]; [contradiction | |].
  - assert (existsb (same_id (stored_form oid d)) ds = false) as ->.
    { apply not_true_is_false. intros (d' & Hd' & Hsame)%existsb_exists.
      rewrite Forall_forall in Hfresh. apply list_elem_of_In in Hd'.
      rewrite (Hfresh d' Hd') in Hsame. discriminate. }
    eexists; repeat split; reflexivity.
  - eexists; repeat split; reflexivity.
Qed.

Lemma insert_one_inv db name (oid : Z) (d : doc) db' :
  insert_one db name oid d = Ok db' →
  listing_ok db' = listing_ok db
  ∧ collections db'
    = <[name := Docs (stored db name ++ [stored_form oid d])]> (collections db)
  ∧ collections db !! name ≠ Some Unavailable.
Proof.
  unfold insert_one, stored.
  destruct (negb _); [discriminate|].
  destruct (collections db !! name) as [[| ds]|]; [discriminate | |].
  - destruct (existsb _ ds); [discriminate|].
    intros [= <-]; repeat split; discriminate.
  - intros [= <-]; repeat split; discriminate.
Qed.

Lemma insert_one_raises db name (oid : Z) (d : doc) e :
  insert_one db name oid d = Raise e → e = Error.
Proof.
  unfold insert_one. destruct (negb _); [intros [= <-]; reflexivity|].
  destruct (collections db !! name) as [[| ds]|];
    [intros [= <-]; reflexivity | | discriminate].
  destruct (existsb _ ds); [intros [= <-]; reflexivity | discriminate].
Qed.

(** A document with an int beyond 64 bits cannot be written. *)
Lemma insert_one_overflow db name (oid : Z) (d : doc) (k : string) (z : Z) :
  with_id oid d !! k = Some (VInt z) → int64 z = false →
  insert_one db name oid d = Raise Error.
Proof.
  intros Hk Hz. unfold insert_one.
  rewrite bool_decide_eq_false_2; [reflexivity|].
  intros Hall. specialize (Hall k (VInt z) Hk). simpl in Hall. congruence.
Qed.

Lemma stored_after_insert db name (oid : Z) (d : doc) db' name' :
  insert_one db name oid d = Ok db' →
  stored db' name'
  = if decide (name = name') then stored db name ++ [stored_form oid d]
    else stored db name'.
Proof.
  intros (_ & Hc & _)%insert_one_inv. unfold stored at 1.
  rewrite Hc, lookup_insert. destruct (decide (name = name')); reflexivity.
Qed.

(** A query that rejects the new document answers as before. *)
Lemma find_after_insert db name (oid : Z) (d : doc) db' (q : query) name' :
  insert_one db name oid d = Ok db' → matches q (stored_form oid d) = false →
  find db' name' q = find db name' q.
Proof.
  intros (_ & Hc & Hav)%insert_one_inv Hq. unfold find.
  rewrite Hc, lookup_insert. destruct (decide (name = name')) as [<-|]; [|reflexivity].
  unfold stored. destruct (collections db !! name) as [[| ds]|];
    [contradiction | |].
  - rewrite List.filter_app. simpl. rewrite Hq, app_nil_r. reflexivity.
  - simpl. rewrite Hq. reflexivity.
Qed.

Lemma find_elsewhere_after_insert db name (oid : Z) (d : doc) db' (q : query) name' :
  insert_one db name oid d = Ok db' → name ≠ name' →
  find db' name' q = find db name' q.
Proof.
  intros (_ & Hc & _)%insert_one_inv Hne. unfold find.
  rewrite Hc, lookup_insert_ne by assumption. reflexivity.
Qed.

Lemma collection_exists_elsewhere db name (oid : Z) (d : doc) db' name' :
  insert_one db name oid d = Ok db' → name ≠ name' →
  collection_exists db' name' = collection_exists db name'.
Proof.
  intros (Hl & Hc & _)%insert_one_inv Hne. unfold collection_exists.
  rewrite Hl, Hc, lookup_insert_ne by assumption. reflexivity.
Qed.

(** The collection written to exists afterwards; if it did not before, it
    held nothing. *)
Lemma collection_exists_after_insert db name (oid : Z) (d : doc) db' :
  insert_one db name oid d = Ok db' →
  collection_exists db' name = collection_exists db name
  ∨ (collection_exists db name = false ∧ collection_exists db' name = true
     ∧ ∀ q, find db name q = Ok []).
Proof.
  intros (Hl & Hc & Hav)%insert_one_inv. unfold collection_exists, find.
  rewrite Hl, Hc, lookup_insert_eq.
  destruct (listing_ok db); [|left; reflexivity].
  destruct (collections db !! name) as [[| ds]|];
    [contradiction | left; reflexivity | right; repeat split; reflexivity].
Qed.

(** ** Starting a job *)

Lemma invalid_job_false (job_id material job_type : string) (tool_no : Z) :
  invalid_job job_id material job_type tool_no = false
  ↔ job_id ≠ ""%string ∧ material ≠ ""%string ∧ job_type ≠ ""%string
    ∧ (1 <= tool_no)%Z.
Proof.
  unfold invalid_job. rewrite !orb_false_iff, !String.eqb_neq, Z.ltb_ge. tauto.
Qed.

Lemma invalid_job_true (job_id material job_type : string) (tool_no : Z) :
  invalid_job job_id material job_type tool_no = true
  ↔ job_id = ""%string ∨ material = ""%string ∨ job_type = ""%string
    ∨ (tool_no < 1)%Z.
Proof.
  unfold invalid_job. rewrite !orb_true_iff, !String.eqb_eq, Z.ltb_lt. tauto.
Qed.

Lemma int64_true (z : Z) : int64 z = true ↔ (- 2 ^ 63 <= z < 2 ^ 63)%Z.
Proof. unfold int64. rewrite andb_true_iff, Z.leb_le, Z.ltb_lt. reflexivity. Qed.

Lemma start_new_job_Ok db now oid id job_id material job_type tool_no msg db' :
  start_new_job db now oid id job_id material job_type tool_no = (Ok msg, db') →
  invalid_job job_id material job_type tool_no = false
  ∧ insert_one db (job_col id) oid
      (job_details now id job_id material job_type tool_no) = Ok db'.
Proof.
  unfold start_new_job, start_new_job_body.
  destruct (invalid_job _ _ _ _); [discriminate|].
  destruct (insert_one _ _ _ _) as [db''|[c|]]; try discriminate.
  intros [= _ <-]. split; reflexivity.
Qed.

Section RunningJob.
Variables (now oid id : Z) (job_id material job_type : string) (tool_no : Z).
Let d : doc := job_details now id job_id material job_type tool_no.

(** The new job as the collection holds it: with its ObjectId, and with
    the start time cut to the millisecond. *)
Lemma stored_job :
  stored_form oid d
  = <["_id" := VObjectId oid]>
      (job_details (milliseconds now) id job_id material job_type tool_no).
Proof. reflexivity. Qed.

Lemma job_encodable :
  int64 id = true → int64 tool_no = true →
  map_Forall (λ _ v, encodable v = true) (with_id oid d).
Proof.
  intros Hid Htool k v Hkv.
  change (with_id oid d)
    with (list_to_map (M := doc)
            [("_id"%string, VObjectId oid);
             ("JobID"%string, VStr job_id); ("LatheID"%string, VInt id);
             ("Material"%string, VStr material); ("JobType"%string, VStr job_type);
             ("ToolNo"%string, VInt tool_no); ("StartTime"%string, VDate now);
             ("Status"%string, VStr "Running"); ("FinalToolWear"%string, VInt 0);
             ("DailyJobTarget"%string, VInt 10)]) in Hkv.
  apply elem_of_list_to_map_2 in Hkv.
  repeat (apply elem_of_cons in Hkv as [[= -> ->] | Hkv];
          [(exact Hid || exact Htool || reflexivity)|]).
  apply elem_of_nil in Hkv. contradiction.
Qed.

Lemma job_fresh (ds : list doc) :
  Forall (λ d' : doc, d' !! "_id" ≠ Some (VObjectId oid)) ds →
  Forall (λ d', same_id (stored_form oid d) d' = false) ds.
Proof.
  intros H. eapply Forall_impl; [exact H|]. clear H. intros d' Hd'. simpl in Hd'.
  unfold same_id.
  change (stored_form oid d !! "_id") with (Some (VObjectId oid)).
  destruct (d' !! "_id") as [v|] eqn:Ev; [|reflexivity].
  apply not_true_is_false. intros E%bson_eqb_object_id. congruence.
Qed.

Lemma running_job_not_completed : matches completed_query (stored_form oid d) = false.
Proof. reflexivity. Qed.

Lemma running_job_not_failed : matches failure_query (stored_form oid d) = false.
Proof. reflexivity. Qed.

Lemma running_job_not_worn (ids : list pyval) :
  matches [("JobID"%string, OpIn ids); ("FinalToolWear"%string, OpGt 80)]
    (stored_form oid d) = false.
Proof.
  unfold matches. cbn [forallb fst snd].
  replace (cond_holds (OpGt 80) (stored_form oid d !! "FinalToolWear"))
    with false by reflexivity.
  apply andb_false_r.
Qed.

Variables (db db' : database).
Hypothesis Hinsert : insert_one db (job_col id) oid d = Ok db'.

Lemma uptime_after_start (lathe : Z) (factor : Q) :
  calculate_uptime db' lathe factor = calculate_uptime db lathe factor.
Proof.
  unfold calculate_uptime, uptime_body.
  rewrite (find_after_insert _ _ _ _ _ _ _ Hinsert running_job_not_completed).
  destruct (decide (job_col id = job_col lathe)) as [<-|Hne].
  - destruct (collection_exists_after_insert _ _ _ _ _ Hinsert)
      as [-> | (-> & -> & Hempty)]; [reflexivity|].
    rewrite Hempty. reflexivity.
  - rewrite (collection_exists_elsewhere _ _ _ _ _ _ Hinsert Hne). reflexivity.
Qed.

Lemma sensory_after_start (lathe : Z) (q : query) (fields : list string) :
  collection_exists db' (sensory_col lathe) = collection_exists db (sensory_col lathe)
  ∧ find db' (sensory_col lathe) q = find db (sensory_col lathe) q.
Proof.
  assert (job_col id ≠ sensory_col lathe) as Hne
    by (intros E; symmetry in E; exact (sensory_col_not_job_col _ _ E)).
  split.
  - apply (collection_exists_elsewhere _ _ _ _ _ _ Hinsert Hne).
  - apply (find_elsewhere_after_insert _ _ _ _ _ _ _ Hinsert Hne).
Qed.

Lemma collect_job_score_after_start (lathe : Z) (scores : list Q) (jid : pyval) :
  collect_job_score db' lathe scores jid = collect_job_score db lathe scores jid.
Proof.
  unfold collect_job_score, find_project.
  destruct (sensory_after_start lathe [("JobID"%string, OpEq jid)] tracked)
    as [-> ->].
  reflexivity.
Qed.

Lemma foldlM_ext {A B} (f g : B → A → result B) (l : list A) :
  (∀ b a, f b a = g b a) → ∀ b, foldlM f b l = foldlM g b l.
Proof.
  intros H. induction l as [| a l IH]; intros b; simpl; [reflexivity|].
  rewrite H. destruct (g b a); simpl; [apply IH | reflexivity].
Qed.

Lemma analyse_material_after_start (lathe : Z) (jobs : list doc) acc (m : pyval) :
  analyse_material db' lathe jobs acc m = analyse_material db lathe jobs acc m.
Proof.
  unfold analyse_material, job_health_scores, find_project, count_documents.
  destruct (material_jobs_of jobs m) as [ids|e]; [|reflexivity]. cbn.
  destruct (sensory_after_start lathe [("JobID"%string, OpIn ids)] tracked)
    as [-> ->].
  rewrite (find_after_insert _ _ _ _ _ _ _ Hinsert (running_job_not_worn ids)).
  rewrite (foldlM_ext _ _ ids (collect_job_score_after_start lathe)).
  reflexivity.
Qed.

Lemma product_analysis_after_start (lathe : Z) :
  get_lathe_product_analysis db' lathe = get_lathe_product_analysis db lathe.
Proof.
  unfold get_lathe_product_analysis. f_equal.
  unfold product_analysis_body, find_project.
  rewrite (find_after_insert _ _ _ _ _ _ _ Hinsert running_job_not_completed).
  assert (∀ jobs acc keys,
            foldlM (analyse_material db' lathe jobs) acc keys
            = foldlM (analyse_material db lathe jobs) acc keys) as Hfold
    by (intros; apply foldlM_ext, analyse_material_after_start).
  destruct (decide (job_col id = job_col lathe)) as [<-|Hne].
  - destruct (collection_exists_after_insert _ _ _ _ _ Hinsert)
      as [-> | (-> & -> & Hempty)].
    + destruct (collection_exists db (job_col id)); [|reflexivity]. simpl.
      destruct (find db (job_col id) completed_query) as [jobs|e]; [|reflexivity].
      cbn. destruct (_ <$> jobs); [reflexivity|]. rewrite Hfold. reflexivity.
    + rewrite Hempty. reflexivity.
  - rewrite (collection_exists_elsewhere _ _ _ _ _ _ Hinsert Hne).
    destruct (collection_exists db (job_col lathe)); [|reflexivity]. simpl.
    destruct (find db (job_col lathe) completed_query) as [jobs|e]; [|reflexivity].
    cbn. destruct (_ <$> jobs); [reflexivity|]. rewrite Hfold. reflexivity.
Qed.

Lemma lathe_entry_after_start (lathe : Z) (factor : Q) :
  collection_exists db (job_col id) = true →
  lathe_entry db' factor lathe = lathe_entry db factor lathe.
Proof.
  intros Hex. unfold lathe_entry, find_latest, count_documents.
  destruct (sensory_after_start lathe [] tracked) as [-> ->].
  rewrite (find_after_insert _ _ _ _ _ _ _ Hinsert running_job_not_failed).
  rewrite uptime_after_start.
  assert (collection_exists db' (job_col lathe) = collection_exists db (job_col lathe))
    as ->; [|reflexivity].
  destruct (decide (job_col id = job_col lathe)) as [<-|Hne].
  - destruct (collection_exists_after_insert _ _ _ _ _ Hinsert)
      as [-> | (Hno & _)]; [reflexivity | congruence].
  - apply (collection_exists_elsewhere _ _ _ _ _ _ Hinsert Hne).
Qed.
End RunningJob.

(** X1: [start_new_job] answers 400 exactly when the job id, the material
    or the job type is empty or the tool number is below 1; any other
    failure is a 500; and a call that fails leaves the storage as it was. *)
Theorem start_new_job_validates
    (db : database) (now oid id : Z) (job_id material job_type : string)
    (tool_no : Z) :
  (fst (start_new_job db now oid id job_id material job_type tool_no)
   = Raise (HTTPException 400)
   ↔ job_id = ""%string ∨ material = ""%string ∨ job_type = ""%string
     ∨ (tool_no < 1)%Z)
  ∧ ∀ e, fst (start_new_job db now oid id job_id material job_type tool_no) = Raise e →
      (e = HTTPException 400 ∨ e = HTTPException 500)
      ∧ snd (start_new_job db now oid id job_id material job_type tool_no) = db.
Proof.
  rewrite <- invalid_job_true. unfold start_new_job, start_new_job_body.
  destruct (invalid_job job_id material job_type tool_no); simpl.
  - split; [tauto|]. intros e [= <-]. auto.
  - destruct (insert_one _ _ _ _) as [db'|e'] eqn:E; simpl.
    + split; [split; discriminate | discriminate].
    + apply insert_one_raises in E as ->. simpl.
      split; [split; discriminate|]. intros e [= <-]. auto.
Qed.

Lemma start_new_job_validates_witness :
  fst (start_new_job fresh_db 0 1 1 "J7" "" "Turning" 3) = Raise (HTTPException 400)
  ∧ snd (start_new_job fresh_db 0 1 1 "J7" "" "Turning" 3) = fresh_db.
Proof.
  destruct (start_new_job_validates fresh_db 0 1 1 "J7" "" "Turning" 3)
    as [[_ H400] Hfail].
  assert (fst (start_new_job fresh_db 0 1 1 "J7" "" "Turning" 3)
          = Raise (HTTPException 400)) as E
    by (apply H400; right; left; reflexivity).
  split; [exact E | apply (Hfail _ E)].
Defined.

Lemma start_new_job_run
    (db : database) (now oid id : Z) (job_id material job_type : string)
    (tool_no : Z) :
  invalid_job job_id material job_type tool_no = false →
  int64 id = true → int64 tool_no = true →
  collections db !! job_col id ≠ Some Unavailable →
  Forall (λ d : doc, d !! "_id" ≠ Some (VObjectId oid)) (stored db (job_col id)) →
  ∃ db',
    start_new_job db now oid id job_id material job_type tool_no
    = (Ok ("Job " +:+ job_id +:+ " started on Lathe " +:+ pretty id), db')
    ∧ insert_one db (job_col id) oid
        (job_details now id job_id material job_type tool_no) = Ok db'.
Proof.
  intros Hvalid Hid Htool Hav Hfresh.
  destruct (insert_one_spec db (job_col id) oid
              (job_details now id job_id material job_type tool_no))
    as (db' & Hins & _);
    [apply job_encodable; assumption | exact Hav | apply job_fresh, Hfresh |].
  exists db'. unfold start_new_job, start_new_job_body.
  rewrite Hvalid, Hins. split; reflexivity.
Qed.

(** X2: with valid arguments, a lathe id and a tool number that fit in 64
    bits, a job collection that can be written and an ObjectId the
    collection does not hold yet, [start_new_job] succeeds and appends
    exactly one document to the job collection of that lathe (creating it
    if needed): the new Running job under its ObjectId, its start time
    kept to the millisecond.  Every other collection is left as it was. *)
Theorem start_new_job_appends
    (db : database) (now oid id : Z) (job_id material job_type : string)
    (tool_no : Z) :
  job_id ≠ ""%string → material ≠ ""%string → job_type ≠ ""%string →
  (1 <= tool_no < 2 ^ 63)%Z →
  (- 2 ^ 63 <= id < 2 ^ 63)%Z →
  collections db !! job_col id ≠ Some Unavailable →
  Forall (λ d : doc, d !! "_id" ≠ Some (VObjectId oid)) (stored db (job_col id)) →
  ∃ db',
    start_new_job db now oid id job_id material job_type tool_no
    = (Ok ("Job " +:+ job_id +:+ " started on Lathe " +:+ pretty id), db')
    ∧ stored db' (job_col id)
      = stored db (job_col id)
        ++ [<["_id" := VObjectId oid]>
              (job_details (milliseconds now) id job_id material job_type tool_no)]
    ∧ job_details (milliseconds now) id job_id material job_type tool_no !! "Status"
      = Some (VStr "Running")
    ∧ listing_ok db' = listing_ok db
    ∧ ∀ name, name ≠ job_col id → collections db' !! name = collections db !! name.
Proof.
  intros H1 H2 H3 H4 H5 Hav Hfresh.
  destruct (start_new_job_run db now oid id job_id material job_type tool_no)
    as (db' & Hrun & Hins);
    [apply invalid_job_false; repeat split; (assumption || lia)
    | apply int64_true; lia | apply int64_true; lia | assumption | assumption |].
  exists db'. split; [exact Hrun|].
  split; [rewrite (stored_after_insert _ _ _ _ _ _ Hins), decide_True, stored_job;
          reflexivity|].
  split; [reflexivity|].
  apply insert_one_inv in Hins as (Hl & Hc & _). split; [assumption|].
  intros name Hne. rewrite Hc, lookup_insert_ne by congruence. reflexivity.
Qed.

Lemma start_new_job_appends_witness :
  ∃ db',
    start_new_job fresh_db 1234567 5 1 "J7" "Steel" "Turning" 2
    = (Ok "Job J7 started on Lathe 1"%string, db')
    ∧ stored db' (job_col 1)
      = [<["_id" := VObjectId 5]> (job_details 1234000 1 "J7" "Steel" "Turning" 2)].
Proof.
  destruct (start_new_job_appends fresh_db 1234567 5 1 "J7" "Steel" "Turning" 2)
    as (db' & Hrun & Hstored & _).
  1-3: discriminate.
  1-2: lia.
  1: discriminate.
  1: constructor.
  exists db'. split; [exact Hrun|].
  rewrite Hstored. vm_compute. reflexivity.
Defined.

(** X3: a job that has just been started counts nowhere: after a
    successful [start_new_job] the uptime and the product analysis of every
    lathe are what they were, and so is the fleet summary when the job
    collection written to already existed. *)
Theorem starting_a_job_changes_no_metric
    (db db' : database) (now oid id : Z) (job_id material job_type : string)
    (tool_no : Z) (msg : string) :
  start_new_job db now oid id job_id material job_type tool_no = (Ok msg, db') →
  ∀ (lathe : Z) (factor : Q),
    calculate_uptime db' lathe factor = calculate_uptime db lathe factor
    ∧ get_lathe_product_analysis db' lathe = get_lathe_product_analysis db lathe
    ∧ (collection_exists db (job_col id) = true →
       lathe_entry db' factor lathe = lathe_entry db factor lathe
       ∧ ∀ rand num_lathes,
           get_all_lathes db' rand num_lathes = get_all_lathes db rand num_lathes).
Proof.
  intros [_ Hins]%start_new_job_Ok lathe factor.
  split; [eapply uptime_after_start; eassumption|].
  split; [eapply product_analysis_after_start; eassumption|].
  intros Hex. split; [eapply lathe_entry_after_start; eassumption|].
  intros rand num_lathes. unfold get_all_lathes. f_equal.
  apply list_fmap_ext. intros _ lathe' _.
  rewrite (lathe_entry_after_start _ _ _ _ _ _ _ _ _ Hins lathe' (rand lathe') Hex).
  reflexivity.
Qed.

Lemma starting_a_job_changes_no_metric_witness :
  get_lathe_product_analysis
    (snd (start_new_job aab_db 7 5 1 "J7" "Steel" "Turning" 2)) 1
  = get_lathe_product_analysis aab_db 1.
Proof.
  destruct (start_new_job aab_db 7 5 1 "J7" "Steel" "Turning" 2) as [r db'] eqn:E.
  assert (r = Ok "Job J7 started on Lathe 1"%string) as ->
    by (apply (f_equal fst) in E; vm_compute in E; congruence).
  apply (starting_a_job_changes_no_metric aab_db db' 7 5 1 "J7" "Steel" "Turning" 2
           _ E 1 (1 # 10)).
Defined.

(** X4: [start_new_job] never checks for an existing JobID: started twice
    with the same job id (and, as always, two different ObjectIds) it
    succeeds twice, and the job collection then holds two different
    documents with that JobID. *)
Theorem start_new_job_allows_duplicates
    (db : database) (now1 now2 oid1 oid2 id : Z)
    (job_id material job_type : string) (tool_no : Z) :
  job_id ≠ ""%string → material ≠ ""%string → job_type ≠ ""%string →
  (1 <= tool_no < 2 ^ 63)%Z →
  (- 2 ^ 63 <= id < 2 ^ 63)%Z →
  collections db !! job_col id ≠ Some Unavailable →
  Forall (λ d : doc, d !! "_id" ≠ Some (VObjectId oid1)
                     ∧ d !! "_id" ≠ Some (VObjectId oid2))
         (stored db (job_col id)) →
  oid1 ≠ oid2 →
  ∃ msg db1 db2 (first second : doc),
    start_new_job db now1 oid1 id job_id material job_type tool_no = (Ok msg, db1)
    ∧ start_new_job db1 now2 oid2 id job_id material job_type tool_no = (Ok msg, db2)
    ∧ stored db2 (job_col id) = stored db (job_col id) ++ [first; second]
    ∧ first !! "_id" = Some (VObjectId oid1)
    ∧ second !! "_id" = Some (VObjectId oid2)
    ∧ first !! "JobID" = Some (VStr job_id)
    ∧ second !! "JobID" = Some (VStr job_id)
    ∧ ¬ unique_job_ids (stored db2 (job_col id)).
Proof.
  intros H1 H2 H3 H4 H5 Hav Hfresh Hoid.
  assert (invalid_job job_id material job_type tool_no = false) as Hvalid
    by (apply invalid_job_false; repeat split; (assumption || lia)).
  assert (int64 id = true) as Hid by (apply int64_true; lia).
  assert (int64 tool_no = true) as Htool by (apply int64_true; lia).
  destruct (start_new_job_run db now1 oid1 id job_id material job_type tool_no
              Hvalid Hid Htool Hav)
    as (db1 & Hrun1 & Hins1).
  { eapply Forall_impl; [exact Hfresh|]. intros d [Hd _]. exact Hd. }
  assert (collections db1 !! job_col id ≠ Some Unavailable) as Hav1.
  { pose proof Hins1 as (_ & Hc & _)%insert_one_inv.
    rewrite Hc, lookup_insert_eq. discriminate. }
  pose proof (stored_after_insert _ _ _ _ _ (job_col id) Hins1) as Hst1.
  rewrite decide_True, stored_job in Hst1 by reflexivity.
  destruct (start_new_job_run db1 now2 oid2 id job_id material job_type tool_no
              Hvalid Hid Htool Hav1)
    as (db2 & Hrun2 & Hins2).
  { rewrite Hst1. apply Forall_app. split.
    - eapply Forall_impl; [exact Hfresh|]. intros d [_ Hd]. exact Hd.
    - constructor; [|constructor].
      change (Some (VObjectId oid1) ≠ Some (VObjectId oid2)). congruence. }
  pose proof (stored_after_insert _ _ _ _ _ (job_col id) Hins2) as Hst2.
  rewrite decide_True, stored_job, Hst1, <- app_assoc in Hst2 by reflexivity.
  set (first := <["_id" := VObjectId oid1]>
                  (job_details (milliseconds now1) id job_id material job_type
                     tool_no)) in *.
  set (second := <["_id" := VObjectId oid2]>
                   (job_details (milliseconds now2) id job_id material job_type
                      tool_no)) in *.
  change (stored db2 (job_col id) = stored db (job_col id) ++ [first; second])
    in Hst2.
  eexists _, db1, db2, first, second.
  split; [exact Hrun1|]. split; [exact Hrun2|]. split; [exact Hst2|].
  split; [reflexivity|]. split; [reflexivity|].
  split; [reflexivity|]. split; [reflexivity|].
  rewrite Hst2. intros [_ Huniq].
  assert (first = second) as E.
  { apply Huniq.
    - apply elem_of_app. right. left.
    - apply elem_of_app. right. right. left.
    - unfold field_eqb, job_id_of.
      change (bson_eqb (VStr job_id) (VStr job_id) = true).
      apply bson_eqb_refl. }
  apply (f_equal (λ j : doc, j !! "_id")) in E.
  change (Some (VObjectId oid1) = Some (VObjectId oid2)) in E. congruence.
Qed.

Lemma start_new_job_allows_duplicates_witness :
  ∃ msg db1 db2,
    start_new_job fresh_db 7 5 1 "J7" "Steel" "Turning" 2 = (Ok msg, db1)
    ∧ start_new_job db1 7 6 1 "J7" "Steel" "Turning" 2 = (Ok msg, db2)
    ∧ ¬ unique_job_ids (stored db2 (job_col 1)).
Proof.
  destruct (start_new_job_allows_duplicates fresh_db 7 7 5 6 1 "J7" "Steel"
              "Turning" 2)
    as (msg & db1 & db2 & a & b & Hr1 & Hr2 & _ & _ & _ & _ & _ & Hdup).
  1-3: discriminate.
  1-2: lia.
  1: discriminate.
  1: constructor.
  1: discriminate.
  exists msg, db1, db2. auto.
Defined.

(** X22: a job whose lathe id or tool number does not fit in 64 bits
    cannot be stored: the call answers 500 and writes nothing. *)
Theorem start_new_job_refuses_big_numbers
    (db : database) (now oid id : Z) (job_id material job_type : string)
    (tool_no : Z) :
  job_id ≠ ""%string → material ≠ ""%string → job_type ≠ ""%string →
  (1 <= tool_no)%Z →
  ¬ (- 2 ^ 63 <= id < 2 ^ 63)%Z ∨ (2 ^ 63 <= tool_no)%Z →
  start_new_job db now oid id job_id material job_type tool_no
  = (Raise (HTTPException 500), db).
Proof.
  intros H1 H2 H3 H4 Hbig.
  assert (invalid_job job_id material job_type tool_no = false) as Hvalid
    by (apply invalid_job_false; auto).
  unfold start_new_job, start_new_job_body. rewrite Hvalid.
  assert (insert_one db (job_col id) oid
            (job_details now id job_id material job_type tool_no) = Raise Error)
    as ->; [|reflexivity].
  destruct Hbig as [Hid | Htool].
  - apply (insert_one_overflow _ _ _ _ "LatheID" id); [reflexivity|].
    apply not_true_is_false. rewrite int64_true. exact Hid.
  - apply (insert_one_overflow _ _ _ _ "ToolNo" tool_no); [reflexivity|].
    apply not_true_is_false. rewrite int64_true. lia.
Qed.

Lemma start_new_job_refuses_big_numbers_witness :
  start_new_job fresh_db 7 5 1 "J7" "Steel" "Turning" (2 ^ 63)
  = (Raise (HTTPException 500), fresh_db).
Proof.
  apply start_new_job_refuses_big_numbers.
  1-3: discriminate.
  - lia.
  - right. lia.
Defined.

(** ** Sensor history *)

Lemma in_window_iff (start_time end_time : Z) (d : doc) :
  in_window start_time end_time d = true
  ↔ ∃ t, d !! "timestamp" = Some (VDate t) ∧ (start_time <= t <= end_time)%Z.
Proof.
  unfold in_window. destruct (d !! "timestamp") as [[]|];
    try (split; [discriminate | intros (t & [=] & _)]).
  rewrite andb_true_iff, !Z.leb_le. split.
  - intros H. eexists. split; [reflexivity | assumption].
  - intros (t' & [= <-] & H). assumption.
Qed.

Lemma in_window_dated (start_time end_time : Z) (d : doc) :
  in_window start_time end_time d = true → dated d.
Proof. intros (t & Ht & _)%in_window_iff. exists t. assumption. Qed.

Lemma bson_leb_dated (a b : doc) :
  dated a → dated b →
  bson_leb (default VNone (a !! "timestamp")) (default VNone (b !! "timestamp"))
  = (stamp a <=? stamp b)%Z.
Proof. intros [s Hs] [t Ht]. unfold stamp. rewrite Hs, Ht. reflexivity. Qed.

Lemma insert_asc_perm key (d : doc) (l : list doc) : insert_asc key d l ≡ₚ d :: l.
Proof.
  induction l as [| d' l IH]; simpl; [reflexivity|].
  destruct (bson_leb _ _); [reflexivity|].
  rewrite IH. apply Permutation_swap.
Qed.

Lemma sort_asc_perm key (l : list doc) : sort_asc key l ≡ₚ l.
Proof.
  induction l as [| d l IH]; simpl; [reflexivity|].
  rewrite insert_asc_perm, IH. reflexivity.
Qed.

Lemma insert_asc_sorted (d : doc) (l : list doc) :
  dated d → Forall dated l →
  StronglySorted not_after l → StronglySorted not_after (insert_asc "timestamp" d l).
Proof.
  intros Hd Hl Hs. induction Hs as [| d' l Hs IH Hall]; simpl.
  - repeat constructor.
  - apply Forall_cons in Hl as [Hd' Hl].
    rewrite (bson_leb_dated d d' Hd Hd').
    destruct (Z.leb_spec (stamp d) (stamp d')) as [Hle|Hgt].
    + constructor; [constructor; assumption|].
      constructor; [exact Hle|].
      eapply Forall_impl; [exact Hall|]. unfold not_after. intros x Hx. simpl in *. lia.
    + constructor; [apply IH, Hl|].
      rewrite insert_asc_perm. constructor; [unfold not_after; lia | exact Hall].
Qed.

Lemma sort_asc_sorted (l : list doc) :
  Forall dated l → StronglySorted not_after (sort_asc "timestamp" l).
Proof.
  induction 1 as [| d l Hd Hl IH]; simpl; [constructor|].
  apply insert_asc_sorted; [assumption | rewrite sort_asc_perm; assumption | exact IH].
Qed.

Lemma mongo_limit_prefix (n : Z) (l : list doc) :
  ∃ rest, l = mongo_limit n l ++ rest
          ∧ (rest = [] ∨ (n ≠ 0%Z ∧ length (mongo_limit n l) = Z.to_nat (Z.abs n))).
Proof.
  unfold mongo_limit. destruct (Z.eqb_spec n 0) as [->|Hn].
  - exists []. rewrite app_nil_r. auto.
  - exists (drop (Z.to_nat (Z.abs n)) l). rewrite take_drop. split; [reflexivity|].
    destruct (decide (Z.to_nat (Z.abs n) ≤ length l))%nat as [Hle|Hgt].
    + right. split; [assumption|]. rewrite length_take. lia.
    + left. apply drop_ge. lia.
Qed.



Lemma project_no_id_lookup (fields : list string) (d : doc) (k : string) :
  project_no_id fields d !! k = if decide (k ∈ fields) then d !! k else None.
Proof.
  unfold project_no_id. rewrite map_lookup_filter.
  destruct (d !! k) as [v|]; simpl; [|destruct (decide _); reflexivity].
  destruct (decide (k ∈ fields)).
  - rewrite option_guard_True by assumption. reflexivity.
  - rewrite option_guard_False by assumption. reflexivity.
Qed.

Lemma stamp_project_no_id (fields : list string) (d : doc) :
  "timestamp"%string ∈ fields → stamp (project_no_id fields d) = stamp d.
Proof.
  intros H. unfold stamp. rewrite project_no_id_lookup, decide_True by assumption.
  reflexivity.
Qed.

(** What the history endpoint answers when it answers. *)
Lemma lathe_history_Ok db now id hours limit (l : list doc) :
  get_lathe_history db now id hours limit = Ok l →
  l ≠ []
  ∧ collection_exists db (sensory_col id) = true
  ∧ l = project_no_id details_fields
          <$> mongo_limit limit
                (sort_asc "timestamp"
                   (List.filter (in_window (hours_before now hours) now)
                                (stored db (sensory_col id)))).
Proof.
  unfold get_lathe_history, lathe_history_body, find_where, stored.
  destruct (collection_exists db (sensory_col id)); [|discriminate]. simpl.
  destruct (collections db !! sensory_col id) as [[| ds]|]; cbn; try discriminate.
  all: destruct (project_no_id details_fields <$> _) as [| d l'] eqn:E;
    [discriminate|].
  all: intros [= <-]; split; [discriminate|]; split; reflexivity.
Qed.

Lemma history_selection db now id hours limit :
  let window := List.filter (in_window (hours_before now hours) now)
                            (stored db (sensory_col id)) in
  ∃ rest,
    sort_asc "timestamp" window
    = mongo_limit limit (sort_asc "timestamp" window) ++ rest
    ∧ StronglySorted not_after (sort_asc "timestamp" window)
    ∧ ∀ r, r ∈ sort_asc "timestamp" window
           ↔ r ∈ stored db (sensory_col id)
             ∧ in_window (hours_before now hours) now r = true.
Proof.
  intros window.
  destruct (mongo_limit_prefix limit (sort_asc "timestamp" window)) as (rest & E & _).
  exists rest. split; [exact E|]. split.
  - apply sort_asc_sorted, Forall_forall. intros r Hr.
    apply elem_of_List_filter in Hr as [_ Hr]. eapply in_window_dated, Hr.
  - intros r. rewrite sort_asc_perm. apply elem_of_List_filter.
Qed.


(** X6: the limit of the history endpoint cuts off the latest readings:
    a reading of the window that is missing from the answer is not earlier
    than any reading in it. *)
Theorem history_keeps_oldest
    (db : database) (now id hours limit : Z) (l : list doc) :
  get_lathe_history db now id hours limit = Ok l →
  ∀ r d : doc,
    r ∈ stored db (sensory_col id) →
    in_window (hours_before now hours) now r = true →
    d ∈ l →
    project_no_id details_fields r ∈ l ∨ not_after d r.
Proof.
  intros (_ & _ & ->)%lathe_history_Ok r d Hr Hw Hd.
  destruct (history_selection db now id hours limit) as (rest & E & Hsorted & Hin).
  assert (r ∈ sort_asc "timestamp"
                (List.filter (in_window (hours_before now hours) now)
                             (stored db (sensory_col id)))) as Hr'
    by (apply Hin; auto).
  rewrite E in Hr', Hsorted. apply elem_of_app in Hr' as [Hr'|Hr'].
  - left. apply list_elem_of_fmap. exists r. auto.
  - right. apply list_elem_of_fmap in Hd as (x & -> & Hx).
    unfold not_after.
    rewrite stamp_project_no_id by decide_in.
    apply (StronglySorted_app_1_elem_of _ _ _ _ _ Hsorted Hx Hr').
Qed.



Lemma history_keeps_oldest_witness :
  ∃ l, get_lathe_history history_db 30000000 1 1 2 = Ok l
       ∧ ∀ d, d ∈ l →
           project_no_id details_fields (timed_reading 30000000 (VInt 70)) ∈ l
           ∨ not_after d (timed_reading 30000000 (VInt 70)).
Proof.
  pose proof (history_keeps_oldest history_db 30000000 1 1 2) as H.
  destruct (get_lathe_history history_db 30000000 1 1 2) as [l|e] eqn:E;
    [|vm_compute in E; discriminate].
  exists l. split; [reflexivity|]. intros d Hd.
  apply (H l eq_refl (timed_reading 30000000 (VInt 70)) d); [|reflexivity|exact Hd].
  unfold stored. simpl. rewrite lookup_singleton_eq. left.
Defined.


(** ** Sensor statistics *)

Lemma py_ltb_numeric (a b : pyval) (x y : Q) :
  to_float a = Some x → to_float b = Some y →
  py_ltb a b = Ok (negb (Qle_bool y x)).
Proof. intros Ha Hb. unfold py_ltb. rewrite Ha, Hb. reflexivity. Qed.

Lemma py_ltb_raises (a b : pyval) e : py_ltb a b = Raise e → e = Error.
Proof.
  unfold py_ltb. destruct (to_float a), (to_float b); try discriminate;
    try (intros [= <-]; reflexivity).
  destruct a, b; try discriminate; intros [= <-]; reflexivity.
Qed.

Lemma py_min_from_raises (rest : list pyval) : ∀ best e,
  py_min_from best rest = Raise e → e = Error.
Proof.
  induction rest as [| v rest IH]; intros best e; simpl; [discriminate|].
  destruct (py_ltb v best) as [c|e'] eqn:E; simpl.
  - apply IH.
  - intros [= <-]. eapply py_ltb_raises, E.
Qed.

Lemma py_max_from_raises (rest : list pyval) : ∀ best e,
  py_max_from best rest = Raise e → e = Error.
Proof.
  induction rest as [| v rest IH]; intros best e; simpl; [discriminate|].
  destruct (py_ltb best v) as [c|e'] eqn:E; simpl.
  - apply IH.
  - intros [= <-]. eapply py_ltb_raises, E.
Qed.

(** On numbers [min] finds an element below all the others. *)
Lemma py_min_from_numeric (rest : list pyval) : ∀ (best : pyval) (b : Q) (ys : list Q),
  to_float best = Some b → mapM to_float rest = Some ys →
  ∃ m lo, py_min_from best rest = Ok m ∧ to_float m = Some lo
          ∧ m ∈ best :: rest ∧ lo <= b ∧ Forall (λ y, lo <= y) ys.
Proof.
  induction rest as [| v rest IH]; intros best b ys Hb Hys.
  - injection Hys as <-. exists best, b.
    split; [reflexivity|]. split; [assumption|]. split; [left|].
    split; [lra | constructor].
  - apply mapM_Some in Hys. inversion Hys as [| ? y ? ys' Hv Hys']; subst.
    apply mapM_Some in Hys'. simpl. rewrite (py_ltb_numeric v best y b Hv Hb). simpl.
    destruct (Qle_bool b y) eqn:E; simpl.
    + apply Qle_bool_iff in E.
      destruct (IH best b ys' Hb Hys') as (m & lo & Hm & Hlo & Hin & Hle & Hall).
      exists m, lo. split; [assumption|]. split; [assumption|]. split; [|split].
      * apply elem_of_cons in Hin as [->|Hin]; [left | right; right; assumption].
      * assumption.
      * constructor; [lra | assumption].
    + apply Qle_bool_false in E.
      destruct (IH v y ys' Hv Hys') as (m & lo & Hm & Hlo & Hin & Hle & Hall).
      exists m, lo. split; [assumption|]. split; [assumption|]. split; [|split].
      * right. assumption.
      * lra.
      * constructor; assumption.
Qed.

Lemma py_max_from_numeric (rest : list pyval) : ∀ (best : pyval) (b : Q) (ys : list Q),
  to_float best = Some b → mapM to_float rest = Some ys →
  ∃ m hi, py_max_from best rest = Ok m ∧ to_float m = Some hi
          ∧ m ∈ best :: rest ∧ b <= hi ∧ Forall (λ y, y <= hi) ys.
Proof.
  induction rest as [| v rest IH]; intros best b ys Hb Hys.
  - injection Hys as <-. exists best, b.
    split; [reflexivity|]. split; [assumption|]. split; [left|].
    split; [lra | constructor].
  - apply mapM_Some in Hys. inversion Hys as [| ? y ? ys' Hv Hys']; subst.
    apply mapM_Some in Hys'. simpl. rewrite (py_ltb_numeric best v b y Hb Hv). simpl.
    destruct (Qle_bool y b) eqn:E; simpl.
    + apply Qle_bool_iff in E.
      destruct (IH best b ys' Hb Hys') as (m & hi & Hm & Hhi & Hin & Hle & Hall).
      exists m, hi. split; [assumption|]. split; [assumption|]. split; [|split].
      * apply elem_of_cons in Hin as [->|Hin]; [left | right; right; assumption].
      * assumption.
      * constructor; [lra | assumption].
    + apply Qle_bool_false in E.
      destruct (IH v y ys' Hv Hys') as (m & hi & Hm & Hhi & Hin & Hle & Hall).
      exists m, hi. split; [assumption|]. split; [assumption|]. split; [|split].
      * right. assumption.
      * lra.
      * constructor; assumption.
Qed.

Lemma Qsum_bounds (lo hi : Q) (l : list Q) :
  Forall (λ y, lo <= y <= hi) l →
  inject_Z (Z.of_nat (length l)) * lo <= Qsum l
  ∧ Qsum l <= inject_Z (Z.of_nat (length l)) * hi.
Proof.
  induction 1 as [| y l Hy _ IH].
  { change (inject_Z (Z.of_nat (length (@nil Q)))) with 0. simpl Qsum. lra. }
  simpl length. rewrite Nat2Z.inj_succ, <- Z.add_1_r, inject_Z_plus.
  change (inject_Z 1) with 1. simpl Qsum. lra.
Qed.

(** The mean of a non-empty list lies between any bounds of its items. *)
Lemma mean_bounds (lo hi : Q) (l : list Q) :
  l ≠ [] → Forall (λ y, lo <= y <= hi) l → lo <= mean l <= hi.
Proof.
  intros Hne Hall. destruct (Qsum_bounds lo hi l Hall) as [Hlo Hhi].
  unfold mean. set (n := inject_Z (Z.of_nat (length l))) in *.
  assert (0 < n) as Hn.
  { unfold n. destruct l; [contradiction|]. simpl length.
    change 0 with (inject_Z 0). rewrite <- Zlt_Qlt. lia. }
  split.
  - apply Qle_shift_div_l; [assumption | lra].
  - apply Qle_shift_div_r; [assumption | lra].
Qed.

Lemma safe_stats_numeric (values : list pyval) (st : SensorStats) :
  safe_stats values = Ok st → is_Some (mapM to_float values).
Proof.
  destruct values as [| first rest]; [intros _; eexists; reflexivity|].
  unfold safe_stats, np_mean.
  destruct (mapM to_float (first :: rest)) as [nums|]; [intros _; eauto|].
  destruct (py_min_from first rest); simpl; [|discriminate].
  destruct (py_max_from first rest); simpl; discriminate.
Qed.

Lemma safe_stats_raises (values : list pyval) e :
  safe_stats values = Raise e → e = Error.
Proof.
  destruct values as [| first rest]; [discriminate|]. unfold safe_stats.
  destruct (py_min_from first rest) as [lo|e1] eqn:E1; simpl;
    [|intros [= <-]; eapply py_min_from_raises, E1].
  destruct (py_max_from first rest) as [hi|e2] eqn:E2; simpl;
    [|intros [= <-]; eapply py_max_from_raises, E2].
  destruct (np_mean (first :: rest)); [discriminate|].
  intros [= <-]. reflexivity.
Qed.

(** A value that is not a number makes the statistics fail. *)
Lemma safe_stats_malformed (values : list pyval) (v : pyval) :
  v ∈ values → to_float v = None → safe_stats values = Raise Error.
Proof.
  intros Hv Hnone. destruct (safe_stats values) as [st|e] eqn:E.
  - apply safe_stats_numeric, mapM_is_Some in E.
    rewrite Forall_forall in E. destruct (E v Hv) as [x Hx].
    simpl in Hx. congruence.
  - apply safe_stats_raises in E as ->. reflexivity.
Qed.

Lemma Forall2_bounds (lo hi : Q) (values : list pyval) (nums : list Q) :
  Forall2 (λ v y, to_float v = Some y) values nums →
  Forall (λ y, lo <= y) nums → Forall (λ y, y <= hi) nums →
  Forall (λ v, ∃ y, to_float v = Some y ∧ lo <= y <= hi) values.
Proof.
  induction 1 as [| v y values nums Hv _ IH]; intros Hlo Hhi; [constructor|].
  apply Forall_cons in Hlo as [Hlo Hlos]. apply Forall_cons in Hhi as [Hhi Hhis].
  constructor; [|apply IH; assumption].
  exists y. split; [exact Hv|]. split; assumption.
Qed.

Lemma safe_stats_Ok (values : list pyval) (st : SensorStats) :
  safe_stats values = Ok st →
  (values = []
   ∧ st = {| stats_min := VInt 0; stats_max := VInt 0; stats_avg := 0 |})
  ∨ (values ≠ []
     ∧ ∃ lo hi,
         to_float (stats_min st) = Some lo ∧ to_float (stats_max st) = Some hi
         ∧ stats_min st ∈ values ∧ stats_max st ∈ values
         ∧ Forall (λ v, ∃ y, to_float v = Some y ∧ lo <= y <= hi) values).
Proof.
  intros H. destruct (safe_stats_numeric values st H) as [nums Hnums].
  destruct values as [| first rest]; [left; injection H as <-; auto|].
  right. split; [discriminate|].
  pose proof Hnums as Hall. apply mapM_Some in Hall.
  inversion Hall as [| ? b ? ys Hb Hys]; subst.
  pose proof Hys as Hys2. apply mapM_Some in Hys.
  destruct (py_min_from_numeric rest first b ys Hb Hys)
    as (m & lo & Hm & Hlo & Hmin & Hle & Hlow).
  destruct (py_max_from_numeric rest first b ys Hb Hys)
    as (M & hi & HM & Hhi & Hmax & Hge & Hhigh).
  unfold safe_stats, np_mean in H. rewrite Hm, HM, Hnums in H. simpl in H.
  injection H as <-. simpl. exists lo, hi.
  split; [assumption|]. split; [assumption|]. split; [assumption|].
  split; [assumption|].
  constructor.
  - exists b. split; [exact Hb|]. split; assumption.
  - apply (Forall2_bounds lo hi rest ys); assumption.
Qed.

Lemma insert_desc_perm key (d : doc) (l : list doc) : insert_desc key d l ≡ₚ d :: l.
Proof.
  induction l as [| d' l IH]; simpl; [reflexivity|].
  destruct (bson_leb _ _); [|reflexivity].
  rewrite IH. apply Permutation_swap.
Qed.

Lemma sort_desc_perm key (l : list doc) : sort_desc key l ≡ₚ l.
Proof.
  induction l as [| d l IH]; simpl; [reflexivity|].
  rewrite insert_desc_perm, IH. reflexivity.
Qed.

Lemma find_all_stored db name (found : list doc) :
  find db name [] = Ok found → found = stored db name.
Proof.
  unfold find, stored. destruct (collections db !! name) as [[| ds]|];
    [discriminate | |]; intros [= <-]; [apply filter_matches_all | reflexivity].
Qed.

Lemma wrapped_Ok {A} (body : result A) (a : A) :
  match body with
  | Ok x => Ok x
  | Raise (HTTPException status_code) => Raise (HTTPException status_code)
  | Raise Error => Raise (HTTPException 500)
  end = Ok a → body = Ok a.
Proof. destruct body as [r|[c|]]; [trivial | discriminate | discriminate]. Qed.

(** What the sensor-data endpoint answers when it answers. *)
Lemma lathe_sensor_data_Ok db id limit (report : SensorReport) :
  get_lathe_sensor_data db id limit = Ok report →
  sensor_data report ≠ []
  ∧ sensor_data report
    = project_no_id sensor_fields
        <$> mongo_limit limit (sort_desc "timestamp" (stored db (sensory_col id)))
  ∧ fst <$> stats report = tracked
  ∧ Forall (λ fs, safe_stats (field_values (sensor_data report) fs.1) = Ok fs.2)
           (stats report).
Proof.
  unfold get_lathe_sensor_data. intros H%wrapped_Ok.
  unfold lathe_sensor_data_body in H.
  destruct (collection_exists db (sensory_col id)); [|discriminate].
  cbn [negb] in H.
  apply bind_Ok_inv in H as (found & ->%find_all_stored & H).
  destruct (project_no_id sensor_fields <$> _) as [| d data] eqn:E; [discriminate|].
  apply bind_Ok_inv in H as (s1 & E1 & H).
  apply bind_Ok_inv in H as (s2 & E2 & H).
  apply bind_Ok_inv in H as (s3 & E3 & H).
  apply bind_Ok_inv in H as (s4 & E4 & H).
  apply bind_Ok_inv in H as (s5 & E5 & H).
  injection H as <-. cbn [sensor_data stats].
  split; [discriminate|]. split; [reflexivity|]. split; [reflexivity|].
  repeat constructor; assumption.
Qed.

(** X8: in an answer of the sensor-data endpoint the minimum and the
    maximum of each of the five fields are those of the readings returned:
    both are 0 when no returned reading carries the field; otherwise they
    are two of the values carried, every value carried is a number, and
    none lies below the minimum or above the maximum. *)
Theorem sensor_stats_min_max
    (db : database) (id limit : Z) (report : SensorReport)
    (field : string) (st : SensorStats) :
  get_lathe_sensor_data db id limit = Ok report →
  (field, st) ∈ stats report →
  field ∈ tracked
  ∧ (field_values (sensor_data report) field = [] →
     stats_min st = VInt 0 ∧ stats_max st = VInt 0)
  ∧ (field_values (sensor_data report) field ≠ [] →
     ∃ lo hi,
       to_float (stats_min st) = Some lo ∧ to_float (stats_max st) = Some hi
       ∧ stats_min st ∈ field_values (sensor_data report) field
       ∧ stats_max st ∈ field_values (sensor_data report) field
       ∧ ∀ v, v ∈ field_values (sensor_data report) field →
           ∃ y, to_float v = Some y ∧ lo <= y <= hi).
Proof.
  intros (_ & _ & Hfields & Hstats)%lathe_sensor_data_Ok Hin.
  split.
  - rewrite <- Hfields. apply list_elem_of_fmap. exists (field, st). auto.
  - rewrite Forall_forall in Hstats. specialize (Hstats _ Hin). simpl in Hstats.
    destruct (safe_stats_Ok _ _ Hstats)
      as [[Hnil ->] | (Hne & lo & hi & Hlo & Hhi & Hmin & Hmax & Hall)].
    + split; [split; reflexivity | contradiction].
    + split; [contradiction|]. intros _. exists lo, hi.
      rewrite Forall_forall in Hall. auto 10.
Qed.

Lemma sensor_stats_min_max_witness :
  ∃ report st,
    get_lathe_sensor_data history_db 1 10 = Ok report
    ∧ (("Temperature"%string, st) ∈ stats report)
    ∧ "Temperature"%string ∈ tracked.
Proof.
  pose proof (sensor_stats_min_max history_db 1 10) as H.
  destruct (get_lathe_sensor_data history_db 1 10) as [report|e] eqn:E;
    [|vm_compute in E; discriminate].
  assert (∃ st, ("Temperature"%string, st) ∈ stats report) as [st Hst].
  { apply lathe_sensor_data_Ok in E as (_ & _ & Hf & _).
    destruct (stats report) as [| [f st] rest]; [discriminate|].
    injection Hf as -> _. exists st. left. }
  exists report, st. split; [reflexivity|]. split; [exact Hst|].
  apply (H report "Temperature"%string st eq_refl Hst).
Defined.

Lemma tracked_in_fields (fields : list string) (f : string) :
  Forall (λ k, k ∈ fields) tracked → f ∈ tracked → f ∈ fields.
Proof. intros H Hf. rewrite Forall_forall in H. auto. Qed.

Lemma bind_raise_error {A B} (m : result A) (k : A → result B) :
  (∀ e, m = Raise e → e = Error) →
  (∀ a, m = Ok a → k a = Raise Error) →
  m ≫= k = Raise Error.
Proof.
  intros Hm Hk. destruct m as [a|e]; simpl.
  - apply Hk. reflexivity.
  - rewrite (Hm e eq_refl). reflexivity.
Qed.

(** X9: unlike the health scorer, the sensor-data endpoint does not skip a
    value that is not a number: if one of the readings it returns carries
    such a value in a tracked field, the request fails with a 500. *)
Theorem sensor_data_fails_on_malformed_value
    (db : database) (id limit : Z) (r : doc) (field : string) (v : pyval) :
  available db (sensory_col id) →
  r ∈ mongo_limit limit (sort_desc "timestamp" (stored db (sensory_col id))) →
  field ∈ tracked → r !! field = Some v → to_float v = None →
  get_lathe_sensor_data db id limit = Raise (HTTPException 500).
Proof.
  intros Hav Hr Hfield Hv Hnone.
  pose proof (collection_exists_available _ _ Hav) as Hex.
  destruct Hav as [_ [ds Hds]].
  assert (stored db (sensory_col id) = ds) as Hst
    by (unfold stored; rewrite Hds; reflexivity).
  rewrite Hst in *.
  unfold get_lathe_sensor_data.
  assert (lathe_sensor_data_body db id limit = Raise Error) as ->; [|reflexivity].
  unfold lathe_sensor_data_body. rewrite Hex, (find_available _ _ _ ds Hds).
  rewrite filter_matches_all. cbn [negb mbind result_bind].
  set (data := project_no_id sensor_fields
                 <$> mongo_limit limit (sort_desc "timestamp" ds)).
  assert (project_no_id sensor_fields r ∈ data) as Hin.
  { apply list_elem_of_fmap. exists r. split; [reflexivity | exact Hr]. }
  assert (safe_stats (field_values data field) = Raise Error) as Hfail.
  { apply (safe_stats_malformed _ v); [|exact Hnone].
    apply list_elem_of_omap. exists (project_no_id sensor_fields r).
    split; [exact Hin|]. rewrite project_no_id_lookup, decide_True; [exact Hv|].
    apply tracked_in_fields; [decide_in | exact Hfield]. }
  destruct data as [| d data']; [apply elem_of_nil in Hin; contradiction|].
  unfold tracked in Hfield.
  repeat (apply elem_of_cons in Hfield as [->|Hfield]);
    [..|apply elem_of_nil in Hfield; contradiction];
    repeat first
      [ rewrite Hfail; reflexivity
      | apply bind_raise_error;
        [intros e He; eapply safe_stats_raises, He | intros ? _] ].
Qed.

(** Of the two stored readings the limit of 1 returns the later one, whose
    Temperature is a string. *)
Lemma sensor_data_fails_on_malformed_value_witness :
  get_lathe_sensor_data late_malformed_db 1 1 = Raise (HTTPException 500).
Proof.
  apply (sensor_data_fails_on_malformed_value late_malformed_db 1 1
           (timed_reading 30000000 (VStr "hot")) "Temperature" (VStr "hot")).
  - split; [reflexivity|]. eexists. apply lookup_singleton_eq.
  - apply list_elem_of_In. vm_compute. left. reflexivity.
  - decide_in.
  - reflexivity.
  - reflexivity.
Defined.

(** ** Health scorer: what the score depends on *)

Lemma spec_observed_same_numbers (field : string) (batch batch' : list doc) :
  field ∈ tracked → Forall2 same_numbers batch batch' →
  spec_observed field batch = spec_observed field batch'.
Proof.
  intros Hf. unfold spec_observed.
  induction 1 as [| d d' batch batch' Hd _ IH]; [reflexivity|]. simpl.
  rewrite (Hd field Hf).
  destruct (d' !! field ≫= to_float); [f_equal|]; exact IH.
Qed.

(** X11: the health score reads nothing but the numbers in the five
    tracked fields: two batches whose readings carry, one by one, the same
    numbers there have the same score, so a value that is not a number
    counts exactly like a missing field and other fields count for
    nothing. *)
Theorem health_score_reads_tracked_numbers_only (batch batch' : list doc) :
  Forall2 same_numbers batch batch' →
  calculate_health_score batch = calculate_health_score batch'.
Proof.
  intros H. unfold calculate_health_score. rewrite !health_score_body_spec.
  unfold spec_subscore.
  rewrite !(spec_observed_same_numbers _ batch batch') by (assumption || decide_in).
  destruct H; reflexivity.
Qed.

Lemma health_score_reads_tracked_numbers_only_witness :
  calculate_health_score
    [reading [("Temperature"%string, VInt 40); ("Vibration"%string, VStr "n/a");
              ("JobID"%string, VStr "J1")]]
  = calculate_health_score [reading [("Temperature"%string, VFloat 40)]].
Proof.
  apply health_score_reads_tracked_numbers_only.
  constructor; [|constructor].
  intros field Hf. unfold tracked in Hf.
  repeat (apply elem_of_cons in Hf as [->|Hf]; [reflexivity|]).
  apply elem_of_nil in Hf. contradiction.
Defined.

Lemma spec_subscore_rated (field : string) (norm : Q → Q) (lo hi : Q)
    (batch : list doc) :
  within_rating field lo hi batch →
  (∀ m, lo <= m <= hi → 0 <= norm m <= 1) →
  0 <= spec_subscore field norm batch <= 1
  ∧ (spec_observed field batch = [] → spec_subscore field norm batch = 0).
Proof.
  intros Hw Hnorm. unfold spec_subscore.
  destruct (spec_observed field batch) as [| x l] eqn:E.
  - split; [lra | reflexivity].
  - unfold within_rating in Hw. rewrite E in Hw.
    destruct Hw as [Hw|Hw]; [discriminate|].
    split; [apply Hnorm, Hw | discriminate].
Qed.

(** X12: a machine that reports no numeric RPM value is never Operational
    while its other readings are ordinary: when the observed means lie in
    the ranges the sub-scores are made for (25..125 degrees, vibration
    0..10, power 0..15, wear 0..100), the missing RPM costs its weight of
    0.25 and the score stays below 80. *)
Theorem no_rpm_never_operational (batch : list doc) :
  batch ≠ [] → rated batch → spec_observed "RPM" batch = [] →
  calculate_health_score batch < 80
  ∧ get_lathe_status (calculate_health_score batch) ≠ "Operational"%string.
Proof.
  intros Hne (HT & HV & HR & HP & HW) Hnone.
  destruct (spec_subscore_rated "Temperature" (λ m, 1 - (m - 25) / 100) _ _ _ HT)
    as [BT _].
  { intros m Hm. unfold Qdiv. change (/ 100) with (1 # 100). lra. }
  destruct (spec_subscore_rated "Vibration" (λ m, 1 - m / 10) _ _ _ HV) as [BV _].
  { intros m Hm. unfold Qdiv. change (/ 10) with (1 # 10). lra. }
  destruct (spec_subscore_rated "RPM" (λ m, m / 3000) _ _ _ HR) as [_ ZR].
  { intros m Hm. unfold Qdiv. change (/ 3000) with (1 # 3000). lra. }
  destruct (spec_subscore_rated "Power" (λ m, 1 - m / 15) _ _ _ HP) as [BP _].
  { intros m Hm. unfold Qdiv. change (/ 15) with (1 # 15). lra. }
  destruct (spec_subscore_rated "ToolWear" (λ m, 1 - m / 100) _ _ _ HW) as [BW _].
  { intros m Hm. unfold Qdiv. change (/ 100) with (1 # 100). lra. }
  assert (calculate_health_score batch < 80) as Hscore.
  { rewrite calculate_health_score_spec. destruct batch as [| d batch]; [contradiction|].
    unfold spec_health_score. rewrite (ZR Hnone).
    rewrite clamp_id by lra. lra. }
  split; [exact Hscore|].
  unfold get_lathe_status.
  destruct (Qle_bool 80 (calculate_health_score batch)) eqn:E.
  - apply Qle_bool_iff in E. lra.
  - destruct (Qle_bool 60 _); discriminate.
Qed.

Lemma no_rpm_never_operational_witness :
  get_lathe_status
    (calculate_health_score
       [reading [("Temperature"%string, VInt 25); ("Vibration"%string, VInt 0);
                 ("Power"%string, VInt 0); ("ToolWear"%string, VInt 0)]])
  ≠ "Operational"%string.
Proof.
  apply no_rpm_never_operational; [discriminate | | reflexivity].
  repeat split; (right; vm_compute; split; discriminate) || (left; reflexivity).
Defined.

(** ** Uptime estimator: what the estimate depends on *)

(** X13: once the completed jobs with both times add up to a positive
    duration, the uptime lies strictly between 86.9 and 95.3, however long
    the jobs were: it is the damping factor at work, and the estimate
    never reaches 100. *)
Theorem uptime_band (db : database) (lathe : Z) (factor : Q) :
  available db (job_col lathe) →
  Forall dates_ok (spec_timed_jobs db lathe) →
  0 < spec_total_duration db lathe →
  damping_range factor →
  (869 # 10) < calculate_uptime db lathe factor < (953 # 10).
Proof.
  intros Hav Hdates Hpos [Hlo Hhi].
  assert (spec_timed_jobs db lathe ≠ []) as Hne.
  { intros E. unfold spec_total_duration in Hpos. rewrite E in Hpos.
    simpl in Hpos. lra. }
  rewrite (calculate_uptime_available _ _ _ Hav Hdates Hne).
  rewrite uptime_of_positive by lra.
  set (d := spec_total_duration db lathe) in *.
  assert (d / (d + d * factor) * 100 == 100 / (1 + factor)) as E.
  { field. split; [lra|]. intros E0.
    assert (d * (1 + factor) == 0) as E1 by (rewrite <- E0; ring).
    apply Qmult_integral in E1 as [E1|E1]; lra. }
  assert ((2000 # 23) <= 100 / (1 + factor) <= (2000 # 21)) as Hb.
  { split.
    - apply Qle_shift_div_l; lra.
    - apply Qle_shift_div_r; lra. }
  unfold spec_uptime. rewrite E.
  rewrite clamp_id by lra. lra.
Qed.

Lemma uptime_band_witness :
  (869 # 10) < calculate_uptime ten_second_db 1 (1 # 10) < (953 # 10).
Proof.
  apply (uptime_band ten_second_db 1 (1 # 10)).
  - split; [reflexivity|]. eexists. reflexivity.
  - repeat constructor. exists 0%Z, 10000000%Z. split; reflexivity.
  - reflexivity.
  - split; discriminate.
Defined.

(** ** Fleet summary: what an entry holds *)

(** Rounding to an integer never crosses an integer. *)
Lemma round_half_even_ge (k : Z) (x : Q) :
  inject_Z k <= x → (k <= round_half_even x)%Z.
Proof.
  intros H. destruct (round_half_even_close x) as [Hlo _].
  assert (inject_Z (k - 1) < inject_Z (round_half_even x)) as Hlt.
  { unfold Z.sub. rewrite inject_Z_plus, inject_Z_opp.
    change (inject_Z 1) with 1. lra. }
  rewrite <- Zlt_Qlt in Hlt. lia.
Qed.

Lemma round_half_even_le (k : Z) (x : Q) :
  x <= inject_Z k → (round_half_even x <= k)%Z.
Proof.
  intros H. destruct (round_half_even_close x) as [_ Hhi].
  assert (inject_Z (round_half_even x) < inject_Z (k + 1)) as Hlt.
  { rewrite inject_Z_plus. change (inject_Z 1) with 1. lra. }
  rewrite <- Zlt_Qlt in Hlt. lia.
Qed.

(** [round(x, 1)] never crosses a multiple of 0.1. *)
Lemma py_round1_ge (k : Z) (x : Q) :
  inject_Z k / 10 <= x → inject_Z k / 10 <= py_round1 x.
Proof.
  intros H. unfold py_round1.
  assert (inject_Z k <= x * 10) as H'.
  { unfold Qdiv in H. change (/ 10) with (1 # 10) in H. lra. }
  apply round_half_even_ge in H'. rewrite Zle_Qle in H'.
  unfold Qdiv. change (/ 10) with (1 # 10). lra.
Qed.

Lemma py_round1_le (k : Z) (x : Q) :
  x <= inject_Z k / 10 → py_round1 x <= inject_Z k / 10.
Proof.
  intros H. unfold py_round1.
  assert (x * 10 <= inject_Z k) as H'.
  { unfold Qdiv in H. change (/ 10) with (1 # 10) in H. lra. }
  apply round_half_even_le in H'. rewrite Zle_Qle in H'.
  unfold Qdiv. change (/ 10) with (1 # 10). lra.
Qed.

Lemma py_round1_percent (x : Q) : 0 <= x <= 100 → 0 <= py_round1 x <= 100.
Proof.
  intros [H0 H100]. split.
  - assert (inject_Z 0 / 10 == 0) as E by reflexivity.
    rewrite <- E. apply py_round1_ge. rewrite E. exact H0.
  - assert (inject_Z 1000 / 10 == 100) as E by reflexivity.
    rewrite <- E. apply py_round1_le. rewrite E. exact H100.
Qed.

(** A summary entry is a placeholder, or it is computed from a non-empty
    list of readings. *)
Lemma lathe_entry_cases db factor id (entry : LatheSummary) :
  lathe_entry db factor id = Ok entry →
  (entry = placeholder id "Offline" ∨ entry = placeholder id "No Data")
  ∨ ∃ (readings : list doc) (count : Z),
      readings ≠ []
      ∧ find_latest db (sensory_col id) [] tracked "timestamp" 1000 = Ok readings
      ∧ count_documents db (job_col id) failure_query = Ok count
      ∧ entry = {| lathe_id := id; name := "Lathe M" +:+ pretty id;
                   health_score := py_round1 (calculate_health_score readings);
                   uptime := py_round1 (calculate_uptime db id factor);
                   status := get_lathe_status (calculate_health_score readings);
                   failure_count := count |}.
Proof.
  unfold lathe_entry.
  destruct (negb _ || negb _); [intros [= <-]; auto|].
  intros H. apply bind_Ok_inv in H as (readings & Hfind & H).
  destruct readings as [| r readings]; [injection H as <-; auto|].
  apply bind_Ok_inv in H as (count & Hcount & H). injection H as <-.
  right. exists (r :: readings), count. split; [discriminate|].
  split; [assumption|]. split; [assumption | reflexivity].
Qed.

Lemma count_documents_nonneg db name q (count : Z) :
  count_documents db name q = Ok count → (0 <= count)%Z.
Proof.
  unfold count_documents. destruct (find db name q); simpl; [|discriminate].
  intros [= <-]. lia.
Qed.

Lemma get_all_lathes_entries db rand num_lathes (entry : LatheSummary) :
  entry ∈ ((λ id,
              match lathe_entry db (rand id) id with
              | Ok e => e
              | Raise _ => placeholder id "Error"
              end) <$> seqZ 1 num_lathes) →
  ∃ id, (1 <= id <= num_lathes)%Z
        ∧ (entry = placeholder id "Error"
           ∨ lathe_entry db (rand id) id = Ok entry).
Proof.
  intros (id & -> & Hid)%list_elem_of_fmap. exists id.
  apply elem_of_seqZ in Hid. split; [lia|].
  destruct (lathe_entry db (rand id) id); auto.
Qed.

(** X14: the fleet summary never fails and holds exactly one entry per
    lathe, for the lathes 1 to [num_lathes] in this order; every entry is
    named after its lathe, its health score and uptime lie between 0 and
    100, and its failure count is not negative. *)
Theorem fleet_summary_is_well_formed (db : database) (rand : Z → Q) (num_lathes : Z) :
  ∃ entries,
    get_all_lathes db rand num_lathes = Ok entries
    ∧ lathe_id <$> entries = seqZ 1 num_lathes
    ∧ length entries = Z.to_nat num_lathes
    ∧ ∀ entry, entry ∈ entries →
        (1 <= lathe_id entry <= num_lathes)%Z
        ∧ name entry = "Lathe M" +:+ pretty (lathe_id entry)
        ∧ 0 <= health_score entry <= 100
        ∧ 0 <= uptime entry <= 100
        ∧ (0 <= failure_count entry)%Z.
Proof.
  eexists. split; [reflexivity|]. split; [|split].
  - rewrite <- list_fmap_compose. rewrite <- (list_fmap_id (seqZ 1 num_lathes)) at 2.
    apply list_fmap_ext. intros _ id _. simpl.
    destruct (lathe_entry db (rand id) id) eqn:E; [|reflexivity].
    eapply lathe_entry_id, E.
  - rewrite length_fmap, length_seqZ. reflexivity.
  - intros entry (id & Hid & Hentry)%get_all_lathes_entries.
    assert (∀ st, let entry := placeholder id st in
              (1 <= lathe_id entry <= num_lathes)%Z
              ∧ name entry = "Lathe M" +:+ pretty (lathe_id entry)
              ∧ 0 <= health_score entry <= 100
              ∧ 0 <= uptime entry <= 100
              ∧ (0 <= failure_count entry)%Z) as Hplace.
    { intros st. simpl. split; [lia|]. split; [reflexivity|].
      split; [split; discriminate|]. split; [split; discriminate | lia]. }
    destruct Hentry as [-> | Hentry]; [apply Hplace|].
    destruct (lathe_entry_cases _ _ _ _ Hentry)
      as [[-> | ->] | (readings & count & _ & _ & Hcount & ->)];
      [apply Hplace | apply Hplace |].
    simpl. split; [lia|]. split; [reflexivity|].
    split; [apply py_round1_percent, calculate_health_score_bounds|].
    split; [apply py_round1_percent, calculate_uptime_bounds|].
    eapply count_documents_nonneg, Hcount.
Qed.

(** ** Reported score and status *)

(** The status is taken from the score before rounding, the score is
    reported after it. *)
Lemma status_of_rounded (h : Q) :
  (get_lathe_status h = "Operational"%string → 80 <= py_round1 h)
  ∧ (get_lathe_status h = "Warning"%string → 60 <= py_round1 h <= 80)
  ∧ (get_lathe_status h = "Failure"%string → py_round1 h <= 60).
Proof.
  assert (inject_Z 800 / 10 == 80) as E80 by reflexivity.
  assert (inject_Z 600 / 10 == 60) as E60 by reflexivity.
  unfold get_lathe_status.
  destruct (Qle_bool 80 h) eqn:H80.
  { apply Qle_bool_iff in H80. split; [|split; discriminate].
    intros _. rewrite <- E80. apply py_round1_ge. rewrite E80. exact H80. }
  apply Qle_bool_false in H80.
  destruct (Qle_bool 60 h) eqn:H60.
  - apply Qle_bool_iff in H60. split; [discriminate|]. split; [|discriminate].
    intros _. split.
    + rewrite <- E60. apply py_round1_ge. rewrite E60. exact H60.
    + rewrite <- E80. apply py_round1_le. rewrite E80. lra.
  - apply Qle_bool_false in H60. split; [discriminate|]. split; [discriminate|].
    intros _. rewrite <- E60. apply py_round1_le. rewrite E60. lra.
Qed.

Lemma placeholder_status (id : Z) (st : string) :
  st = "Offline"%string ∨ st = "No Data"%string ∨ st = "Error"%string →
  let entry := placeholder id st in
  (status entry = "Operational"%string → 80 <= health_score entry)
  ∧ (status entry = "Warning"%string → 60 <= health_score entry <= 80)
  ∧ (status entry = "Failure"%string → health_score entry <= 60).
Proof.
  intros [-> | [-> | ->]]; simpl; (split; [|split]); discriminate.
Qed.

(** The scorer reads nothing that an inclusion projection on the tracked
    fields, or on more, drops. *)
Lemma calculate_health_score_projection (fields : list string) (l : list doc) :
  Forall (λ k, k ∈ fields) tracked →
  calculate_health_score (project fields <$> l) = calculate_health_score l.
Proof.
  intros Hfields. destruct l as [| d l]; [reflexivity|].
  unfold calculate_health_score. simpl fmap.
  rewrite !health_score_body_spec.
  change (project fields d :: list_fmap doc doc (project fields) l)
    with (project fields <$> (d :: l)).
  unfold spec_subscore.
  rewrite !spec_observed_project
    by (apply (tracked_in_fields _ _ Hfields); decide_in).
  reflexivity.
Qed.

Lemma details_fields_tracked : Forall (λ k, k ∈ details_fields) tracked.
Proof. repeat constructor; decide_in. Qed.

Lemma tracked_tracked : Forall (λ k, k ∈ tracked) tracked.
Proof. repeat constructor; decide_in. Qed.

Lemma sort_desc_nonempty key (ds : list doc) : ds ≠ [] → sort_desc key ds ≠ [].
Proof.
  destruct ds as [| d ds]; [contradiction|]. intros _. simpl.
  destruct (insert_desc_cons key d (sort_desc key ds)) as (x & l & ->).
  discriminate.
Qed.

Lemma take_nonempty {A} (n : nat) (l : list A) : l ≠ [] → take (S n) l ≠ [].
Proof. destruct l; [contradiction | discriminate]. Qed.

Lemma fmap_nonempty {A B} (f : A → B) (l : list A) : l ≠ [] → f <$> l ≠ [].
Proof. destruct l; [contradiction | discriminate]. Qed.

Lemma match_nonempty {A B} (l : list A) (x y : B) :
  l ≠ [] → match l with [] => x | _ :: _ => y end = y.
Proof. destruct l; [contradiction | reflexivity]. Qed.

Lemma find_latest_Ok db name fields key (n : nat) (ds : list doc) :
  find db name [] = Ok ds →
  find_latest db name [] fields key n
  = Ok (project fields <$> take n (sort_desc key ds)).
Proof. intros H. unfold find_latest. rewrite H. reflexivity. Qed.

Lemma find_latest_Ok_inv db name fields key (n : nat) (found : list doc) :
  find_latest db name [] fields key n = Ok found →
  find db name [] = Ok (stored db name)
  ∧ found = project fields <$> take n (sort_desc key (stored db name)).
Proof.
  unfold find_latest. destruct (find db name []) as [ds|] eqn:E; [|discriminate].
  intros [= <-]. rewrite <- (find_all_stored _ _ _ E). split; reflexivity.
Qed.

Lemma details_Ok (body : result LatheDetails) (details : LatheDetails) :
  match body with
  | Ok x => Ok x
  | Raise (HTTPException status_code) => Raise (HTTPException status_code)
  | Raise Error => Raise Error
  end = Ok details → body = Ok details.
Proof. destruct body as [r|[c|]]; [trivial | discriminate | discriminate]. Qed.

Lemma lathe_details_Ok db factor now id (details : LatheDetails) :
  get_lathe_details db factor now id = Ok details →
  let latest := sort_desc "timestamp" (stored db (sensory_col id)) in
  collection_exists db (sensory_col id) = true
  ∧ find db (sensory_col id) [] = Ok (stored db (sensory_col id))
  ∧ stored db (sensory_col id) ≠ []
  ∧ summary details
    = computed_summary db factor id (take 1000 latest)
        (failure_count (summary details))
  ∧ (if collection_exists db (job_col id)
     then count_documents db (job_col id) failure_query
          = Ok (failure_count (summary details))
     else failure_count (summary details) = 0%Z
          ∧ jobs_completed_today details = 0%Z
          ∧ daily_job_target details = VInt 10)
  ∧ current_job details = project details_fields <$> head latest
  ∧ current_temperature details = current (current_job details) "Temperature"
  ∧ current_vibration details = current (current_job details) "Vibration"
  ∧ current_rpm details = current (current_job details) "RPM"
  ∧ current_power details = current (current_job details) "Power"
  ∧ current_tool_wear details = current (current_job details) "ToolWear".
Proof.
  intros H latest. unfold get_lathe_details in H. apply details_Ok in H.
  unfold lathe_details_body in H.
  destruct (collection_exists db (sensory_col id)); [|discriminate].
  cbn [negb] in H.
  apply bind_Ok_inv in H as (found & Hfound & H).
  apply find_latest_Ok_inv in Hfound as [Hfind ->].
  rewrite (calculate_health_score_projection _ _ details_fields_tracked) in H.
  fold latest in H.
  assert (stored db (sensory_col id) ≠ []) as Hne.
  { intros Hempty. unfold latest in H. rewrite Hempty in H. discriminate. }
  rewrite match_nonempty in H
    by (apply fmap_nonempty, take_nonempty, sort_desc_nonempty, Hne).
  apply bind_Ok_inv in H as (cur & Hcur & H).
  unfold find_one_latest in Hcur.
  rewrite (find_latest_Ok _ _ _ _ _ _ Hfind) in Hcur.
  assert (cur = project details_fields <$> head latest) as ->.
  { injection Hcur as <-. unfold latest. destruct (sort_desc _ _); reflexivity. }
  apply bind_Ok_inv in H as (today & Htoday & H).
  apply bind_Ok_inv in H as (target & Htarget & H).
  apply bind_Ok_inv in H as (count & Hcount & H).
  injection H as <-. cbn.
  split; [reflexivity|]. split; [exact Hfind|]. split; [exact Hne|].
  split; [reflexivity|].
  split; [|repeat split; reflexivity].
  destruct (collection_exists db (job_col id)); [assumption|].
  injection Htoday as <-. injection Htarget as <-. injection Hcount as <-.
  repeat split; reflexivity.
Qed.

Lemma lathe_details_status db factor now id (details : LatheDetails) :
  get_lathe_details db factor now id = Ok details →
  ∃ h, health_score (summary details) = py_round1 h
       ∧ status (summary details) = get_lathe_status h.
Proof.
  intros (_ & _ & _ & -> & _)%lathe_details_Ok. eexists. split; reflexivity.
Qed.

(** X15: the status of an entry of the fleet summary, and of a details
    answer, fits the score reported beside it: Operational comes with a
    reported score of at least 80, Warning with one from 60 to 80, Failure
    with one of at most 60.  The bounds are not strict: the status is
    taken from the score before it is rounded, so a reported 80.0 can be a
    Warning. *)
Theorem status_matches_reported_score
    (db : database) (rand : Z → Q) (now num_lathes id : Z)
    (entries : list LatheSummary) (entry : LatheSummary) :
  (get_all_lathes db rand num_lathes = Ok entries ∧ entry ∈ entries)
  ∨ (∃ details, get_lathe_details db (rand id) now id = Ok details
                ∧ entry = summary details) →
  (status entry = "Operational"%string → 80 <= health_score entry)
  ∧ (status entry = "Warning"%string → 60 <= health_score entry <= 80)
  ∧ (status entry = "Failure"%string → health_score entry <= 60).
Proof.
  intros [[[= <-] Hin] | (details & Hok & ->)].
  - apply get_all_lathes_entries in Hin as (i & _ & [-> | Hentry]).
    { apply placeholder_status. auto. }
    destruct (lathe_entry_cases _ _ _ _ Hentry)
      as [[-> | ->] | (readings & count & _ & _ & _ & ->)];
      [apply placeholder_status; auto | apply placeholder_status; auto |].
    apply status_of_rounded.
  - destruct (lathe_details_status _ _ _ _ _ Hok) as (h & -> & ->).
    apply status_of_rounded.
Qed.

Lemma status_matches_reported_score_witness :
  ∃ entry,
    get_all_lathes borderline_db (λ _, 1 # 10) 1 = Ok [entry]
    ∧ status entry = "Warning"%string
    ∧ health_score entry == 80
    ∧ 60 <= health_score entry <= 80.
Proof.
  eexists. split; [vm_compute; reflexivity|]. split; [reflexivity|].
  split; [reflexivity|].
  refine (proj1 (proj2 (status_matches_reported_score borderline_db (λ _, 1 # 10)
                          0 1 1 _ _ _)) _);
    [left; split; [vm_compute; reflexivity | left] | reflexivity].
Defined.

(** X16: for a lathe whose job collection is listed, the summary part of a
    details answer is the entry of that lathe in the fleet summary, the
    damping factor drawn being the same. *)
Theorem details_agree_with_summary
    (db : database) (rand : Z → Q) (now num_lathes id : Z)
    (details : LatheDetails) :
  (1 <= id <= num_lathes)%Z →
  collection_exists db (job_col id) = true →
  get_lathe_details db (rand id) now id = Ok details →
  ∃ entries,
    get_all_lathes db rand num_lathes = Ok entries
    ∧ entries !! Z.to_nat (id - 1) = Some (summary details).
Proof.
  intros Hid Hjob Hok. eexists. split; [reflexivity|].
  rewrite list_lookup_fmap.
  rewrite lookup_seqZ_lt by lia.
  simpl. replace (1 + Z.of_nat (Z.to_nat (id - 1)))%Z with id by lia.
  destruct (lathe_details_Ok _ _ _ _ _ Hok)
    as (Hsens & Hfind & Hne & -> & Hcount & _).
  rewrite Hjob in Hcount.
  unfold lathe_entry. rewrite Hsens, Hjob. cbn [negb orb].
  rewrite (find_latest_Ok _ _ _ _ _ _ Hfind). cbn [mbind result_bind].
  rewrite match_nonempty
    by (apply fmap_nonempty, take_nonempty, sort_desc_nonempty, Hne).
  rewrite (calculate_health_score_projection _ _ tracked_tracked).
  rewrite Hcount. reflexivity.
Qed.

Lemma details_agree_with_summary_witness :
  ∃ details entries,
    get_lathe_details borderline_db (1 # 10) 0 1 = Ok details
    ∧ get_all_lathes borderline_db (λ _, 1 # 10) 1 = Ok entries
    ∧ entries !! 0%nat = Some (summary details).
Proof.
  destruct (get_lathe_details borderline_db (1 # 10) 0 1) as [details|] eqn:E;
    [|vm_compute in E; discriminate].
  destruct (details_agree_with_summary borderline_db (λ _, 1 # 10) 0 1 1 details)
    as (entries & Hall & Hentry); [lia | reflexivity | exact E |].
  exists details, entries. split; [reflexivity|]. split; assumption.
Defined.

(** X17: for a lathe whose job collection is not listed the two endpoints
    disagree: a details answer reports uptime 100, no failure, no job
    completed today and the default target of 10, while the fleet summary
    lists the same lathe as Offline, with score and uptime 0. *)
Theorem details_without_job_collection
    (db : database) (rand : Z → Q) (now num_lathes id : Z)
    (details : LatheDetails) :
  (1 <= id <= num_lathes)%Z →
  collection_exists db (job_col id) = false →
  get_lathe_details db (rand id) now id = Ok details →
  uptime (summary details) == 100
  ∧ failure_count (summary details) = 0%Z
  ∧ jobs_completed_today details = 0%Z
  ∧ daily_job_target details = VInt 10
  ∧ ∃ entries,
      get_all_lathes db rand num_lathes = Ok entries
      ∧ entries !! Z.to_nat (id - 1) = Some (placeholder id "Offline").
Proof.
  intros Hid Hjob Hok.
  destruct (lathe_details_Ok _ _ _ _ _ Hok)
    as (_ & _ & _ & Hsum & Hcount & _).
  rewrite Hjob in Hcount. destruct Hcount as (Hcount & Htoday & Htarget).
  split.
  { rewrite Hsum. simpl. unfold calculate_uptime, uptime_body.
    rewrite Hjob. reflexivity. }
  split; [assumption|]. split; [assumption|]. split; [assumption|].
  eexists. split; [reflexivity|].
  rewrite list_lookup_fmap.
  rewrite lookup_seqZ_lt by lia.
  simpl. replace (1 + Z.of_nat (Z.to_nat (id - 1)))%Z with id by lia.
  unfold lathe_entry. rewrite Hjob, orb_true_r. reflexivity.
Qed.

Lemma details_without_job_collection_witness :
  ∃ details,
    get_lathe_details history_db (1 # 10) 0 1 = Ok details
    ∧ uptime (summary details) == 100
    ∧ get_all_lathes history_db (λ _, 1 # 10) 1 = Ok [placeholder 1 "Offline"].
Proof.
  destruct (get_lathe_details history_db (1 # 10) 0 1) as [details|] eqn:E;
    [|vm_compute in E; discriminate].
  destruct (details_without_job_collection history_db (λ _, 1 # 10) 0 1 1 details)
    as (Hup & _); [lia | reflexivity | exact E |].
  exists details. split; [reflexivity|]. split; [exact Hup|].
  vm_compute. reflexivity.
Defined.

(** ** The current job *)

Lemma insert_desc_head (d : doc) (l : list doc) (h : doc) :
  dated d → Forall dated l →
  head (insert_desc "timestamp" d l) = Some h →
  (h = d ∨ head l = Some h)
  ∧ not_after d h
  ∧ ∀ h', head l = Some h' → not_after h' h.
Proof.
  intros Hd Hl. destruct l as [| d' rest]; simpl.
  - intros [= <-]. split; [auto|]. split; [unfold not_after; lia | discriminate].
  - apply Forall_cons in Hl as [Hd' _].
    rewrite (bson_leb_dated d d' Hd Hd').
    destruct (Z.leb_spec (stamp d) (stamp d')) as [Hle|Hgt]; intros [= <-].
    + split; [auto|]. split; [exact Hle|].
      intros h' [= <-]. unfold not_after. lia.
    + split; [auto|]. split; [unfold not_after; lia|].
      intros h' [= <-]. unfold not_after. lia.
Qed.

(** A descending sort on the timestamp starts with a latest reading. *)
Lemma sort_desc_head_latest (l : list doc) (h : doc) :
  Forall dated l →
  head (sort_desc "timestamp" l) = Some h →
  h ∈ l ∧ ∀ d, d ∈ l → not_after d h.
Proof.
  intros Hl. revert h. induction Hl as [| d l Hd Hl IH]; intros h; simpl.
  { discriminate. }
  intros Hh.
  assert (Forall dated (sort_desc "timestamp" l)) as Hsorted
    by (rewrite sort_desc_perm; exact Hl).
  destruct (insert_desc_head d _ h Hd Hsorted Hh) as (Hwhich & Hdh & Hrest).
  destruct (head (sort_desc "timestamp" l)) as [h0|] eqn:Eh0.
  - destruct (IH h0 eq_refl) as [Hin Hmax].
    specialize (Hrest h0 eq_refl). split.
    + destruct Hwhich as [-> | [= ->]]; [left | right; exact Hin].
    + intros d' [-> | Hd']%elem_of_cons; [exact Hdh|].
      specialize (Hmax d' Hd'). unfold not_after in *. lia.
  - assert (l = []) as ->.
    { destruct l as [| x l']; [reflexivity|].
      destruct (sort_desc_nonempty "timestamp" (x :: l') ltac:(discriminate)).
      destruct (sort_desc "timestamp" (x :: l')); [reflexivity | discriminate]. }
    destruct Hwhich as [-> | [=]]. split; [left|].
    intros d' [-> | Hd']%elem_of_cons; [exact Hdh|].
    apply elem_of_nil in Hd'. contradiction.
Qed.

(** X18: when every stored reading carries a datetime timestamp, the
    current job of a details answer is a stored reading that no other one
    is later than, projected on the details fields, and the five current
    values are the values of that reading (None for a missing one). *)
Theorem current_job_is_latest_reading
    (db : database) (factor : Q) (now id : Z) (details : LatheDetails) :
  Forall dated (stored db (sensory_col id)) →
  get_lathe_details db factor now id = Ok details →
  ∃ d,
    d ∈ stored db (sensory_col id)
    ∧ (∀ d', d' ∈ stored db (sensory_col id) → not_after d' d)
    ∧ current_job details = Some (project details_fields d)
    ∧ current_temperature details = default VNone (d !! "Temperature")
    ∧ current_vibration details = default VNone (d !! "Vibration")
    ∧ current_rpm details = default VNone (d !! "RPM")
    ∧ current_power details = default VNone (d !! "Power")
    ∧ current_tool_wear details = default VNone (d !! "ToolWear").
Proof.
  intros Hdated Hok.
  destruct (lathe_details_Ok _ _ _ _ _ Hok)
    as (_ & _ & Hne & _ & _ & Hcur & -> & -> & -> & -> & ->).
  destruct (head (sort_desc "timestamp" (stored db (sensory_col id))))
    as [d|] eqn:Ehead.
  - destruct (sort_desc_head_latest _ _ Hdated Ehead) as [Hin Hmax].
    exists d. rewrite Hcur. simpl.
    split; [exact Hin|]. split; [exact Hmax|]. split; [reflexivity|].
    rewrite !project_lookup by decide_in. repeat split; reflexivity.
  - apply (sort_desc_nonempty "timestamp") in Hne.
    destruct (sort_desc _ _); [contradiction | discriminate].
Qed.

Lemma current_job_is_latest_reading_witness :
  ∃ details d,
    get_lathe_details history_db (1 # 10) 0 1 = Ok details
    ∧ d ∈ stored history_db (sensory_col 1)
    ∧ (∀ d', d' ∈ stored history_db (sensory_col 1) → not_after d' d)
    ∧ current_temperature details = default VNone (d !! "Temperature").
Proof.
  destruct (get_lathe_details history_db (1 # 10) 0 1) as [details|] eqn:E;
    [|vm_compute in E; discriminate].
  destruct (current_job_is_latest_reading history_db (1 # 10) 0 1 details)
    as (d & Hin & Hmax & _ & Htemp & _); [|exact E|].
  - repeat constructor; eexists; reflexivity.
  - exists details, d. split; [reflexivity|]. split; [exact Hin|].
    split; [exact Hmax | exact Htemp].
Defined.

(** A descending sort on the timestamp puts no reading before a later
    one. *)
Lemma insert_desc_sorted (d : doc) (l : list doc) :
  dated d → Forall dated l →
  StronglySorted (flip not_after) l →
  StronglySorted (flip not_after) (insert_desc "timestamp" d l).
Proof.
  intros Hd Hl Hs. induction Hs as [| d' l Hs IH Hall]; simpl.
  - repeat constructor.
  - apply Forall_cons in Hl as [Hd' Hl].
    rewrite (bson_leb_dated d d' Hd Hd').
    destruct (Z.leb_spec (stamp d) (stamp d')) as [Hle|Hgt].
    + constructor; [apply IH, Hl|].
      rewrite insert_desc_perm. constructor; [exact Hle | exact Hall].
    + constructor; [constructor; assumption|].
      constructor; [unfold flip, not_after; lia|].
      eapply Forall_impl; [exact Hall|]. unfold flip, not_after. intros x Hx. lia.
Qed.

Lemma sort_desc_sorted (l : list doc) :
  Forall dated l → StronglySorted (flip not_after) (sort_desc "timestamp" l).
Proof.
  induction 1 as [| d l Hd Hl IH]; simpl; [constructor|].
  apply insert_desc_sorted; [assumption | rewrite sort_desc_perm; assumption | exact IH].
Qed.

Lemma sorted_app_cross {A} (R : A → A → Prop) (l1 l2 : list A) :
  StronglySorted R (l1 ++ l2) → ∀ x y, x ∈ l1 → y ∈ l2 → R x y.
Proof.
  induction l1 as [| a l1 IH]; simpl; intros Hs x y Hx Hy.
  - apply elem_of_nil in Hx. contradiction.
  - apply StronglySorted_inv in Hs as [Hs Hall].
    apply elem_of_cons in Hx as [-> | Hx]; [|exact (IH Hs x y Hx Hy)].
    rewrite Forall_forall in Hall. apply Hall, elem_of_app. right. exact Hy.
Qed.

(** X19: the score and the status of a details answer are those of the
    1000 latest readings of the lathe, of all its readings when it has
    fewer: when every stored reading carries a datetime timestamp, the
    stored readings fall into the readings scored and the readings left
    out, and no reading left out is later than a reading scored. *)
Theorem score_reads_latest_readings
    (db : database) (factor : Q) (now id : Z) (details : LatheDetails) :
  Forall dated (stored db (sensory_col id)) →
  get_lathe_details db factor now id = Ok details →
  ∃ scored left_out : list doc,
    stored db (sensory_col id) ≡ₚ scored ++ left_out
    ∧ length scored = (1000 `min` length (stored db (sensory_col id)))%nat
    ∧ health_score (summary details) = py_round1 (calculate_health_score scored)
    ∧ status (summary details) = get_lathe_status (calculate_health_score scored)
    ∧ ∀ d r, d ∈ scored → r ∈ left_out → not_after r d.
Proof.
  intros Hdated Hok.
  destruct (lathe_details_Ok _ _ _ _ _ Hok) as (_ & _ & _ & -> & _).
  set (latest := sort_desc "timestamp" (stored db (sensory_col id))).
  exists (take 1000 latest), (drop 1000 latest).
  split; [rewrite take_drop; symmetry; apply sort_desc_perm|].
  split.
  { rewrite length_take. unfold latest.
    rewrite (Permutation_length (sort_desc_perm _ _)). reflexivity. }
  split; [reflexivity|]. split; [reflexivity|].
  intros d r Hd Hr.
  apply (sorted_app_cross (flip not_after) (take 1000 latest) (drop 1000 latest));
    [|exact Hd | exact Hr].
  rewrite take_drop. apply sort_desc_sorted, Hdated.
Qed.

Lemma score_reads_latest_readings_witness :
  ∃ details scored,
    get_lathe_details history_db (1 # 10) 0 1 = Ok details
    ∧ length scored = 3%nat
    ∧ health_score (summary details) = py_round1 (calculate_health_score scored).
Proof.
  destruct (get_lathe_details history_db (1 # 10) 0 1) as [details|] eqn:E;
    [|vm_compute in E; discriminate].
  destruct (score_reads_latest_readings history_db (1 # 10) 0 1 details)
    as (scored & left_out & _ & Hlen & Hscore & _); [|exact E|].
  - repeat constructor; eexists; reflexivity.
  - exists details, scored. split; [reflexivity|]. split; [exact Hlen | exact Hscore].
Defined.

(** ** Product analysis: the tables of an answer *)

Lemma foldlM_invariant_in {A B} (I : B → Prop) (f : B → A → result B) (l : list A) :
  (∀ acc a acc', a ∈ l → I acc → f acc a = Ok acc' → I acc') →
  ∀ b r, I b → foldlM f b l = Ok r → I r.
Proof.
  induction l as [| a l IH]; intros Hstep b r Hb; simpl.
  - intros [= <-]. assumption.
  - intros H. apply bind_Ok_inv in H as (b' & Hb' & H).
    eapply IH; [|eapply Hstep; [left| |]; eassumption|exact H].
    intros acc x acc' Hx. apply Hstep. right. exact Hx.
Qed.

(** Setting one key in two dictionaries with the same keys leaves them with
    the same keys. *)
Lemma dict_set_same_keys {V W} (d : dict V) (e : dict W) (k : pyval) (v : V) (w : W) :
  dict_keys d = dict_keys e →
  dict_keys (dict_set d k v) = dict_keys (dict_set e k w).
Proof.
  intros Hkeys. rewrite !dict_set_keys.
  destruct (dict_get d k) eqn:Ed, (dict_get e k) eqn:Ee;
    try (rewrite Hkeys; reflexivity).
  - apply dict_get_None in Ee. rewrite <- Hkeys in Ee.
    apply dict_get_None in Ee. congruence.
  - apply dict_get_None in Ed. rewrite Hkeys in Ed.
    apply dict_get_None in Ed. congruence.
Qed.

Lemma dict_set_keys_subset {V} (d : dict V) (k : pyval) (v : V) (keys : list pyval) :
  k ∈ keys → (∀ x, x ∈ dict_keys d → x ∈ keys) →
  ∀ x, x ∈ dict_keys (dict_set d k v) → x ∈ keys.
Proof.
  intros Hk Hd x. rewrite dict_set_keys.
  destruct (dict_get d k); [apply Hd|].
  intros [Hx | ->%list_elem_of_singleton]%elem_of_app; [apply Hd, Hx | exact Hk].
Qed.

(** One turn of the loop over the materials either skips the material or
    sets its entry in both tables. *)
Lemma analyse_material_step db id jobs
    (acc acc' : dict quality * dict (list (string * Q))) (material : pyval) :
  analyse_material db id jobs acc material = Ok acc' →
  acc' = acc
  ∨ ∃ (material_jobs : list pyval) (failed_jobs : Z) (health_scores : list Q)
      (params : list (string * Q)),
      count_documents db (job_col id)
        [("JobID"%string, OpIn material_jobs); ("FinalToolWear"%string, OpGt 80)]
      = Ok failed_jobs
      ∧ job_health_scores db id material_jobs = Ok health_scores
      ∧ acc'
        = (dict_set acc.1 material
             {| failure_rate :=
                  failure_rate_of failed_jobs (Z.of_nat (length material_jobs));
                avg_health_score := py_round1 (mean_or_zero health_scores) |},
           dict_set acc.2 material params).
Proof.
  unfold analyse_material. intros H.
  apply bind_Ok_inv in H as (material_jobs & _ & H).
  apply bind_Ok_inv in H as (sensor_data & _ & H).
  destruct sensor_data as [| r sensor_data]; [injection H as <-; auto|].
  apply bind_Ok_inv in H as (failed_jobs & Hfailed & H).
  apply bind_Ok_inv in H as (health_scores & Hscores & H).
  apply bind_Ok_inv in H as (temperature & _ & H).
  apply bind_Ok_inv in H as (vibration & _ & H).
  apply bind_Ok_inv in H as (rpm & _ & H).
  apply bind_Ok_inv in H as (power & _ & H).
  apply bind_Ok_inv in H as (tool_wear & _ & H).
  injection H as <-. right. eauto 10.
Qed.

Lemma product_analysis_tables db id (analysis : ProductAnalysis) :
  get_lathe_product_analysis db id = Ok analysis →
  ∃ jobs,
    product_types analysis = count_materials jobs
    ∧ foldlM (analyse_material db id jobs) ([], [])
        (dict_keys (count_materials jobs))
      = Ok (product_quality analysis, params_by_type analysis).
Proof.
  unfold get_lathe_product_analysis. intros H%wrapped_Ok.
  unfold product_analysis_body in H.
  destruct (collection_exists db (job_col id)); [|discriminate].
  cbn [negb] in H.
  apply bind_Ok_inv in H as (jobs & _ & H).
  destruct jobs as [| j jobs]; [discriminate|].
  apply bind_Ok_inv in H as ([quality_table params_table] & Hfold & H).
  injection H as <-. exists (j :: jobs). split; [reflexivity | exact Hfold].
Qed.

(** X20: in an answer of the product analysis the quality table and the
    parameter table list the same materials in the same order, and each
    of them is a material of [product_types]. *)
Theorem quality_tables_cover_same_materials
    (db : database) (id : Z) (analysis : ProductAnalysis) :
  get_lathe_product_analysis db id = Ok analysis →
  dict_keys (product_quality analysis) = dict_keys (params_by_type analysis)
  ∧ ∀ material, material ∈ dict_keys (product_quality analysis) →
      material ∈ dict_keys (product_types analysis).
Proof.
  intros (jobs & -> & Hfold)%product_analysis_tables.
  set (keys := dict_keys (count_materials jobs)) in *.
  set (I := λ acc : dict quality * dict (list (string * Q)),
         dict_keys acc.1 = dict_keys acc.2
         ∧ ∀ material, material ∈ dict_keys acc.1 → material ∈ keys).
  apply (foldlM_invariant_in I _ _) with (b := ([], [])) in Hfold;
    [exact Hfold | | split; [reflexivity | intros ? []%elem_of_nil]].
  intros acc material acc' Hin [Hsame Hsub] Hstep.
  destruct (analyse_material_step _ _ _ _ _ _ Hstep)
    as [-> | (material_jobs & failed & scores & params & _ & _ & ->)];
    [split; assumption|].
  split; simpl.
  - apply dict_set_same_keys, Hsame.
  - apply dict_set_keys_subset; assumption.
Qed.

Lemma quality_tables_cover_same_materials_witness :
  ∃ analysis,
    get_lathe_product_analysis aab_db_with_readings 1 = Ok analysis
    ∧ dict_keys (product_types analysis) = [VStr "A"; VStr "B"]
    ∧ dict_keys (product_quality analysis) = dict_keys (params_by_type analysis).
Proof.
  destruct (get_lathe_product_analysis aab_db_with_readings 1)
    as [analysis|] eqn:E; [|vm_compute in E; discriminate].
  destruct (quality_tables_cover_same_materials aab_db_with_readings 1 analysis E)
    as [Hsame _].
  exists analysis. split; [reflexivity|]. split; [|exact Hsame].
  vm_compute in E. injection E as <-. reflexivity.
Defined.

Lemma failure_rate_of_nonneg (failed_jobs total_jobs : Z) :
  (0 <= failed_jobs)%Z → 0 <= failure_rate_of failed_jobs total_jobs.
Proof.
  intros Hfailed. unfold failure_rate_of.
  destruct (Z.ltb_spec 0 total_jobs) as [Htotal|_]; [|discriminate].
  assert (inject_Z 0 / 10 == 0) as E by reflexivity.
  rewrite <- E. apply py_round1_ge. rewrite E.
  assert (0 <= inject_Z failed_jobs / inject_Z total_jobs) as Hratio.
  { apply Qle_shift_div_l.
    - change 0 with (inject_Z 0). rewrite <- Zlt_Qlt. exact Htotal.
    - rewrite Qmult_0_l. change 0 with (inject_Z 0). rewrite <- Zle_Qle.
      exact Hfailed. }
  lra.
Qed.

Lemma mean_or_zero_percent (l : list Q) :
  Forall (λ y, 0 <= y <= 100) l → 0 <= mean_or_zero l <= 100.
Proof.
  intros H. destruct l as [| x l]; [split; discriminate|].
  apply (mean_bounds 0 100 (x :: l)); [discriminate | exact H].
Qed.

Lemma job_health_scores_percent db id (material_jobs : list pyval) (scores : list Q) :
  job_health_scores db id material_jobs = Ok scores →
  Forall (λ y, 0 <= y <= 100) scores.
Proof.
  unfold job_health_scores.
  apply (foldlM_invariant (Forall (λ y, 0 <= y <= 100))); [|constructor].
  intros acc job_id acc' Hacc. unfold collect_job_score. intros H.
  apply bind_Ok_inv in H as (job_sensor_data & _ & H).
  destruct job_sensor_data as [| r rs]; injection H as <-; [exact Hacc|].
  apply Forall_app. split; [exact Hacc|].
  constructor; [exact (calculate_health_score_bounds (r :: rs)) | constructor].
Qed.

(** X21: in an answer of the product analysis no failure rate is negative
    and every average health score lies between 0 and 100.  The failure
    rate has no upper bound of 100: its numerator counts every stored
    job with one of the group's JobIDs, completed or not. *)
Theorem product_quality_ranges
    (db : database) (id : Z) (analysis : ProductAnalysis)
    (material : pyval) (q : quality) :
  get_lathe_product_analysis db id = Ok analysis →
  (material, q) ∈ product_quality analysis →
  0 <= failure_rate q ∧ 0 <= avg_health_score q <= 100.
Proof.
  intros (jobs & _ & Hfold)%product_analysis_tables Hin.
  set (P := λ (_ : pyval) (q : quality),
         0 <= failure_rate q ∧ 0 <= avg_health_score q <= 100).
  set (I := λ acc : dict quality * dict (list (string * Q)),
         Forall (λ kv, P kv.1 kv.2) acc.1).
  apply (foldlM_invariant I) with (b := ([], [])) in Hfold; [| |constructor].
  { unfold I in Hfold. rewrite Forall_forall in Hfold. apply (Hfold _ Hin). }
  intros acc m acc' Hacc Hstep.
  destruct (analyse_material_step _ _ _ _ _ _ Hstep)
    as [-> | (material_jobs & failed & scores & params & Hfailed & Hscores & ->)];
    [exact Hacc|].
  unfold I. simpl. apply (dict_set_Forall P); [|exact Hacc].
  intros k0 _. unfold P. simpl. split.
  - eapply failure_rate_of_nonneg, count_documents_nonneg, Hfailed.
  - eapply py_round1_percent, mean_or_zero_percent, job_health_scores_percent, Hscores.
Qed.

Lemma product_quality_ranges_witness :
  ∃ analysis q,
    get_lathe_product_analysis repeated_job_db 1 = Ok analysis
    ∧ (VStr "A", q) ∈ product_quality analysis
    ∧ failure_rate q == 200
    ∧ 0 <= avg_health_score q <= 100.
Proof.
  destruct (get_lathe_product_analysis repeated_job_db 1) as [analysis|] eqn:E;
    [|vm_compute in E; discriminate].
  assert (∃ q, product_quality analysis = [(VStr "A", q)] ∧ failure_rate q == 200)
    as (q & Hq & Hrate).
  { vm_compute in E. injection E as <-. eexists. split; reflexivity. }
  destruct (product_quality_ranges repeated_job_db 1 analysis (VStr "A") q)
    as [_ Havg]; [exact E | rewrite Hq; left |].
  exists analysis, q. split; [reflexivity|]. split; [rewrite Hq; left|].
  split; [exact Hrate | exact Havg].
Defined.
